(** * Gestionale magazzino: the stock ledger of [backend.py]

    A shallow embedding of the inventory functions of [backend.py] and the
    properties of the stock ledger proved on it.

    Modelling conventions.
    - The SQLite store is a record of three tables, each a list of rows in
      rowid order (AUTOINCREMENT ids only grow, so deleting rows keeps the
      order of the others).  [taglie_prodotti] carries no uniqueness
      constraint, so duplicates and order are kept as they are.
    - Python [int] is [Z].  SQL INTEGER is a 64-bit integer, held as a [Z]
      between [min_int64] and [max_int64]; a [Z] outside that range in a
      column stands for the REAL of that value, which is what SQLite stores
      when an integer sum overflows ([sql_add]).  A Python [int] outside the
      range cannot be bound to a statement: [execute] raises [OverflowError]
      and the call commits nothing.  A nullable column is an [option].
    - A Python [str] is a [string] whose characters are read as code points
      below 256.  An argument annotated [str] is a [string]: the code reads
      it as [(x or "")], under which [None] is the empty string.
    - [datetime('now')] is the argument [ora] of the operation that reads the
      clock.
    - Every function opens its own connection; a function that raises before
      its [commit] leaves the store it was given.  Stateful functions return
      the store they leave behind.
    - Only the columns the ledger reads or writes are kept in [prodotto]. *)

From Stdlib Require Import List String Ascii ZArith NArith Lia Bool Arith.
Import ListNotations.

Local Open Scope string_scope.
Local Open Scope Z_scope.
Local Open Scope list_scope.

(** String equality, as [==] on [str] and [=] on TEXT under the BINARY
    collation. *)
Infix "=?=" := String.eqb (at level 70, no associativity).

(* ===================================================================== *)
(** ** Strings: [str.strip], [str.upper], SQL [TRIM] and [COLLATE NOCASE] *)
(* ===================================================================== *)

Module Stringhe.

(** Characters removed by Python's [str.strip()] (whitespace code points
    below 256). *)
Definition py_isspace (a : ascii) : bool :=
  let n := N_of_ascii a in
  ((9 <=? n) && (n <=? 13) || (28 <=? n) && (n <=? 32)
   || (n =? 133) || (n =? 160))%N.

(** SQL [TRIM(x)] removes spaces only. *)
Definition sql_isspace (a : ascii) : bool := Ascii.eqb a " ".

Definition vuota (s : string) : bool :=
  match s with EmptyString => true | String _ _ => false end.

Fixpoint lstrip (sp : ascii -> bool) (s : string) : string :=
  match s with
  | EmptyString => EmptyString
  | String a s' => if sp a then lstrip sp s' else s
  end.

Fixpoint rstrip (sp : ascii -> bool) (s : string) : string :=
  match s with
  | EmptyString => EmptyString
  | String a s' =>
      let r := rstrip sp s' in
      if sp a && vuota r then EmptyString else String a r
  end.

Definition strip_with (sp : ascii -> bool) (s : string) : string :=
  lstrip sp (rstrip sp s).

(** [s.strip()] *)
Definition strip : string -> string := strip_with py_isspace.

(** [TRIM(s)] *)
Definition sql_trim : string -> string := strip_with sql_isspace.

Definition upper_ascii (a : ascii) : ascii :=
  let n := N_of_ascii a in
  if ((97 <=? n) && (n <=? 122))%N then ascii_of_N (n - 32) else a.

Definition lower_ascii (a : ascii) : ascii :=
  let n := N_of_ascii a in
  if ((65 <=? n) && (n <=? 90))%N then ascii_of_N (n + 32) else a.

(** [s.upper()] where the code compares the result with an ASCII literal,
    which the letters outside ASCII never produce. *)
Fixpoint upper (s : string) : string :=
  match s with
  | EmptyString => EmptyString
  | String a s' => String (upper_ascii a) (upper s')
  end.

(** The upper case of a code point below 256, as [str.upper()] gives it:
    the sharp s becomes [SS], the micro sign and the y with diaeresis leave
    Latin-1, the other small letters lose 32. *)
Definition py_upper_codice (n : N) : list N :=
  (if (97 <=? n) && (n <=? 122) then [n - 32]
   else if n =? 181 then [924]
   else if n =? 223 then [83; 83]
   else if (224 <=? n) && (n <=? 254) && negb (n =? 247) then [n - 32]
   else if n =? 255 then [376]
   else [n])%N.

(** [s.upper()], as the list of the code points of the result. *)
Fixpoint py_upper (s : string) : list N :=
  match s with
  | EmptyString => []
  | String a s' => py_upper_codice (N_of_ascii a) ++ py_upper s'
  end.

(** [==] on two strings given by their code points. *)
Fixpoint codici_eqb (x y : list N) : bool :=
  match x, y with
  | [], [] => true
  | a :: x', b :: y' => (a =? b)%N && codici_eqb x' y'
  | _, _ => false
  end.

(** [x <= y] under the BINARY collation: code by code, a prefix first. *)
Fixpoint binary_leb (x y : string) : bool :=
  match x, y with
  | EmptyString, _ => true
  | String _ _, EmptyString => false
  | String a x', String b y' =>
      let m := N_of_ascii a in
      let n := N_of_ascii b in
      if (m <? n)%N then true
      else if (n <? m)%N then false
      else binary_leb x' y'
  end.

(** [x <= y] under [COLLATE NOCASE]: the 26 ASCII capitals are folded and the
    strings compared code by code. *)
Fixpoint nocase_leb (x y : string) : bool :=
  match x, y with
  | EmptyString, _ => true
  | String _ _, EmptyString => false
  | String a x', String b y' =>
      let m := N_of_ascii (lower_ascii a) in
      let n := N_of_ascii (lower_ascii b) in
      if (m <? n)%N then true
      else if (n <? m)%N then false
      else nocase_leb x' y'
  end.

(** [(colore or "").strip() or "DEFAULT"] *)
Definition norm_colore (colore : string) : string :=
  let s := strip colore in
  if vuota s then "DEFAULT" else s.

End Stringhe.
Import Stringhe.

(* ===================================================================== *)
(** ** The store *)
(* ===================================================================== *)

(** A row of [prodotti]. *)
Record prodotto := mk_prodotto {
  p_codice : string;
  p_colore : option string;       (* legacy single colour *)
  p_tipo_taglie : option string;
  p_venduti : option Z;
  p_created_at : option Z;
  p_updated_at : option Z
}.

(** A row of [taglie_prodotti]: one stock cell. *)
Record riga_stock := mk_stock {
  t_codice_prodotto : string;
  t_colore : option string;
  t_taglia : string;
  t_quantita : option Z
}.

(** [colori_prodotti] holds pairs [(codice_prodotto, colore)]. *)
Definition riga_colore : Type := string * string.

Record database := mk_db {
  prodotti : list prodotto;
  colori_prodotti : list riga_colore;
  taglie_prodotti : list riga_stock
}.

Definition db_vuoto : database := mk_db [] [] [].

(** Exceptions.  The ledger itself raises [ValueError] only; the messages
    are kept as constructors, with the numbers they print.  [OverflowError]
    is what [execute] raises for a parameter outside the 64-bit range. *)
Inductive messaggio :=
| QuantitaCaricoMinima     (* "La quantita' da caricare deve essere almeno 1." *)
| QuantitaScaricoMinima    (* "La quantita' da scaricare deve essere almeno 1." *)
| TagliaNonTrovata         (* "Taglia non trovata per questo prodotto/colore. ..." *)
| StockInsufficiente (disponibili richiesti : Z)
                           (* "Stock insufficiente: disponibili {}, richiesti {}." *)
| CodiceMancante           (* "Codice prodotto mancante." *)
| NonConvertibile.         (* "could not convert string to float: ..." *)

Inductive eccezione :=
| ValueError (m : messaggio)
| UnboundLocalError (nome : string)
| TypeError
| OverflowError.

Inductive esito (A : Type) :=
| Ritorna (a : A)
| Solleva (e : eccezione).
Arguments Ritorna {A} a.
Arguments Solleva {A} e.

Definition bind {A B} (x : esito A) (f : A -> esito B) : esito B :=
  match x with
  | Ritorna a => f a
  | Solleva e => Solleva e
  end.

Notation "x <- c1 ;; c2" := (bind c1 (fun x => c2))
  (at level 61, c1 at next level, right associativity).

(* ===================================================================== *)
(** ** SQL building blocks *)
(* ===================================================================== *)

Module Sql.

(** [COALESCE(x, d)] *)
Definition coalesce {A} (x : option A) (d : A) : A :=
  match x with Some v => v | None => d end.

(** The range of an SQL INTEGER, which is also the range of the Python
    [int]s that can be bound to a statement. *)
Definition max_int64 : Z := 9223372036854775807.
Definition min_int64 : Z := -9223372036854775808.

Definition in_int64 (z : Z) : bool := (min_int64 <=? z) && (z <=? max_int64).

(** The double nearest to an integer, ties to the even mantissa: the value
    of [z] as a REAL. *)
Definition sql_real (z : Z) : Z :=
  let a := Z.abs z in
  if a <? 2 ^ 53 then z
  else
    let u := 2 ^ (Z.log2 a - 52) in
    let q := a / u in
    let r := a mod u in
    let q := if 2 * r <? u then q
             else if u <? 2 * r then q + 1
             else if Z.even q then q else q + 1 in
    Z.sgn z * (q * u).

(** [x + y] on numbers: the integer sum when both are INTEGER and the sum
    is one, the sum of the two as REAL otherwise. *)
Definition sql_add (x y : Z) : Z :=
  if in_int64 x && in_int64 y && in_int64 (x + y) then x + y
  else sql_real (sql_real x + sql_real y).

(** [colore = ?] on a nullable column: NULL equals nothing. *)
Definition colore_eq (o : option string) (c : string) : bool :=
  match o with Some x => x =?= c | None => false end.

(** [WHERE codice_prodotto=? AND colore=?] *)
Definition del_colore (p c : string) (r : riga_stock) : bool :=
  (t_codice_prodotto r =?= p) && colore_eq (t_colore r) c.

(** [WHERE codice_prodotto=? AND colore=? AND taglia=?] *)
Definition cella (p c t : string) (r : riga_stock) : bool :=
  del_colore p c r && (t_taglia r =?= t).

(** [SELECT COUNT( * ) FROM taglie_prodotti WHERE ...] *)
Definition conta (T : list riga_stock) (p c t : string) : nat :=
  List.length (filter (cella p c t) T).

(** [SELECT quantita FROM taglie_prodotti WHERE ...] followed by
    [fetchone()]: the first matching row, if any. *)
Definition select_quantita (T : list riga_stock) (p c t : string)
  : option (option Z) :=
  option_map t_quantita (find (cella p c t) T).

Definition con_quantita (q : option Z) (r : riga_stock) : riga_stock :=
  mk_stock (t_codice_prodotto r) (t_colore r) (t_taglia r) q.

Definition con_colore (c : option string) (r : riga_stock) : riga_stock :=
  mk_stock (t_codice_prodotto r) c (t_taglia r) (t_quantita r).

(** [UPDATE taglie_prodotti SET quantita = f(quantita) WHERE ...] *)
Definition update_quantita (p c t : string) (f : option Z -> option Z)
  (T : list riga_stock) : list riga_stock :=
  map (fun r => if cella p c t r then con_quantita (f (t_quantita r)) r else r) T.

Definition stessa_coppia (k r : riga_colore) : bool :=
  (fst r =?= fst k) && (snd r =?= snd k).

(** [INSERT OR IGNORE INTO colori_prodotti(codice_prodotto, colore)] under
    [UNIQUE(codice_prodotto, colore)]. *)
Definition insert_or_ignore (k : riga_colore) (C : list riga_colore)
  : list riga_colore :=
  if existsb (stessa_coppia k) C then C else C ++ [k].

Definition con_updated_at (ora : Z) (r : prodotto) : prodotto :=
  mk_prodotto (p_codice r) (p_colore r) (p_tipo_taglie r) (p_venduti r)
    (p_created_at r) (Some ora).

(** [UPDATE prodotti SET updated_at=datetime('now') WHERE codice=?] *)
Definition tocca (ora : Z) (p : string) (P : list prodotto) : list prodotto :=
  map (fun r => if p_codice r =?= p then con_updated_at ora r else r) P.

(** [ORDER BY ... COLLATE NOCASE], as a stable insertion sort: rows that
    compare equal keep the order they are read in. *)
Fixpoint inserisci (x : string) (l : list string) : list string :=
  match l with
  | [] => [x]
  | y :: l' => if nocase_leb x y then x :: l else y :: inserisci x l'
  end.

Definition order_by_nocase (l : list string) : list string :=
  fold_right inserisci [] l.

(** The order of the index of [UNIQUE(codice_prodotto, colore)] among the
    colours of one product: the BINARY collation. *)
Fixpoint inserisci_binario (x : string) (l : list string) : list string :=
  match l with
  | [] => [x]
  | y :: l' => if binary_leb x y then x :: l else y :: inserisci_binario x l'
  end.

Definition ordine_indice (l : list string) : list string :=
  fold_right inserisci_binario [] l.

(** [SELECT colore FROM colori_prodotti WHERE codice_prodotto=?
     ORDER BY colore COLLATE NOCASE].  The rows are read through the index
     of the UNIQUE constraint and then sorted. *)
Definition select_colori (C : list riga_colore) (p : string) : list string :=
  order_by_nocase (ordine_indice (map snd (filter (fun r => fst r =?= p) C))).

End Sql.
Import Sql.

(* ===================================================================== *)
(** ** The operations of [backend.py] *)
(* ===================================================================== *)

(** [_taglie_for_tipo]: the canonical size labels of a scheme tag. *)
Definition _taglie_for_tipo (tipo_taglie : string) : list string :=
  if upper tipo_taglie =?= "LETTERE"
  then ["XS"; "S"; "M"; "L"; "XL"]
  else ["38"; "40"; "42"; "44"; "46"; "48"; "50"; "52"].

(** [INSERT INTO taglie_prodotti(...) VALUES(?,?,?,0)] *)
Definition nuova_cella (p c t : string) : riga_stock :=
  mk_stock p (Some c) t (Some 0).

(** The [for t in taglie] loop of [ensure_stock_colore]: a size is inserted
    when the count of its rows is 0. *)
Fixpoint crea_mancanti (p c : string) (taglie : list string)
  (T : list riga_stock) : list riga_stock :=
  match taglie with
  | [] => T
  | t :: resto =>
      crea_mancanti p c resto
        (if Nat.eqb (conta T p c t) 0 then T ++ [nuova_cella p c t] else T)
  end.

(** [ensure_stock_colore] (reconcile) *)
Definition ensure_stock_colore (db : database)
  (codice_prodotto colore tipo_taglie : string) (ora : Z) : database :=
  let colore := norm_colore colore in
  let taglie := _taglie_for_tipo tipo_taglie in
  mk_db (tocca ora codice_prodotto (prodotti db))
        (insert_or_ignore (codice_prodotto, colore) (colori_prodotti db))
        (crea_mancanti codice_prodotto colore taglie (taglie_prodotti db)).

(** The [for c in colori] loop of [reset_stock_prodotto]; the [i]-th call of
    [ensure_stock_colore] reads the clock as [ora i]. *)
Fixpoint ricrea (db : database) (p tipo_taglie : string) (ora : nat -> Z)
  (i : nat) (colori : list string) : database :=
  match colori with
  | [] => db
  | c :: resto =>
      ricrea (ensure_stock_colore db p c tipo_taglie (ora i))
        p tipo_taglie ora (S i) resto
  end.

(** [reset_stock_prodotto] (resetForSchemeChange) *)
Definition reset_stock_prodotto (db : database)
  (codice_prodotto tipo_taglie : string) (ora : nat -> Z) : database :=
  let T := filter (fun r => negb (t_codice_prodotto r =?= codice_prodotto))
             (taglie_prodotti db) in
  let colori := select_colori (colori_prodotti db) codice_prodotto in
  ricrea (mk_db (prodotti db) (colori_prodotti db) T)
    codice_prodotto tipo_taglie ora 0 colori.

(** Reading a local variable of a Python function: unbound locals raise. *)
Definition leggi_locale {A} (nome : string) (v : option A) : esito A :=
  match v with
  | Some a => Ritorna a
  | None => Solleva (UnboundLocalError nome)
  end.

(** [lista_colori].  The comprehension reads the local [colori] before any
    assignment to it, and the function returns [rows]. *)
Definition lista_colori (db : database) (codice_prodotto : string)
  : esito (list string) :=
  let rows := select_colori (colori_prodotti db) codice_prodotto in
  let colori : option (list string) := None in
  sorgente <- leggi_locale "colori" colori ;;
  let colori := Some (filter (fun c => negb (c =?= "DEFAULT")) sorgente) in
  Ritorna rows.

(** [aggiungi_colore] *)
Definition aggiungi_colore (db : database) (codice_prodotto colore : string)
  : database :=
  let colore := strip colore in
  if vuota colore then db
  else mk_db (prodotti db)
         (insert_or_ignore (codice_prodotto, colore) (colori_prodotti db))
         (taglie_prodotti db).

(** [rinomina_colore] *)
Definition rinomina_colore (db : database)
  (codice_prodotto vecchio nuovo : string) (ora : Z) : database :=
  let vecchio := strip vecchio in
  let nuovo := strip nuovo in
  if vuota vecchio || vuota nuovo then db
  else
    let exists_new :=
      Nat.ltb 0 (List.length (filter (stessa_coppia (codice_prodotto, nuovo))
                                (colori_prodotti db))) in
    let C :=
      if negb exists_new
      then map (fun r => if stessa_coppia (codice_prodotto, vecchio) r
                         then (fst r, nuovo) else r) (colori_prodotti db)
      else filter (fun r => negb (stessa_coppia (codice_prodotto, vecchio) r))
             (colori_prodotti db) in
    let T :=
      map (fun r => if del_colore codice_prodotto vecchio r
                    then con_colore (Some nuovo) r else r)
        (taglie_prodotti db) in
    mk_db (tocca ora codice_prodotto (prodotti db)) C T.

(** [elimina_colore] *)
Definition elimina_colore (db : database) (codice_prodotto colore : string)
  (ora : Z) : database :=
  let colore := strip colore in
  if vuota colore then db
  else
    mk_db (tocca ora codice_prodotto (prodotti db))
      (filter (fun r => negb (stessa_coppia (codice_prodotto, colore) r))
         (colori_prodotti db))
      (filter (fun r => negb (del_colore codice_prodotto colore r))
         (taglie_prodotti db)).

(** [aggiorna_taglia_colore] (single-cell update).  When
    [int(nuova_quantita)] cannot be bound the call raises [OverflowError]
    at the first statement and leaves the store as it was. *)
Definition aggiorna_taglia_colore (db : database)
  (codice_prodotto colore taglia : string) (nuova_quantita : Z) (ora : Z)
  : database :=
  let colore := norm_colore colore in
  if negb (in_int64 nuova_quantita) then db
  else
    mk_db (tocca ora codice_prodotto (prodotti db))
      (colori_prodotti db)
      (update_quantita codice_prodotto colore taglia
         (fun _ => Some nuova_quantita) (taglie_prodotti db)).

(** [carica_stock_colore] (load).  The UPDATE is the first statement [qty]
    is bound to.  The second [fetchone()] is subscripted unguarded: on no
    row it would raise [TypeError]. *)
Definition carica_stock_colore (db : database)
  (codice_prodotto colore taglia : string) (qty : Z) (ora : Z)
  : esito Z * database :=
  if qty <? 1 then (Solleva (ValueError QuantitaCaricoMinima), db)
  else
    let colore := norm_colore colore in
    match select_quantita (taglie_prodotti db) codice_prodotto colore taglia with
    | None => (Solleva (ValueError TagliaNonTrovata), db)
    | Some _ =>
        if negb (in_int64 qty) then (Solleva OverflowError, db)
        else
          let T := update_quantita codice_prodotto colore taglia
                     (fun q => Some (sql_add (coalesce q 0) qty))
                     (taglie_prodotti db) in
          let P := tocca ora codice_prodotto (prodotti db) in
          match select_quantita T codice_prodotto colore taglia with
          | Some q => (Ritorna (coalesce q 0), mk_db P (colori_prodotti db) T)
          | None => (Solleva TypeError, db)
          end
    end.

(** [UPDATE prodotti SET venduti = COALESCE(venduti, 0) + ?,
     updated_at = datetime('now') WHERE codice = ?] *)
Definition registra_vendita (ora qty : Z) (p : string) (P : list prodotto)
  : list prodotto :=
  map (fun r =>
         if p_codice r =?= p
         then mk_prodotto (p_codice r) (p_colore r) (p_tipo_taglie r)
                (Some (sql_add (coalesce (p_venduti r) 0) qty))
                (p_created_at r) (Some ora)
         else r) P.

(** [scarica_vendita_colore] (sell).  [nuova_q] is bound to the first
    UPDATE and [qty] to the second. *)
Definition scarica_vendita_colore (db : database)
  (codice_prodotto colore taglia : string) (qty : Z) (ora : Z)
  : esito Z * database :=
  if qty <? 1 then (Solleva (ValueError QuantitaScaricoMinima), db)
  else
    let colore := norm_colore colore in
    match select_quantita (taglie_prodotti db) codice_prodotto colore taglia with
    | None => (Solleva (ValueError TagliaNonTrovata), db)
    | Some row =>
        let attuale := coalesce row 0 in
        if attuale <? qty
        then (Solleva (ValueError (StockInsufficiente attuale qty)), db)
        else
          let nuova_q := attuale - qty in
          if negb (in_int64 nuova_q) || negb (in_int64 qty)
          then (Solleva OverflowError, db)
          else
            let T := update_quantita codice_prodotto colore taglia
                       (fun _ => Some nuova_q) (taglie_prodotti db) in
            let P := registra_vendita ora qty codice_prodotto (prodotti db) in
            (Ritorna nuova_q, mk_db P (colori_prodotti db) T)
    end.

(** The loop of [set_stock_colore] over the items of the dictionary, in
    insertion order.  A value is [Some q] when [int(qta)] is [q] and [None]
    when [int(qta)] raises.  The result is [None] when a quantity cannot be
    bound: the UPDATE raises [OverflowError] and the loop is left. *)
Fixpoint set_stock_righe (p c : string) (mappa : list (string * option Z))
  (T : list riga_stock) : option (list riga_stock) :=
  match mappa with
  | [] => Some T
  | (taglia, qta) :: resto =>
      let taglia := strip taglia in
      if vuota taglia then set_stock_righe p c resto T
      else
        let q := match qta with Some v => v | None => 0 end in
        let q := if q <? 0 then 0 else q in
        if negb (in_int64 q) then None
        else
          let T1 := update_quantita p c taglia (fun _ => Some q) T in
          set_stock_righe p c resto
            (if Nat.eqb (conta T p c taglia) 0
             then T1 ++ [mk_stock p (Some c) taglia (Some q)]
             else T1)
  end.

(** [set_stock_colore] (bulk set-stock).  The one [commit] follows the loop:
    when the loop is left by an exception the store is as it was. *)
Definition set_stock_colore (db : database) (codice_prodotto colore : string)
  (mappa_taglie_quantita : list (string * option Z)) : database :=
  let colore := norm_colore colore in
  match set_stock_righe codice_prodotto colore mappa_taglie_quantita
          (taglie_prodotti db) with
  | Some T => mk_db (prodotti db) (colori_prodotti db) T
  | None => db
  end.

(** The argument [costo] of [crea_prodotto], as far as the ledger depends
    on it: [None] or [""], a value [float] converts, or a value on which
    [float] raises. *)
Inductive costo_dato :=
| SenzaCosto
| CostoNumerico
| CostoNonNumerico (e : eccezione).

(** [float(costo) if costo not in (None, "") else 0.0] *)
Definition float_costo (costo : costo_dato) : esito unit :=
  match costo with
  | SenzaCosto => Ritorna tt
  | CostoNumerico => Ritorna tt
  | CostoNonNumerico e => Solleva e
  end.

(** [crea_prodotto], reduced to the columns of [prodotto].  The clock is
    read as [ora 0] by the function itself and as [ora 1], [ora 2], ... by
    the calls of [ensure_stock_colore]. *)
Definition crea_prodotto (db : database)
  (codice colore_legacy : string) (costo : costo_dato) (tipo_taglie : string)
  (ora : nat -> Z) : esito unit * database :=
  let codice := strip codice in
  if vuota codice then (Solleva (ValueError CodiceMancante), db)
  else
  match float_costo costo with
  | Solleva e => (Solleva e, db)
  | Ritorna _ =>
    let col_default := norm_colore colore_legacy in
    match find (fun r => p_codice r =?= codice) (prodotti db) with
    | None =>
        let P := prodotti db ++
                 [mk_prodotto codice (Some (strip colore_legacy))
                    (Some tipo_taglie) (Some 0) (Some (ora 0%nat)) (Some (ora 0%nat))] in
        let C := insert_or_ignore (codice, col_default) (colori_prodotti db) in
        (Ritorna tt,
         ensure_stock_colore (mk_db P C (taglie_prodotti db))
           codice col_default tipo_taglie (ora 1%nat))
    | Some row =>
        let tipo_precedente := p_tipo_taglie row in
        let P := map (fun r =>
                        if p_codice r =?= codice
                        then mk_prodotto (p_codice r) (Some (strip colore_legacy))
                               (Some tipo_taglie) (p_venduti r) (p_created_at r)
                               (Some (ora 0%nat))
                        else r) (prodotti db) in
        let ncol := List.length (filter (fun r => fst r =?= codice)
                                   (colori_prodotti db)) in
        let C := if Nat.eqb ncol 0
                 then insert_or_ignore (codice, col_default) (colori_prodotti db)
                 else colori_prodotti db in
        let db1 := mk_db P C (taglie_prodotti db) in
        if negb (codici_eqb (py_upper (coalesce tipo_precedente ""))
                   (py_upper tipo_taglie))
        then
          match lista_colori db1 codice with
          | Solleva e => (Solleva e, db1)
          | Ritorna colori =>
              let colori := match colori with [] => [col_default] | _ => colori end in
              let T := filter (fun r => negb (t_codice_prodotto r =?= codice))
                         (taglie_prodotti db) in
              (Ritorna tt, ricrea (mk_db P C T) codice tipo_taglie ora 1 colori)
          end
        else (Ritorna tt, db1)
    end
  end.

(** [aggiorna_venduti].  When [int(venduti)] cannot be bound the call
    raises [OverflowError] and leaves the store as it was. *)
Definition aggiorna_venduti (db : database) (codice_prodotto : string)
  (venduti : Z) (ora : Z) : database :=
  if negb (in_int64 venduti) then db
  else
  mk_db (map (fun r =>
                if p_codice r =?= codice_prodotto
                then mk_prodotto (p_codice r) (p_colore r) (p_tipo_taglie r)
                       (Some venduti) (p_created_at r) (Some ora)
                else r) (prodotti db))
    (colori_prodotti db) (taglie_prodotti db).

(** [elimina_prodotto] (the image rows are outside the model) *)
Definition elimina_prodotto (db : database) (codice_prodotto : string)
  : database :=
  mk_db (filter (fun r => negb (p_codice r =?= codice_prodotto)) (prodotti db))
    (filter (fun r => negb (fst r =?= codice_prodotto)) (colori_prodotti db))
    (filter (fun r => negb (t_codice_prodotto r =?= codice_prodotto))
       (taglie_prodotti db)).

(** [colore IS NULL OR TRIM(colore) = ''] *)
Definition colore_assente (o : option string) : bool :=
  match o with
  | None => true
  | Some c => vuota (sql_trim c)
  end.

(** [UPDATE taglie_prodotti SET colore = ?
     WHERE codice_prodotto = ? AND (colore IS NULL OR TRIM(colore) = '')] *)
Definition assegna_colore (cod col : string) (T : list riga_stock)
  : list riga_stock :=
  map (fun r =>
         if (t_codice_prodotto r =?= cod) && colore_assente (t_colore r)
         then con_colore (Some col) r else r) T.

(** The two statements the migration loop executes for a product.  Either
    may raise (a locked or failing store); [guasti] tells which do. *)
Inductive istruzione := RegistraColore | AssegnaColore.

Definition guasti : Type := string -> istruzione -> bool.

Definition senza_guasti : guasti := fun _ _ => false.

(** The [for cod, legacy_col in cur.fetchall()] loop of [init_database],
    inside [try: ... except: pass]: a statement that raises leaves the loop,
    and what was executed before stays in the transaction, which is then
    committed. *)
Fixpoint migra_prodotti (g : guasti) (righe : list (string * string))
  (C : list riga_colore) (T : list riga_stock)
  : list riga_colore * list riga_stock :=
  match righe with
  | [] => (C, T)
  | (cod, legacy_col) :: resto =>
      let col := norm_colore legacy_col in
      if g cod RegistraColore then (C, T)
      else
        let C1 := insert_or_ignore (cod, col) C in
        if g cod AssegnaColore then (C1, T)
        else migra_prodotti g resto C1 (assegna_colore cod col T)
  end.

(** [UPDATE prodotti SET created_at = COALESCE(created_at, datetime('now')),
     updated_at = COALESCE(updated_at, datetime('now'))] *)
Definition inizializza_timestamp (ora : Z) (P : list prodotto) : list prodotto :=
  map (fun r =>
         mk_prodotto (p_codice r) (p_colore r) (p_tipo_taglie r) (p_venduti r)
           (Some (coalesce (p_created_at r) ora))
           (Some (coalesce (p_updated_at r) ora))) P.

(** [SELECT codice, COALESCE(colore,'') FROM prodotti] *)
Definition select_legacy (P : list prodotto) : list (string * string) :=
  map (fun r => (p_codice r, coalesce (p_colore r) "")) P.

(** [init_database], on a store that already has the tables and columns:
    the timestamp initialisation and the legacy data migration. *)
Definition init_database (g : guasti) (db : database) (ora : Z) : database :=
  let P := inizializza_timestamp ora (prodotti db) in
  let '(C, T) := migra_prodotti g (select_legacy P)
                   (colori_prodotti db) (taglie_prodotti db) in
  mk_db P C T.

(** A label in normal form: trimmed and not blank. *)
Definition etichetta_normale (c : string) : Prop := norm_colore c = c.

(* ===================================================================== *)
(** ** Observations and invariants of the store *)
(* ===================================================================== *)

(** The size labels of the cells of a (product, colour), in table order. *)
Definition taglie_di (T : list riga_stock) (p c : string) : list string :=
  map t_taglia (filter (del_colore p c) T).

(** No stock cell has the key (product, colour, size). *)
Definition nessuna_cella (T : list riga_stock) (p c t : string) : Prop :=
  forall r, In r T -> cella p c t r = false.

(** The cumulative-sold counter of a product, if the product exists. *)
Definition venduti_di (P : list prodotto) (p : string) : option Z :=
  option_map (fun r => coalesce (p_venduti r) 0)
    (find (fun r => p_codice r =?= p) P).

(** The modification timestamp of a product, if the product exists. *)
Definition updated_at_di (P : list prodotto) (p : string) : option (option Z) :=
  option_map p_updated_at (find (fun r => p_codice r =?= p) P).

(** A stock row carries a colour label in normal form. *)
Definition riga_normale (r : riga_stock) : Prop :=
  exists c, t_colore r = Some c /\ etichetta_normale c.

(** Every stock row carries a colour label in normal form. *)
Definition etichette_stock_normali (db : database) : Prop :=
  Forall riga_normale (taglie_prodotti db).

(** Every registered colour label is in normal form. *)
Definition colori_normali (db : database) : Prop :=
  Forall (fun k => etichetta_normale (snd k)) (colori_prodotti db).

(** A stock row holds a non-negative integer. *)
Definition quantita_ok (r : riga_stock) : Prop :=
  exists q, t_quantita r = Some q /\ 0 <= q.

Definition quantita_non_negative (db : database) : Prop :=
  Forall quantita_ok (taglie_prodotti db).

(** The label invariant of the store: stock rows and registrations carry
    normal colour labels. *)
Definition etichette_ok (db : database) : Prop :=
  etichette_stock_normali db /\ colori_normali db.

(** What the migration is expected to do to one stock row, given the rows
    [(codice, legacy colour)] of the products: a row without a colour takes
    the colour derived from the legacy field of its product; every other row
    is left as it is. *)
Definition colore_migrato (righe : list (string * string)) (r : riga_stock)
  : riga_stock :=
  if colore_assente (t_colore r)
  then match find (fun x => fst x =?= t_codice_prodotto r) righe with
       | Some x => con_colore (Some (norm_colore (snd x))) r
       | None => r
       end
  else r.

(** One call of a writer of [backend.py]. *)
Inductive passo : database -> database -> Prop :=
| passo_init db g ora :
    passo db (init_database g db ora)
| passo_aggiungi_colore db p c :
    passo db (aggiungi_colore db p c)
| passo_rinomina_colore db p v n ora :
    passo db (rinomina_colore db p v n ora)
| passo_elimina_colore db p c ora :
    passo db (elimina_colore db p c ora)
| passo_ensure db p c tipo ora :
    passo db (ensure_stock_colore db p c tipo ora)
| passo_reset db p tipo ora :
    passo db (reset_stock_prodotto db p tipo ora)
| passo_aggiorna_taglia db p c t q ora :
    passo db (aggiorna_taglia_colore db p c t q ora)
| passo_carica db p c t qty ora :
    passo db (snd (carica_stock_colore db p c t qty ora))
| passo_scarica db p c t qty ora :
    passo db (snd (scarica_vendita_colore db p c t qty ora))
| passo_set_stock db p c mappa :
    passo db (set_stock_colore db p c mappa)
| passo_crea_prodotto db cod col costo tipo ora :
    passo db (snd (crea_prodotto db cod col costo tipo ora))
| passo_aggiorna_venduti db p v ora :
    passo db (aggiorna_venduti db p v ora)
| passo_elimina_prodotto db p :
    passo db (elimina_prodotto db p).

(** A run of the program: any number of calls of the writers. *)
Inductive esecuzione : database -> database -> Prop :=
| esecuzione_ferma db : esecuzione db db
| esecuzione_passo db db' db'' :
    esecuzione db db' -> passo db' db'' -> esecuzione db db''.

(* ===================================================================== *)
(** ** Sample stores *)
(* ===================================================================== *)

Module Esempi.

(** Product [P1] with the numeric scheme and nothing else. *)
Definition db_p1 : database :=
  mk_db [mk_prodotto "P1" (Some "") (Some "NUMERI") (Some 0) (Some 0) (Some 0)]
        [] [].

(** [P1] with the colour [Blu] reconciled. *)
Definition db_blu : database := ensure_stock_colore db_p1 "P1" "Blu" "NUMERI" 1.

(** [P1] with 5 pieces of [Blu] size 42. *)
Definition db_blu5 : database :=
  snd (carica_stock_colore db_blu "P1" "Blu" "42" 5 2).

(** [P1] with the placeholder colour reconciled, as [crea_prodotto] leaves a
    product created without a colour. *)
Definition db_default : database := ensure_stock_colore db_p1 "P1" "" "NUMERI" 1.

(** [P1] with the placeholder colour and the colour [Blu]. *)
Definition db_default_blu : database :=
  ensure_stock_colore db_default "P1" "Blu" "NUMERI" 2.

(** [P1] with the colours [Blu] and [Rosso], both reconciled. *)
Definition db_due_colori : database :=
  ensure_stock_colore db_blu5 "P1" "Rosso" "NUMERI" 3.

(** A legacy store: two products with their single colour, stock rows
    without a colour. *)
Definition db_legacy : database :=
  mk_db [mk_prodotto "A" (Some "Rosso") (Some "NUMERI") (Some 0) None None;
         mk_prodotto "B" (Some " ") (Some "LETTERE") None None None]
        []
        [mk_stock "A" None "38" (Some 4);
         mk_stock "A" (Some "") "40" (Some 1);
         mk_stock "B" None "M" (Some 2)].

(** The legacy store after a migration without failures. *)
Definition db_migrato : database := init_database senza_guasti db_legacy 1.

(** [Blu] renamed to the registered [Rosso]: the key ([P1], [Rosso], 42) has
    two cells, holding 5 and 0. *)
Definition db_fuso : database := rinomina_colore db_due_colori "P1" "Blu" "Rosso" 9.

(** The cell ([P1], [Blu], 42) at -5, through the single-cell update. *)
Definition db_negativo : database :=
  aggiorna_taglia_colore db_blu "P1" "Blu" "42" (-5) 9.

(** [P1] with 5 pieces of [Blu] size 42 and the sold counter at the largest
    64-bit integer. *)
Definition db_venduti_al_massimo : database :=
  aggiorna_venduti db_blu5 "P1" max_int64 8.

(** The migration statements fail for product [A] only. *)
Definition guasto_su_A : guasti :=
  fun cod _ => cod =?= "A".

End Esempi.

From Stdlib Require Import Permutation Sorted.

(* ===================================================================== *)
(** ** Readers of the ledger *)
(* ===================================================================== *)

(** SQL [SUM(x)] on INTEGERs: NULLs are skipped, and the sum of no value is
    NULL.  The sum is the exact one: it is the value of the statement as
    long as the running sum, row after row, stays a 64-bit integer (past
    that the statement raises "integer overflow"). *)
Fixpoint sql_sum (l : list (option Z)) : option Z :=
  match l with
  | [] => None
  | x :: l' =>
      match x, sql_sum l' with
      | Some v, Some s => Some (v + s)
      | Some v, None => Some v
      | None, s => s
      end
  end.

(** [get_rimanenza_colore] *)
Definition get_rimanenza_colore (db : database)
  (codice_prodotto colore : string) : Z :=
  let colore := norm_colore colore in
  coalesce (sql_sum (map t_quantita
                       (filter (del_colore codice_prodotto colore)
                          (taglie_prodotti db)))) 0.

(** [get_rimanenza_totale] *)
Definition get_rimanenza_totale (db : database) (codice_prodotto : string) : Z :=
  coalesce (sql_sum (map t_quantita
                       (filter (fun r => t_codice_prodotto r =?= codice_prodotto)
                          (taglie_prodotti db)))) 0.

(** [ORDER BY] an expression, as a stable insertion sort on the comparison
    [leb] of the sort keys: rows with equal keys keep their table order. *)
Fixpoint inserisci_per {A} (leb : A -> A -> bool) (x : A) (l : list A) : list A :=
  match l with
  | [] => [x]
  | y :: l' => if leb x y then x :: l else y :: inserisci_per leb x l'
  end.

Definition order_by {A} (leb : A -> A -> bool) (l : list A) : list A :=
  fold_right (inserisci_per leb) [] l.

(** [CASE taglia WHEN 'XS' THEN 1 ... ELSE 999 END] *)
Definition rango_lettera (taglia : string) : Z :=
  if taglia =?= "XS" then 1
  else if taglia =?= "S" then 2
  else if taglia =?= "M" then 3
  else if taglia =?= "L" then 4
  else if taglia =?= "XL" then 5
  else if taglia =?= "XXL" then 6
  else 999.

(** The characters SQLite skips before a number. *)
Definition sqlite_isspace (a : ascii) : bool :=
  let n := N_of_ascii a in
  ((9 <=? n) && (n <=? 13) || (n =? 32))%N.

Definition cifra (a : ascii) : option Z :=
  let n := N_of_ascii a in
  if ((48 <=? n) && (n <=? 57))%N then Some (Z.of_N (n - 48)) else None.

Fixpoint leggi_cifre (acc : Z) (s : string) : Z :=
  match s with
  | EmptyString => acc
  | String a s' =>
      match cifra a with
      | Some d => leggi_cifre (10 * acc + d) s'
      | None => acc
      end
  end.

(** An integer brought into the 64-bit range: the nearest bound when it is
    outside. *)
Definition satura (z : Z) : Z := Z.max min_int64 (Z.min max_int64 z).

(** [CAST(s AS INTEGER)] on TEXT: leading blanks are skipped, then the
    longest prefix that reads as an integer is taken, 0 when there is none;
    a number outside the 64-bit range gives the nearest bound. *)
Definition sql_cast_integer (s : string) : Z :=
  satura
    match lstrip sqlite_isspace s with
    | String "-" s' => - leggi_cifre 0 s'
    | String "+" s' => leggi_cifre 0 s'
    | s' => leggi_cifre 0 s'
    end.

Definition leb_lettere (r1 r2 : riga_stock) : bool :=
  (rango_lettera (t_taglia r1) <=? rango_lettera (t_taglia r2))%Z.

Definition leb_numeri (r1 r2 : riga_stock) : bool :=
  (sql_cast_integer (t_taglia r1) <=? sql_cast_integer (t_taglia r2))%Z.

(** [(row[0] or "NUMERI").upper() if row else "NUMERI"] *)
Definition tipo_taglie_di (db : database) (codice_prodotto : string) : string :=
  match find (fun r => p_codice r =?= codice_prodotto) (prodotti db) with
  | Some row =>
      upper (match p_tipo_taglie row with
             | Some s => if vuota s then "NUMERI" else s
             | None => "NUMERI"
             end)
  | None => "NUMERI"
  end.

(** [get_taglie_colore]: the rows [(taglia, quantita)] of a colour, in the
    order of the product's scheme. *)
Definition get_taglie_colore (db : database) (codice_prodotto colore : string)
  : list (string * option Z) :=
  let tipo_taglie := tipo_taglie_di db codice_prodotto in
  let righe := filter (del_colore codice_prodotto colore) (taglie_prodotti db) in
  let rows :=
    if tipo_taglie =?= "LETTERE"
    then order_by leb_lettere righe
    else order_by leb_numeri righe in
  map (fun r => (t_taglia r, t_quantita r)) rows.

(* ===================================================================== *)
(** ** Further invariants of the store *)
(* ===================================================================== *)

(** At most one stock cell per key (product, colour, size). *)
Definition chiavi_uniche (db : database) : Prop :=
  forall p c t, (conta (taglie_prodotti db) p c t <= 1)%nat.

(** The writers other than the colour rename and the legacy migration. *)
Inductive passo_senza_fusione : database -> database -> Prop :=
| psf_aggiungi_colore db p c :
    passo_senza_fusione db (aggiungi_colore db p c)
| psf_elimina_colore db p c ora :
    passo_senza_fusione db (elimina_colore db p c ora)
| psf_ensure db p c tipo ora :
    passo_senza_fusione db (ensure_stock_colore db p c tipo ora)
| psf_reset db p tipo ora :
    passo_senza_fusione db (reset_stock_prodotto db p tipo ora)
| psf_aggiorna_taglia db p c t q ora :
    passo_senza_fusione db (aggiorna_taglia_colore db p c t q ora)
| psf_carica db p c t qty ora :
    passo_senza_fusione db (snd (carica_stock_colore db p c t qty ora))
| psf_scarica db p c t qty ora :
    passo_senza_fusione db (snd (scarica_vendita_colore db p c t qty ora))
| psf_set_stock db p c mappa :
    passo_senza_fusione db (set_stock_colore db p c mappa)
| psf_crea_prodotto db cod col costo tipo ora :
    passo_senza_fusione db (snd (crea_prodotto db cod col costo tipo ora))
| psf_aggiorna_venduti db p v ora :
    passo_senza_fusione db (aggiorna_venduti db p v ora)
| psf_elimina_prodotto db p :
    passo_senza_fusione db (elimina_prodotto db p).

(** The calls of the writers in which [aggiorna_taglia_colore] is not given
    a negative quantity. *)
Inductive passo_senza_negativi : database -> database -> Prop :=
| psn_init db g ora :
    passo_senza_negativi db (init_database g db ora)
| psn_aggiungi_colore db p c :
    passo_senza_negativi db (aggiungi_colore db p c)
| psn_rinomina_colore db p v n ora :
    passo_senza_negativi db (rinomina_colore db p v n ora)
| psn_elimina_colore db p c ora :
    passo_senza_negativi db (elimina_colore db p c ora)
| psn_ensure db p c tipo ora :
    passo_senza_negativi db (ensure_stock_colore db p c tipo ora)
| psn_reset db p tipo ora :
    passo_senza_negativi db (reset_stock_prodotto db p tipo ora)
| psn_aggiorna_taglia db p c t q ora :
    0 <= q ->
    passo_senza_negativi db (aggiorna_taglia_colore db p c t q ora)
| psn_carica db p c t qty ora :
    passo_senza_negativi db (snd (carica_stock_colore db p c t qty ora))
| psn_scarica db p c t qty ora :
    passo_senza_negativi db (snd (scarica_vendita_colore db p c t qty ora))
| psn_set_stock db p c mappa :
    passo_senza_negativi db (set_stock_colore db p c mappa)
| psn_crea_prodotto db cod col costo tipo ora :
    passo_senza_negativi db (snd (crea_prodotto db cod col costo tipo ora))
| psn_aggiorna_venduti db p v ora :
    passo_senza_negativi db (aggiorna_venduti db p v ora)
| psn_elimina_prodotto db p :
    passo_senza_negativi db (elimina_prodotto db p).

(** The sum of the quantities of some stock rows, NULL counting as 0. *)
Definition totale_righe (l : list riga_stock) : Z :=
  fold_right (fun r acc => coalesce (t_quantita r) 0 + acc) 0 l.

(** More sample stores. *)
Module Esempi2.

(** [P1] with [Blu] reconciled under the letter scheme, the cells inserted
    in an order that is not the scheme's. *)
Definition db_lettere_sparse : database :=
  mk_db [mk_prodotto "P1" (Some "") (Some "lettere") (Some 0) (Some 0) (Some 0)]
        [("P1", "Blu")]
        [mk_stock "P1" (Some "Blu") "XL" (Some 1);
         mk_stock "P1" (Some "Blu") "M" (Some 2);
         mk_stock "P1" (Some "Blu") "XS" (Some 3);
         mk_stock "P1" (Some "Blu") "L" (Some 4);
         mk_stock "P1" (Some "Blu") "S" (Some 5)].

(** The scheme tag [numeri] followed by a small e with grave accent, and the
    same tag in capitals. *)
Definition numeri_e_grave : string :=
  String.append "numeri" (String (ascii_of_N 232) EmptyString).

Definition NUMERI_E_GRAVE : string :=
  String.append "NUMERI" (String (ascii_of_N 200) EmptyString).

(** [P1] stored with the scheme tag [numeri_e_grave]. *)
Definition db_accento : database :=
  mk_db [mk_prodotto "P1" (Some "") (Some numeri_e_grave) (Some 0) (Some 0) (Some 0)]
        [("P1", "DEFAULT")] [].

End Esempi2.

(** The comparison of two rows by an integer sort key, and the order it
    sorts into. *)
Definition leb_chiave {A} (chiave : A -> Z) (x y : A) : bool :=
  (chiave x <=? chiave y)%Z.

Definition non_decrescente {A} (chiave : A -> Z) (x y : A) : Prop :=
  chiave x <= chiave y.

(** The sort key [get_taglie_colore] orders the sizes of a product by. *)
Definition chiave_taglia (db : database) (codice_prodotto : string)
  (taglia : string) : Z :=
  if tipo_taglie_di db codice_prodotto =?= "LETTERE"
  then rango_lettera taglia
  else sql_cast_integer taglia.

(** What [set_stock_colore] stores for a dictionary value: [int(qta)], 0
    when that raises, and never less than 0. *)
Definition quantita_impostata (qta : option Z) : Z :=
  let q := match qta with Some v => v | None => 0 end in
  if (q <? 0)%Z then 0 else q.

(* ===================================================================== *)
(** ** Images of a product *)
(* ===================================================================== *)

(** A row of [immagini_prodotti]. *)
Record immagine := mk_immagine {
  i_id : Z;
  i_codice_prodotto : string;
  i_percorso_file : string;
  i_ordine : option Z;
  i_principale : option Z
}.

(** The table with its AUTOINCREMENT counter: a new row takes an id above
    every id the table holds or has ever held. *)
Record tabella_immagini := mk_tabella_immagini {
  righe_immagini : list immagine;
  sequenza_immagini : Z
}.

Definition prossimo_id (sequenza : Z) (ids : list Z) : Z :=
  Z.max sequenza (fold_right Z.max 0 ids) + 1.

(** The functions of [os.path] the image code calls: [splitext], and [join]
    applied to the image directory. *)
Record os_path := mk_os_path {
  splitext : string -> string * string;
  join_immagini : string -> string
}.

(** [s.lower()], observed only through equality with ASCII literals. *)
Fixpoint lower (s : string) : string :=
  match s with
  | EmptyString => EmptyString
  | String a s' => String (lower_ascii a) (lower s')
  end.

(** SQL [MAX(x)]: NULLs are skipped, NULL when there is no value. *)
Fixpoint sql_max (l : list (option Z)) : option Z :=
  match l with
  | [] => None
  | x :: l' =>
      match x, sql_max l' with
      | Some v, Some m => Some (Z.max v m)
      | Some v, None => Some v
      | None, m => m
      end
  end.

Definition dell_articolo (p : string) (r : immagine) : bool :=
  i_codice_prodotto r =?= p.

(** What [aggiungi_immagine] can raise: [ValueError] for the format, and
    whatever [shutil.copy2] raises. *)
Inductive errore_immagine := FormatoNonSupportato | CopiaFallita.

(** [aggiungi_immagine].  [uuid_hex] is the value of [uuid.uuid4().hex] and
    [copia] tells whether [shutil.copy2] succeeds. *)
Definition aggiungi_immagine (os : os_path) (I : tabella_immagini)
  (codice_prodotto percorso_originale uuid_hex : string) (copia : bool)
  : (errore_immagine + string) * tabella_immagini :=
  let est := lower (snd (splitext os percorso_originale)) in
  if negb (existsb (String.eqb est) [".jpg"; ".jpeg"; ".png"; ".webp"])
  then (inl FormatoNonSupportato, I)
  else
    let nome_file :=
      String.append codice_prodotto
        (String.append "_" (String.append uuid_hex est)) in
    let destinazione := join_immagini os nome_file in
    if negb copia then (inl CopiaFallita, I)
    else
      let sue := filter (dell_articolo codice_prodotto) (righe_immagini I) in
      let ordine := coalesce (sql_max (map i_ordine sue)) 0 + 1 in
      let cnt := List.length sue in
      let principale := if Nat.eqb cnt 0 then 1 else 0 in
      let id := prossimo_id (sequenza_immagini I)
                  (map i_id (righe_immagini I)) in
      (inr destinazione,
       mk_tabella_immagini
         (righe_immagini I ++
          [mk_immagine id codice_prodotto destinazione
             (Some ordine) (Some principale)])
         id).

(** [ORDER BY ordine ASC]: NULL sorts before every value. *)
Definition leb_ordine (a b : immagine) : bool :=
  match i_ordine a, i_ordine b with
  | None, _ => true
  | Some _, None => false
  | Some x, Some y => (x <=? y)%Z
  end.

(** [lista_immagini] *)
Definition lista_immagini (I : tabella_immagini) (codice_prodotto : string)
  : list (Z * string * option Z * option Z) :=
  map (fun r => (i_id r, i_percorso_file r, i_ordine r, i_principale r))
    (order_by leb_ordine
       (filter (dell_articolo codice_prodotto) (righe_immagini I))).

(** [principale = 1] on a nullable column. *)
Definition e_principale (r : immagine) : bool :=
  match i_principale r with Some v => (v =? 1)%Z | None => false end.

(** [get_immagine_principale] *)
Definition get_immagine_principale (I : tabella_immagini)
  (codice_prodotto : string) : option (Z * string) :=
  option_map (fun r => (i_id r, i_percorso_file r))
    (find (fun r => dell_articolo codice_prodotto r && e_principale r)
       (righe_immagini I)).

Definition con_principale (v : Z) (r : immagine) : immagine :=
  mk_immagine (i_id r) (i_codice_prodotto r) (i_percorso_file r)
    (i_ordine r) (Some v).

(** [elimina_immagine] (the removal of the file is outside the store). *)
Definition elimina_immagine (I : tabella_immagini) (id_immagine : Z)
  : option (string * string) * tabella_immagini :=
  match find (fun r => (i_id r =? id_immagine)%Z) (righe_immagini I) with
  | None => (None, I)
  | Some row =>
      let codice_prodotto := i_codice_prodotto row in
      let path := i_percorso_file row in
      let righe := filter (fun r => negb (i_id r =? id_immagine)%Z)
                     (righe_immagini I) in
      let righe :=
        match order_by leb_ordine (filter (dell_articolo codice_prodotto) righe) with
        | r :: _ =>
            map (fun y => if (i_id y =? i_id r)%Z then con_principale 1 y else y)
              righe
        | [] => righe
        end in
      (Some (codice_prodotto, path),
       mk_tabella_immagini righe (sequenza_immagini I))
  end.

(** The images of one product in table order: positions strictly growing,
    the first one principal and no other. *)
Definition prima_di (a b : immagine) : Prop :=
  match i_ordine a, i_ordine b with
  | Some x, Some y => x < y
  | _, _ => False
  end.

Definition principale_in_testa (l : list immagine) : Prop :=
  match l with
  | [] => True
  | x :: resto =>
      i_principale x = Some 1
      /\ Forall (fun y => i_principale y = Some 0) resto
  end.

Definition galleria_ok (l : list immagine) : Prop :=
  StronglySorted prima_di l
  /\ Forall (fun r => i_ordine r <> None) l
  /\ principale_in_testa l.

Definition immagini_ok (I : tabella_immagini) : Prop :=
  NoDup (map i_id (righe_immagini I))
  /\ forall p, galleria_ok (filter (dell_articolo p) (righe_immagini I)).

(** The image tables the two writers produce from an empty table. *)
Inductive storia_immagini (os : os_path) : tabella_immagini -> Prop :=
| storia_vuota seq : storia_immagini os (mk_tabella_immagini [] seq)
| storia_aggiungi I p percorso uuid copia :
    storia_immagini os I ->
    storia_immagini os (snd (aggiungi_immagine os I p percorso uuid copia))
| storia_elimina I id :
    storia_immagini os I ->
    storia_immagini os (snd (elimina_immagine I id)).

(* ===================================================================== *)
(** ** Users *)
(* ===================================================================== *)

(** A row of [utenti]. *)
Record utente := mk_utente {
  u_id : Z;
  u_username : string;
  u_password_hash : string;
  u_created_at : option Z
}.

Record tabella_utenti := mk_tabella_utenti {
  righe_utenti : list utente;
  sequenza_utenti : Z
}.

(** [get_utente] *)
Definition get_utente (U : tabella_utenti) (username : string)
  : option (Z * string * string) :=
  option_map (fun r => (u_id r, u_username r, u_password_hash r))
    (find (fun r => u_username r =?= username) (righe_utenti U)).

(** [crea_utente]: [INSERT OR IGNORE] under [username TEXT UNIQUE].  The id
    is drawn before the constraint is checked: an ignored insert adds no
    row and still moves the AUTOINCREMENT counter. *)
Definition crea_utente (U : tabella_utenti) (username password_hash : string)
  (ora : Z) : tabella_utenti :=
  let id := prossimo_id (sequenza_utenti U) (map u_id (righe_utenti U)) in
  if existsb (fun r => u_username r =?= username) (righe_utenti U)
  then mk_tabella_utenti (righe_utenti U) id
  else
    mk_tabella_utenti
      (righe_utenti U ++ [mk_utente id username password_hash (Some ora)])
      id.

(** Sample image tables. *)
Module Esempi3.

(** An [os.path] for the samples: every file has the extension [.JPG]. *)
Definition os_finto : os_path :=
  mk_os_path (fun s => (s, ".JPG"))
    (fun nome => String.append "DATI/immagini_prodotti/" nome).

Definition una_immagine : tabella_immagini :=
  snd (aggiungi_immagine os_finto (mk_tabella_immagini [] 0)
         "P1" "a.JPG" "u1" true).

Definition due_immagini : tabella_immagini :=
  snd (aggiungi_immagine os_finto una_immagine "P1" "b.JPG" "u2" true).

(** Two images added to [P1], then the first one deleted. *)
Definition resta_la_seconda : tabella_immagini :=
  snd (elimina_immagine due_immagini 1).

End Esempi3.

(* ===================================================================== *)
(** ** Facts about labels *)
(* ===================================================================== *)

Section Etichette.

Variable sp : ascii -> bool.

Lemma rstrip_idem (s : string) : rstrip sp (rstrip sp s) = rstrip sp s.
Proof.
  induction s as [|a s IH]; simpl; [reflexivity|].
  destruct (sp a && vuota (rstrip sp s)) eqn:E; simpl; [reflexivity|].
  rewrite IH, E. reflexivity.
Qed.

Lemma rstrip_tail (a : ascii) (s : string) :
  rstrip sp (String a s) = String a s -> rstrip sp s = s.
Proof.
  simpl. destruct (sp a && vuota (rstrip sp s)); [discriminate|].
  intros H. injection H. auto.
Qed.

Lemma lstrip_keeps_rstrip (s : string) :
  rstrip sp s = s -> rstrip sp (lstrip sp s) = lstrip sp s.
Proof.
  induction s as [|a s IH]; intros H; [reflexivity|].
  simpl lstrip. destruct (sp a); [|exact H].
  apply IH. exact (rstrip_tail _ _ H).
Qed.

Lemma lstrip_idem (s : string) : lstrip sp (lstrip sp s) = lstrip sp s.
Proof.
  induction s as [|a s IH]; simpl; [reflexivity|].
  destruct (sp a) eqn:E; [exact IH|]. simpl. rewrite E. reflexivity.
Qed.

Lemma strip_with_idem (s : string) :
  strip_with sp (strip_with sp s) = strip_with sp s.
Proof.
  unfold strip_with.
  rewrite (lstrip_keeps_rstrip (rstrip sp s) (rstrip_idem s)).
  apply lstrip_idem.
Qed.

Lemma lstrip_head (s : string) (a : ascii) (r : string) :
  lstrip sp s = String a r -> sp a = false.
Proof.
  induction s as [|b s IH]; simpl; [discriminate|].
  destruct (sp b) eqn:E; [exact IH|].
  intros H. injection H as <- _. exact E.
Qed.

Lemma strip_with_head (a : ascii) (r : string) :
  sp a = false -> vuota (strip_with sp (String a r)) = false.
Proof.
  intros H. unfold strip_with. simpl. rewrite H. simpl. rewrite H. reflexivity.
Qed.

End Etichette.

Lemma py_space_of_sql (a : ascii) : py_isspace a = false -> sql_isspace a = false.
Proof.
  unfold sql_isspace. destruct (Ascii.eqb_spec a " ") as [->|]; [|reflexivity].
  discriminate.
Qed.

Lemma norm_colore_strip (s : string) :
  vuota (strip s) = false -> norm_colore (strip s) = strip s.
Proof.
  intros H. unfold norm_colore, strip in *.
  rewrite strip_with_idem, H. reflexivity.
Qed.

Lemma norm_colore_idem (s : string) : norm_colore (norm_colore s) = norm_colore s.
Proof.
  unfold norm_colore at 2 3.
  destruct (vuota (strip s)) eqn:E; [reflexivity|].
  apply norm_colore_strip. exact E.
Qed.

Lemma norm_colore_presente (s : string) :
  colore_assente (Some (norm_colore s)) = false.
Proof.
  unfold norm_colore.
  destruct (vuota (strip s)) eqn:E; [reflexivity|].
  simpl. destruct (strip s) as [|a r] eqn:S; [discriminate|].
  apply strip_with_head, py_space_of_sql.
  exact (lstrip_head _ _ _ _ S).
Qed.

(* ===================================================================== *)
(** ** Facts about the SQL building blocks *)
(* ===================================================================== *)

Lemma colore_eq_Some (o : option string) (c : string) :
  colore_eq o c = true <-> o = Some c.
Proof.
  destruct o as [x|]; simpl.
  - rewrite String.eqb_eq. split; congruence.
  - split; discriminate.
Qed.

Lemma cella_true (p c t : string) (r : riga_stock) :
  cella p c t r = true <->
  t_codice_prodotto r = p /\ t_colore r = Some c /\ t_taglia r = t.
Proof.
  unfold cella, del_colore.
  rewrite !andb_true_iff, !String.eqb_eq, colore_eq_Some. tauto.
Qed.

Lemma cella_con_quantita (p c t : string) (q : option Z) (r : riga_stock) :
  cella p c t (con_quantita q r) = cella p c t r.
Proof. reflexivity. Qed.

Lemma find_update_quantita p c t f T :
  find (cella p c t) (update_quantita p c t f T) =
  option_map (fun r => con_quantita (f (t_quantita r)) r) (find (cella p c t) T).
Proof.
  unfold update_quantita.
  induction T as [|r T IH]; [reflexivity|]. cbn [map find].
  destruct (cella p c t r) eqn:E.
  - rewrite cella_con_quantita, E. reflexivity.
  - rewrite E. exact IH.
Qed.

Lemma select_update_quantita p c t f T :
  select_quantita (update_quantita p c t f T) p c t =
  option_map f (select_quantita T p c t).
Proof.
  unfold select_quantita. rewrite find_update_quantita.
  destruct (find (cella p c t) T); reflexivity.
Qed.

Lemma update_quantita_scritta p c t x T r :
  In r (update_quantita p c t (fun _ => Some x) T) ->
  cella p c t r = true -> t_quantita r = Some x.
Proof.
  unfold update_quantita. rewrite in_map_iff. intros [r0 [H _]] Hc.
  destruct (cella p c t r0) eqn:E; subst r; [reflexivity|congruence].
Qed.

(** An update of one key leaves what is read under any other key. *)
Lemma select_update_quantita_altra p c t f T p' c' t' :
  (p', c', t') <> (p, c, t) ->
  select_quantita (update_quantita p c t f T) p' c' t'
  = select_quantita T p' c' t'.
Proof.
  intros Hne. unfold select_quantita, update_quantita.
  induction T as [|r T IH]; [reflexivity|]. cbn [map find].
  destruct (cella p c t r) eqn:E.
  - rewrite cella_con_quantita.
    assert (E' : cella p' c' t' r = false).
    { apply not_true_iff_false. intros E'.
      apply cella_true in E. apply cella_true in E'.
      destruct E as [<- [Ec <-]], E' as [<- [Ec' <-]]. apply Hne.
      rewrite Ec in Ec'. injection Ec' as <-. reflexivity. }
    rewrite E'. exact IH.
  - destruct (cella p' c' t' r); [reflexivity|exact IH].
Qed.

Lemma select_None_nessuna T p c t :
  select_quantita T p c t = None <-> nessuna_cella T p c t.
Proof.
  unfold select_quantita, nessuna_cella. split.
  - intros H r Hr. destruct (find (cella p c t) T) eqn:E; [discriminate|].
    exact (find_none _ _ E r Hr).
  - intros H. destruct (find (cella p c t) T) as [r|] eqn:E; [|reflexivity].
    destruct (find_some _ _ E) as [Hr Hc]. rewrite (H r Hr) in Hc. discriminate.
Qed.

Lemma cella_etichetta db p c t x :
  etichette_stock_normali db ->
  select_quantita (taglie_prodotti db) p c t = Some x ->
  norm_colore c = c.
Proof.
  unfold etichette_stock_normali, select_quantita. intros Hinv H.
  destruct (find (cella p c t) (taglie_prodotti db)) as [r|] eqn:E; [|discriminate].
  destruct (find_some _ _ E) as [Hr Hc].
  rewrite Forall_forall in Hinv. destruct (Hinv r Hr) as [c' [Hc' Hn]].
  apply cella_true in Hc. destruct Hc as [_ [Hcol _]].
  congruence.
Qed.

(** *** 64-bit integers *)

Lemma in_int64_iff z : in_int64 z = true <-> min_int64 <= z <= max_int64.
Proof.
  unfold in_int64. rewrite andb_true_iff, Z.leb_le, Z.leb_le. tauto.
Qed.

(** Inside the 64-bit range the SQL sum is the sum. *)
Lemma sql_add_esatta x y :
  min_int64 <= x -> min_int64 <= y -> x + y <= max_int64 ->
  x <= max_int64 -> y <= max_int64 -> min_int64 <= x + y ->
  sql_add x y = x + y.
Proof.
  intros. unfold sql_add.
  replace (in_int64 x) with true by (symmetry; apply in_int64_iff; lia).
  replace (in_int64 y) with true by (symmetry; apply in_int64_iff; lia).
  replace (in_int64 (x + y)) with true by (symmetry; apply in_int64_iff; lia).
  reflexivity.
Qed.

(** The case of the ledger: a quantity or a counter grows by [qty >= 1]. *)
Lemma sql_add_cresce x qty :
  min_int64 <= x -> 1 <= qty -> qty <= max_int64 -> x + qty <= max_int64 ->
  sql_add x qty = x + qty.
Proof.
  intros. apply sql_add_esatta; unfold min_int64, max_int64 in *; lia.
Qed.

Lemma sql_real_non_negativa z : 0 <= z -> 0 <= sql_real z.
Proof.
  intros Hz. unfold sql_real.
  destruct (Z.abs z <? 2 ^ 53); [exact Hz|].
  rewrite Z.abs_eq by exact Hz.
  assert (Hu : 0 <= 2 ^ (Z.log2 z - 52)) by apply Z.pow_nonneg, Zle_0_pos.
  set (u := 2 ^ (Z.log2 z - 52)) in *.
  assert (Hq : 0 <= z / u) by (apply Z_div_nonneg_nonneg; assumption).
  assert (Hs : 0 <= Z.sgn z) by (apply Z.sgn_nonneg; exact Hz).
  apply Z.mul_nonneg_nonneg; [exact Hs|].
  apply Z.mul_nonneg_nonneg; [|exact Hu].
  destruct (2 * (z mod u) <? u); [exact Hq|].
  destruct (u <? 2 * (z mod u)); [lia|].
  destruct (Z.even (z / u)); lia.
Qed.

Lemma sql_add_non_negativa x y : 0 <= x -> 0 <= y -> 0 <= sql_add x y.
Proof.
  intros Hx Hy. unfold sql_add.
  destruct (in_int64 x && in_int64 y && in_int64 (x + y)); [lia|].
  apply sql_real_non_negativa.
  pose proof (sql_real_non_negativa x Hx). pose proof (sql_real_non_negativa y Hy).
  lia.
Qed.

Lemma venduti_registra ora qty p P :
  venduti_di (registra_vendita ora qty p P) p =
  option_map (fun v => sql_add v qty) (venduti_di P p).
Proof.
  unfold venduti_di, registra_vendita.
  induction P as [|r P IH]; simpl; [reflexivity|].
  destruct (p_codice r =?= p) eqn:E; simpl; rewrite E; [reflexivity|exact IH].
Qed.

Lemma venduti_registra_altro ora qty p p' P :
  p' <> p ->
  venduti_di (registra_vendita ora qty p P) p' = venduti_di P p'.
Proof.
  intros Hne. unfold venduti_di, registra_vendita.
  induction P as [|r P IH]; simpl; [reflexivity|].
  destruct (p_codice r =?= p) eqn:E; simpl.
  - apply String.eqb_eq in E.
    destruct (p_codice r =?= p') eqn:E'.
    + apply String.eqb_eq in E'. congruence.
    + exact IH.
  - destruct (p_codice r =?= p'); [reflexivity|exact IH].
Qed.

(** An update of the quantities keeps the number of cells of every key. *)
Lemma conta_update_quantita p c t f T p' c' t' :
  conta (update_quantita p c t f T) p' c' t' = conta T p' c' t'.
Proof.
  unfold conta, update_quantita. induction T as [|r T IH]; [reflexivity|].
  cbn [map filter].
  assert (E : cella p' c' t' (if cella p c t r
                              then con_quantita (f (t_quantita r)) r else r)
              = cella p' c' t' r)
    by (destruct (cella p c t r); reflexivity).
  rewrite E. destruct (cella p' c' t' r); simpl; rewrite IH; reflexivity.
Qed.

(** The one cell of a key holds what is read under the key. *)
Lemma cella_unica_letta T p c t x r :
  conta T p c t = 1%nat ->
  select_quantita T p c t = Some x ->
  In r T -> cella p c t r = true -> t_quantita r = x.
Proof.
  unfold conta, select_quantita.
  induction T as [|r0 T IH]; intros Hc Hs Hr Hk; [destruct Hr|].
  cbn [filter find] in Hc, Hs.
  destruct (cella p c t r0) eqn:E.
  - injection Hs as <-. destruct Hr as [->|Hr]; [reflexivity|].
    simpl in Hc.
    assert (Hin : In r (filter (cella p c t) T)) by (apply filter_In; auto).
    destruct (filter (cella p c t) T); [destruct Hin|discriminate].
  - destruct Hr as [->|Hr]; [congruence|]. apply IH; assumption.
Qed.

(* ===================================================================== *)
(** ** Load and sell *)
(* ===================================================================== *)

(** Sell on the key the function looks up, whatever the label given. *)
Lemma scarica_vendita_colore_norm db p c t q qty ora :
  select_quantita (taglie_prodotti db) p (norm_colore c) t = Some (Some q) ->
  1 <= qty ->
  scarica_vendita_colore db p c t qty ora =
    if q <? qty
    then (Solleva (ValueError (StockInsufficiente q qty)), db)
    else if negb (in_int64 (q - qty)) || negb (in_int64 qty)
    then (Solleva OverflowError, db)
    else (Ritorna (q - qty),
          mk_db (registra_vendita ora qty p (prodotti db))
            (colori_prodotti db)
            (update_quantita p (norm_colore c) t (fun _ => Some (q - qty))
               (taglie_prodotti db))).
Proof.
  intros Hsel Hq. unfold scarica_vendita_colore.
  replace (qty <? 1) with false by (symmetry; apply Z.ltb_ge; lia).
  rewrite Hsel. reflexivity.
Qed.

(** A sale the stock covers, of a cell that holds a 64-bit integer. *)
Lemma scarica_vendita_colore_riesce db p c t q qty ora :
  select_quantita (taglie_prodotti db) p (norm_colore c) t = Some (Some q) ->
  1 <= qty -> qty <= q -> q <= max_int64 ->
  scarica_vendita_colore db p c t qty ora =
    (Ritorna (q - qty),
     mk_db (registra_vendita ora qty p (prodotti db))
       (colori_prodotti db)
       (update_quantita p (norm_colore c) t (fun _ => Some (q - qty))
          (taglie_prodotti db))).
Proof.
  intros Hsel H1 H2 H3.
  rewrite (scarica_vendita_colore_norm db p c t q qty ora Hsel H1).
  replace (q <? qty) with false by (symmetry; apply Z.ltb_ge; lia).
  replace (in_int64 (q - qty)) with true
    by (symmetry; apply in_int64_iff; unfold min_int64; lia).
  replace (in_int64 qty) with true
    by (symmetry; apply in_int64_iff; unfold min_int64; lia).
  reflexivity.
Qed.

(** Load on the key the function looks up, whatever the label given. *)
Lemma carica_stock_colore_norm db p c t q qty ora :
  select_quantita (taglie_prodotti db) p (norm_colore c) t = Some q ->
  1 <= qty -> qty <= max_int64 ->
  carica_stock_colore db p c t qty ora =
    (Ritorna (sql_add (coalesce q 0) qty),
     mk_db (tocca ora p (prodotti db)) (colori_prodotti db)
       (update_quantita p (norm_colore c) t
          (fun x => Some (sql_add (coalesce x 0) qty)) (taglie_prodotti db))).
Proof.
  intros Hsel Hq Hm. unfold carica_stock_colore.
  replace (qty <? 1) with false by (symmetry; apply Z.ltb_ge; lia).
  replace (in_int64 qty) with true
    by (symmetry; apply in_int64_iff; unfold min_int64; lia).
  rewrite Hsel. cbn [negb]. rewrite select_update_quantita, Hsel. reflexivity.
Qed.

(** C1 (as amended).  On a store whose stock rows carry normal colour
    labels, for a key (product, colour, size) that has exactly one cell,
    holding [q], and a request [qty >= 1]: when [q < qty] the sale raises
    the insufficient-stock [ValueError], which reports [q] and [qty], and the
    store is left as it was; when [qty <= q] and [q] is a 64-bit integer
    the sale returns [q - qty] and the cell holds [q - qty]; the sold counter
    of the product, when it holds a 64-bit integer [v] with
    [v + qty <= 2^63 - 1], ends at exactly [v + qty]. *)
Theorem scarica_vendita_colore_spec db p c t q qty ora :
  etichette_stock_normali db ->
  conta (taglie_prodotti db) p c t = 1%nat ->
  select_quantita (taglie_prodotti db) p c t = Some (Some q) ->
  1 <= qty ->
  (q < qty ->
     scarica_vendita_colore db p c t qty ora =
       (Solleva (ValueError (StockInsufficiente q qty)), db))
  /\
  (qty <= q -> q <= max_int64 ->
     exists db',
       scarica_vendita_colore db p c t qty ora = (Ritorna (q - qty), db')
       /\ select_quantita (taglie_prodotti db') p c t = Some (Some (q - qty))
       /\ (forall r, In r (taglie_prodotti db') -> cella p c t r = true ->
             t_quantita r = Some (q - qty))
       /\ (forall v, venduti_di (prodotti db) p = Some v ->
             min_int64 <= v -> v + qty <= max_int64 ->
             venduti_di (prodotti db') p = Some (v + qty))).
Proof.
  intros Hinv _ Hsel Hq.
  pose proof (cella_etichetta _ _ _ _ _ Hinv Hsel) as Hn.
  assert (Hsel' : select_quantita (taglie_prodotti db) p (norm_colore c) t
                  = Some (Some q)) by (rewrite Hn; exact Hsel).
  split.
  - intros Hc.
    rewrite (scarica_vendita_colore_norm db p c t q qty ora Hsel' Hq).
    replace (q <? qty) with true by (symmetry; apply Z.ltb_lt; lia).
    reflexivity.
  - intros Hc Hmax.
    pose proof (scarica_vendita_colore_riesce db p c t q qty ora Hsel' Hq Hc Hmax)
      as E.
    rewrite Hn in E.
    eexists. split; [exact E|]. simpl. repeat split.
    + rewrite select_update_quantita, Hsel. reflexivity.
    + intros r. apply update_quantita_scritta.
    + intros v Hv Hlo Hhi. rewrite venduti_registra, Hv. simpl.
      rewrite sql_add_cresce by (assumption || lia). reflexivity.
Qed.

(** Deciding the label invariants on a concrete store. *)
Ltac etichette_concrete :=
  repeat (apply Forall_cons;
          [first [ eexists; split; [reflexivity | vm_compute; reflexivity]
                 | vm_compute; reflexivity ] | ]);
  apply Forall_nil.

Lemma scarica_vendita_colore_spec_witness :
  (etichette_stock_normali Esempi.db_blu5
   /\ conta (taglie_prodotti Esempi.db_blu5) "P1" "Blu" "42" = 1%nat
   /\ select_quantita (taglie_prodotti Esempi.db_blu5) "P1" "Blu" "42"
      = Some (Some 5)
   /\ 1 <= 3)
  /\ (exists db',
        scarica_vendita_colore Esempi.db_blu5 "P1" "Blu" "42" 3 9
          = (Ritorna 2, db')
        /\ select_quantita (taglie_prodotti db') "P1" "Blu" "42" = Some (Some 2)
        /\ venduti_di (prodotti db') "P1" = Some 3)
  /\ scarica_vendita_colore Esempi.db_blu5 "P1" "Blu" "42" 10 9
       = (Solleva (ValueError (StockInsufficiente 5 10)), Esempi.db_blu5).
Proof.
  assert (Hinv : etichette_stock_normali Esempi.db_blu5)
    by (unfold etichette_stock_normali; vm_compute taglie_prodotti;
        etichette_concrete).
  assert (Hcnt : conta (taglie_prodotti Esempi.db_blu5) "P1" "Blu" "42" = 1%nat)
    by reflexivity.
  assert (Hsel : select_quantita (taglie_prodotti Esempi.db_blu5) "P1" "Blu" "42"
                 = Some (Some 5)) by reflexivity.
  split; [split; [exact Hinv | split; [exact Hcnt | split; [exact Hsel | lia]]]
         | split].
  - destruct (scarica_vendita_colore_spec Esempi.db_blu5 "P1" "Blu" "42" 5 3 9
                Hinv Hcnt Hsel ltac:(lia)) as [_ H].
    destruct (H ltac:(lia) ltac:(unfold max_int64; lia)) as [db' [E [S [_ V]]]].
    exists db'. split; [exact E | split; [exact S|]].
    apply (V 0); [reflexivity | unfold min_int64; lia | unfold max_int64; lia].
  - destruct (scarica_vendita_colore_spec Esempi.db_blu5 "P1" "Blu" "42" 5 10 9
                Hinv Hcnt Hsel ltac:(lia)) as [H _].
    apply H. lia.
Defined.

(** C1 as stated fails in two ways.  After the rename of [Blu] to the
    registered [Rosso], the key ([P1], [Rosso], 42) has two cells, holding
    5 and 0: a cell holding 0 exists, yet a sale of 3 is not refused, it
    returns 2 and both cells hold 2.  And with the sold counter at
    [2^63 - 1], a sale of 3 leaves the counter at [2^63] (kept as a REAL),
    not at the counter plus 3. *)
Lemma scarica_vendita_colore_counterexample :
  (filter (cella "P1" "Rosso" "42") (taglie_prodotti Esempi.db_fuso)
   = [mk_stock "P1" (Some "Rosso") "42" (Some 5);
      mk_stock "P1" (Some "Rosso") "42" (Some 0)]
   /\ 0 < 3
   /\ fst (scarica_vendita_colore Esempi.db_fuso "P1" "Rosso" "42" 3 10) = Ritorna 2
   /\ filter (cella "P1" "Rosso" "42")
        (taglie_prodotti
           (snd (scarica_vendita_colore Esempi.db_fuso "P1" "Rosso" "42" 3 10)))
      = [mk_stock "P1" (Some "Rosso") "42" (Some 2);
         mk_stock "P1" (Some "Rosso") "42" (Some 2)])
  /\
  (select_quantita (taglie_prodotti Esempi.db_venduti_al_massimo) "P1" "Blu" "42"
   = Some (Some 5)
   /\ conta (taglie_prodotti Esempi.db_venduti_al_massimo) "P1" "Blu" "42" = 1%nat
   /\ venduti_di (prodotti Esempi.db_venduti_al_massimo) "P1"
      = Some 9223372036854775807
   /\ fst (scarica_vendita_colore Esempi.db_venduti_al_massimo "P1" "Blu" "42" 3 9)
      = Ritorna 2
   /\ venduti_di
        (prodotti
           (snd (scarica_vendita_colore Esempi.db_venduti_al_massimo
                   "P1" "Blu" "42" 3 9)))
        "P1" = Some 9223372036854775808
   /\ 9223372036854775808 <> 9223372036854775807 + 3).
Proof.
  split.
  - split; [vm_compute; reflexivity|].
    split; [lia|]. split; vm_compute; reflexivity.
  - repeat split; try (vm_compute; reflexivity). lia.
Qed.

(** C6 (as amended).  On a store whose stock rows carry normal colour
    labels, for a key that has exactly one cell, holding a quantity [q >= 0],
    and [qty >= 1] with [q + qty <= 2^63 - 1]: the load returns [q + qty]
    and leaves [q + qty] in the cell, and a sale of the same [qty] right
    after returns [q] and leaves [q] in the cell. *)
Theorem carica_poi_scarica db p c t q qty ora ora' :
  etichette_stock_normali db ->
  conta (taglie_prodotti db) p c t = 1%nat ->
  select_quantita (taglie_prodotti db) p c t = Some (Some q) ->
  0 <= q ->
  1 <= qty ->
  q + qty <= max_int64 ->
  exists db1 db2,
    carica_stock_colore db p c t qty ora = (Ritorna (q + qty), db1)
    /\ select_quantita (taglie_prodotti db1) p c t = Some (Some (q + qty))
    /\ (forall r, In r (taglie_prodotti db1) -> cella p c t r = true ->
          t_quantita r = Some (q + qty))
    /\ scarica_vendita_colore db1 p c t qty ora' = (Ritorna q, db2)
    /\ select_quantita (taglie_prodotti db2) p c t = Some (Some q)
    /\ (forall r, In r (taglie_prodotti db2) -> cella p c t r = true ->
          t_quantita r = Some q).
Proof.
  intros Hinv Hcnt Hsel Hpos Hq Hmax.
  pose proof (cella_etichetta _ _ _ _ _ Hinv Hsel) as Hn.
  assert (Hsel' : select_quantita (taglie_prodotti db) p (norm_colore c) t
                  = Some (Some q)) by (rewrite Hn; exact Hsel).
  assert (Hadd : sql_add q qty = q + qty)
    by (apply sql_add_cresce; [unfold min_int64|..]; lia).
  pose proof (carica_stock_colore_norm db p c t (Some q) qty ora Hsel' Hq
                ltac:(lia)) as E1.
  rewrite Hn in E1. simpl coalesce in E1. rewrite Hadd in E1.
  eexists. eexists. split; [exact E1|].
  set (T1 := update_quantita p c t (fun x => Some (sql_add (coalesce x 0) qty))
               (taglie_prodotti db)).
  assert (Hsel1 : select_quantita T1 p c t = Some (Some (q + qty))).
  { unfold T1. rewrite select_update_quantita, Hsel. simpl. rewrite Hadd.
    reflexivity. }
  split; [exact Hsel1|].
  split.
  { intros r Hr Hc. simpl in Hr. fold T1 in Hr.
    apply (cella_unica_letta T1 p c t); [|exact Hsel1|exact Hr|exact Hc].
    unfold T1. rewrite conta_update_quantita. exact Hcnt. }
  rewrite (scarica_vendita_colore_riesce _ p c t (q + qty) qty ora');
    [| simpl; rewrite Hn; exact Hsel1 | exact Hq | lia | exact Hmax].
  replace (q + qty - qty) with q by lia.
  split; [reflexivity|]. simpl. rewrite Hn. split.
  - fold T1. rewrite select_update_quantita, Hsel1. reflexivity.
  - intros r. apply update_quantita_scritta.
Qed.

Lemma carica_poi_scarica_witness :
  (etichette_stock_normali Esempi.db_blu5
   /\ conta (taglie_prodotti Esempi.db_blu5) "P1" "Blu" "42" = 1%nat
   /\ select_quantita (taglie_prodotti Esempi.db_blu5) "P1" "Blu" "42"
      = Some (Some 5)
   /\ 0 <= 5 /\ 1 <= 4 /\ 5 + 4 <= max_int64)
  /\ exists db1 db2,
       carica_stock_colore Esempi.db_blu5 "P1" "Blu" "42" 4 7 = (Ritorna 9, db1)
       /\ select_quantita (taglie_prodotti db1) "P1" "Blu" "42" = Some (Some 9)
       /\ scarica_vendita_colore db1 "P1" "Blu" "42" 4 8 = (Ritorna 5, db2)
       /\ select_quantita (taglie_prodotti db2) "P1" "Blu" "42" = Some (Some 5).
Proof.
  assert (Hinv : etichette_stock_normali Esempi.db_blu5)
    by (unfold etichette_stock_normali; vm_compute taglie_prodotti;
        etichette_concrete).
  assert (Hcnt : conta (taglie_prodotti Esempi.db_blu5) "P1" "Blu" "42" = 1%nat)
    by reflexivity.
  assert (Hsel : select_quantita (taglie_prodotti Esempi.db_blu5) "P1" "Blu" "42"
                 = Some (Some 5)) by reflexivity.
  assert (Hmax : 5 + 4 <= max_int64) by (unfold max_int64; lia).
  split; [split; [exact Hinv | split; [exact Hcnt | split; [exact Hsel | lia]]] |].
  destruct (carica_poi_scarica Esempi.db_blu5 "P1" "Blu" "42" 5 4 7 8
              Hinv Hcnt Hsel ltac:(lia) ltac:(lia) Hmax)
    as [db1 [db2 [E1 [S1 [_ [E2 [S2 _]]]]]]].
  exists db1, db2. repeat split; assumption.
Defined.

(** C6 as stated fails in three ways.  Past the 64-bit range: on the cell
    holding 5, a load of [2^63 - 1] returns [2^63] (the sum kept as a REAL),
    not the sum, and a load of [2^63] raises [OverflowError].  On a negative
    quantity: with the cell at -5, a load of 3 leaves -2 and the sale of 3
    is refused.  On a duplicated key: after the rename of [Blu] to the
    registered [Rosso] a cell of ([P1], [Rosso], 42) holds 0, and a load of
    4 returns 9. *)
Lemma carica_poi_scarica_counterexample :
  (select_quantita (taglie_prodotti Esempi.db_blu5) "P1" "Blu" "42" = Some (Some 5)
   /\ conta (taglie_prodotti Esempi.db_blu5) "P1" "Blu" "42" = 1%nat
   /\ fst (carica_stock_colore Esempi.db_blu5 "P1" "Blu" "42" 9223372036854775807 7)
      = Ritorna 9223372036854775808
   /\ 9223372036854775808 <> 5 + 9223372036854775807
   /\ carica_stock_colore Esempi.db_blu5 "P1" "Blu" "42" 9223372036854775808 7
      = (Solleva OverflowError, Esempi.db_blu5))
  /\
  (select_quantita (taglie_prodotti Esempi.db_negativo) "P1" "Blu" "42"
   = Some (Some (-5))
   /\ conta (taglie_prodotti Esempi.db_negativo) "P1" "Blu" "42" = 1%nat
   /\ fst (carica_stock_colore Esempi.db_negativo "P1" "Blu" "42" 3 10)
      = Ritorna (-2)
   /\ scarica_vendita_colore
        (snd (carica_stock_colore Esempi.db_negativo "P1" "Blu" "42" 3 10))
        "P1" "Blu" "42" 3 11
      = (Solleva (ValueError (StockInsufficiente (-2) 3)),
         snd (carica_stock_colore Esempi.db_negativo "P1" "Blu" "42" 3 10)))
  /\
  (filter (cella "P1" "Rosso" "42") (taglie_prodotti Esempi.db_fuso)
   = [mk_stock "P1" (Some "Rosso") "42" (Some 5);
      mk_stock "P1" (Some "Rosso") "42" (Some 0)]
   /\ fst (carica_stock_colore Esempi.db_fuso "P1" "Rosso" "42" 4 10) = Ritorna 9
   /\ 9 <> 0 + 4
   /\ filter (cella "P1" "Rosso" "42")
        (taglie_prodotti
           (snd (carica_stock_colore Esempi.db_fuso "P1" "Rosso" "42" 4 10)))
      = [mk_stock "P1" (Some "Rosso") "42" (Some 9);
         mk_stock "P1" (Some "Rosso") "42" (Some 4)]).
Proof.
  split; [|split].
  - repeat split; try (vm_compute; reflexivity). lia.
  - repeat split; vm_compute; reflexivity.
  - split; [vm_compute; reflexivity|].
    split; [vm_compute; reflexivity|]. split; [lia|vm_compute; reflexivity].
Qed.

(** C5 (as amended).  A load or a sale of [qty <= 0] raises the
    minimum-quantity [ValueError] and leaves the store as it was.  For
    [qty >= 1], when no cell exists for (product, label, size), where the
    label is the given colour trimmed and [DEFAULT] when that is blank, both
    raise the not-found [ValueError] and leave the store as it was. *)
Theorem carico_scarico_rifiutati db p c t qty ora :
  (qty <= 0 ->
     carica_stock_colore db p c t qty ora
       = (Solleva (ValueError QuantitaCaricoMinima), db)
     /\ scarica_vendita_colore db p c t qty ora
       = (Solleva (ValueError QuantitaScaricoMinima), db))
  /\
  (1 <= qty ->
   nessuna_cella (taglie_prodotti db) p (norm_colore c) t ->
     carica_stock_colore db p c t qty ora
       = (Solleva (ValueError TagliaNonTrovata), db)
     /\ scarica_vendita_colore db p c t qty ora
       = (Solleva (ValueError TagliaNonTrovata), db)).
Proof.
  unfold carica_stock_colore, scarica_vendita_colore. split.
  - intros H. replace (qty <? 1) with true by (symmetry; apply Z.ltb_lt; lia).
    split; reflexivity.
  - intros H Hn. apply select_None_nessuna in Hn.
    replace (qty <? 1) with false by (symmetry; apply Z.ltb_ge; lia).
    rewrite Hn. split; reflexivity.
Qed.

Lemma carico_scarico_rifiutati_witness :
  (0 <= 0
   /\ 1 <= 2
   /\ nessuna_cella (taglie_prodotti Esempi.db_blu) "P1" (norm_colore "Verde") "42")
  /\ carica_stock_colore Esempi.db_blu "P1" "Blu" "42" 0 5
       = (Solleva (ValueError QuantitaCaricoMinima), Esempi.db_blu)
  /\ scarica_vendita_colore Esempi.db_blu "P1" "Verde" "42" 2 5
       = (Solleva (ValueError TagliaNonTrovata), Esempi.db_blu).
Proof.
  assert (Hn : nessuna_cella (taglie_prodotti Esempi.db_blu) "P1"
                 (norm_colore "Verde") "42")
    by (apply select_None_nessuna; reflexivity).
  split; [split; [lia | split; [lia | exact Hn]] | split].
  - apply (carico_scarico_rifiutati Esempi.db_blu "P1" "Blu" "42" 0 5). lia.
  - apply (carico_scarico_rifiutati Esempi.db_blu "P1" "Verde" "42" 2 5);
      [lia | exact Hn].
Defined.

(** C5 as stated fails: on a store that has the placeholder cells of [P1]
    and no cell whose colour is the empty label, a load and a sale of one
    piece with the empty label succeed on the [DEFAULT] cell. *)
Lemma carico_etichetta_vuota_counterexample :
  nessuna_cella (taglie_prodotti Esempi.db_default) "P1" "" "42"
  /\ fst (carica_stock_colore Esempi.db_default "P1" "" "42" 1 5) = Ritorna 1
  /\ select_quantita
       (taglie_prodotti (snd (carica_stock_colore Esempi.db_default "P1" "" "42" 1 5)))
       "P1" "DEFAULT" "42" = Some (Some 1)
  /\ fst (scarica_vendita_colore
            (snd (carica_stock_colore Esempi.db_default "P1" "" "42" 1 5))
            "P1" "" "42" 1 6) = Ritorna 0.
Proof.
  split; [apply select_None_nessuna; reflexivity|].
  repeat split; reflexivity.
Qed.

(* ===================================================================== *)
(** ** Reconciliation *)
(* ===================================================================== *)

Lemma stessa_coppia_eq (k r : riga_colore) : stessa_coppia k r = true <-> r = k.
Proof.
  unfold stessa_coppia. destruct k as [a b], r as [x y]. simpl.
  rewrite andb_true_iff, !String.eqb_eq. split; [intros [-> ->]|intros [= -> ->]]; auto.
Qed.

Lemma existsb_stessa_coppia (k : riga_colore) (C : list riga_colore) :
  existsb (stessa_coppia k) C = true <-> In k C.
Proof.
  rewrite existsb_exists. split.
  - intros [r [Hr He]]. apply stessa_coppia_eq in He. congruence.
  - intros H. exists k. split; [exact H|]. apply stessa_coppia_eq. reflexivity.
Qed.

Lemma insert_or_ignore_presente k C : In k C -> insert_or_ignore k C = C.
Proof.
  intros H. unfold insert_or_ignore.
  apply existsb_stessa_coppia in H. rewrite H. reflexivity.
Qed.

Lemma insert_or_ignore_In k C : In k (insert_or_ignore k C).
Proof.
  unfold insert_or_ignore. destruct (existsb (stessa_coppia k) C) eqn:E.
  - apply existsb_stessa_coppia. exact E.
  - apply in_or_app. right. left. reflexivity.
Qed.

Lemma insert_or_ignore_conserva k x C : In x C -> In x (insert_or_ignore k C).
Proof.
  unfold insert_or_ignore. destruct (existsb (stessa_coppia k) C); [auto|].
  intros H. apply in_or_app. left. exact H.
Qed.

Lemma insert_or_ignore_inv k x C : In x (insert_or_ignore k C) -> x = k \/ In x C.
Proof.
  unfold insert_or_ignore. destruct (existsb (stessa_coppia k) C); [auto|].
  intros H. apply in_app_or in H. destruct H as [H|[H|[]]]; auto.
Qed.

Lemma conta_app T1 T2 p c t :
  conta (T1 ++ T2) p c t = (conta T1 p c t + conta T2 p c t)%nat.
Proof. unfold conta. rewrite filter_app. apply length_app. Qed.

Lemma conta_nuova_cella p c t : conta [nuova_cella p c t] p c t = 1%nat.
Proof.
  unfold conta. simpl.
  replace (cella p c t (nuova_cella p c t)) with true; [reflexivity|].
  symmetry. apply cella_true. auto.
Qed.

Lemma conta_taglie_di T p c t :
  conta T p c t <> 0%nat <-> In t (taglie_di T p c).
Proof.
  unfold conta, taglie_di, cella. induction T as [|r T IH]; simpl; [tauto|].
  destruct (del_colore p c r) eqn:D; simpl; [|exact IH].
  destruct (String.eqb_spec (t_taglia r) t) as [E|E]; simpl.
  - split; [auto | intros _; discriminate].
  - rewrite IH. split; [auto | intros [H|H]; [contradiction|exact H]].
Qed.

Lemma taglie_di_app T1 T2 p c :
  taglie_di (T1 ++ T2) p c = taglie_di T1 p c ++ taglie_di T2 p c.
Proof. unfold taglie_di. rewrite filter_app. apply map_app. Qed.

(** The loop only appends cells at quantity 0, for sizes of the list that
    had no cell. *)
Lemma crea_mancanti_estende p c ts : forall T,
  exists nuove,
    crea_mancanti p c ts T = T ++ nuove
    /\ Forall (fun r => exists t, In t ts /\ r = nuova_cella p c t
                                  /\ conta T p c t = 0%nat) nuove.
Proof.
  induction ts as [|t ts IH]; intros T; simpl.
  - exists []. rewrite app_nil_r. split; [reflexivity|constructor].
  - destruct (Nat.eqb_spec (conta T p c t) 0) as [E|E].
    + destruct (IH (T ++ [nuova_cella p c t])) as [nuove [H1 H2]].
      exists (nuova_cella p c t :: nuove). split.
      * rewrite H1, <- app_assoc. reflexivity.
      * constructor; [exists t; auto|].
        eapply Forall_impl; [|exact H2]. intros r [t' [Ht [Hr Hc]]].
        exists t'. repeat split; auto.
        rewrite conta_app in Hc. lia.
    + destruct (IH T) as [nuove [H1 H2]]. exists nuove. split; [exact H1|].
      eapply Forall_impl; [|exact H2]. intros r [t' [Ht [Hr Hc]]].
      exists t'. auto.
Qed.

Lemma crea_mancanti_cresce p c ts T p' c' t' :
  (conta T p' c' t' <= conta (crea_mancanti p c ts T) p' c' t')%nat.
Proof.
  destruct (crea_mancanti_estende p c ts T) as [nuove [-> _]].
  rewrite conta_app. lia.
Qed.

Lemma crea_mancanti_presenti p c ts : forall T t,
  In t ts -> conta (crea_mancanti p c ts T) p c t <> 0%nat.
Proof.
  induction ts as [|t0 ts IH]; intros T t; simpl; [tauto|].
  intros [->|H]; [|apply IH; exact H].
  match goal with |- conta (crea_mancanti _ _ _ ?T1) _ _ _ <> _ =>
    pose proof (crea_mancanti_cresce p c ts T1 p c t) as L;
    assert (conta T1 p c t <> 0%nat); [|lia]
  end.
  destruct (Nat.eqb_spec (conta T p c t) 0) as [E|E]; [|exact E].
  rewrite conta_app, conta_nuova_cella. lia.
Qed.

Lemma crea_mancanti_fisso p c ts : forall T,
  (forall t, In t ts -> conta T p c t <> 0%nat) ->
  crea_mancanti p c ts T = T.
Proof.
  induction ts as [|t ts IH]; intros T H; simpl; [reflexivity|].
  destruct (Nat.eqb_spec (conta T p c t) 0) as [E|E].
  - exfalso. apply (H t); [left; reflexivity|exact E].
  - apply IH. intros t' Ht'. apply H. right. exact Ht'.
Qed.

Lemma crea_mancanti_idem p c ts T :
  crea_mancanti p c ts (crea_mancanti p c ts T) = crea_mancanti p c ts T.
Proof. apply crea_mancanti_fisso. intros t. apply crea_mancanti_presenti. Qed.

Lemma crea_mancanti_taglie p c ts T t :
  In t (taglie_di (crea_mancanti p c ts T) p c) <->
  In t (taglie_di T p c) \/ In t ts.
Proof.
  split.
  - destruct (crea_mancanti_estende p c ts T) as [nuove [-> F]].
    rewrite taglie_di_app, in_app_iff. intros [H|H]; [left; exact H|right].
    unfold taglie_di in H. apply in_map_iff in H. destruct H as [r [<- Hr]].
    apply filter_In in Hr. destruct Hr as [Hr _].
    rewrite Forall_forall in F. destruct (F r Hr) as [t' [Ht' [-> _]]]. exact Ht'.
  - intros [H|H]; apply conta_taglie_di.
    + apply conta_taglie_di in H.
      pose proof (crea_mancanti_cresce p c ts T p c t). lia.
    + apply crea_mancanti_presenti. exact H.
Qed.

Lemma ensure_stock_colore_idem db p colore tipo ora ora2 :
  let db' := ensure_stock_colore db p colore tipo ora in
  let db'' := ensure_stock_colore db' p colore tipo ora2 in
  taglie_prodotti db'' = taglie_prodotti db'
  /\ colori_prodotti db'' = colori_prodotti db'
  /\ (ora2 = ora -> db'' = db').
Proof.
  unfold ensure_stock_colore. simpl.
  rewrite crea_mancanti_idem.
  rewrite (insert_or_ignore_presente _ _ (insert_or_ignore_In _ _)).
  repeat split. intros ->. f_equal.
  unfold tocca. rewrite map_map. apply map_ext. intros r.
  destruct (p_codice r =?= p) eqn:E; simpl; rewrite E; reflexivity.
Qed.

(** C3 (as amended).  After [ensure_stock_colore], for the colour label
    trimmed ([DEFAULT] when blank): every canonical size of the scheme has a
    cell; the sizes of the colour's cells are those it had before together
    with the canonical ones, hence exactly the canonical ones when it had no
    other; the stock table is the old one, untouched, followed by new cells
    at quantity 0 for sizes that had none; the colour is registered; and a
    second call with the same arguments leaves the stock cells and the
    colour registrations as they are (the whole store, when the clock reads
    the same). *)
Theorem ensure_stock_colore_spec db p colore tipo ora :
  let c := norm_colore colore in
  let db' := ensure_stock_colore db p colore tipo ora in
  (forall t, In t (_taglie_for_tipo tipo) ->
     conta (taglie_prodotti db') p c t <> 0%nat)
  /\ (forall t, In t (taglie_di (taglie_prodotti db') p c) <->
                In t (taglie_di (taglie_prodotti db) p c)
                \/ In t (_taglie_for_tipo tipo))
  /\ ((forall t, In t (taglie_di (taglie_prodotti db) p c) ->
                 In t (_taglie_for_tipo tipo)) ->
      forall t, In t (taglie_di (taglie_prodotti db') p c) <->
                In t (_taglie_for_tipo tipo))
  /\ (exists nuove,
        taglie_prodotti db' = taglie_prodotti db ++ nuove
        /\ Forall (fun r => exists t,
                     In t (_taglie_for_tipo tipo)
                     /\ r = mk_stock p (Some c) t (Some 0)
                     /\ conta (taglie_prodotti db) p c t = 0%nat) nuove)
  /\ In (p, c) (colori_prodotti db')
  /\ (forall ora2,
        let db'' := ensure_stock_colore db' p colore tipo ora2 in
        taglie_prodotti db'' = taglie_prodotti db'
        /\ colori_prodotti db'' = colori_prodotti db'
        /\ (ora2 = ora -> db'' = db')).
Proof.
  intros c db'. subst c db'. unfold ensure_stock_colore at 1 2 3 4 5. simpl.
  split; [intros t; apply crea_mancanti_presenti|].
  split; [intros t; apply crea_mancanti_taglie|].
  split.
  { intros H t. rewrite crea_mancanti_taglie. split; [intros [A|A]; auto|auto]. }
  split; [apply crea_mancanti_estende|].
  split; [apply insert_or_ignore_In|].
  intros ora2. apply ensure_stock_colore_idem.
Qed.

(** C3 as stated fails: reconciling [Blu] under the letter scheme after it
    was reconciled under the numeric one leaves the numeric cells in place,
    so the sizes of the colour are not the canonical letter sizes; a second
    identical call at a later time changes the store (the product's
    modification timestamp); and reconciling the blank label creates the
    cells of [DEFAULT], none for the label as given. *)
Lemma ensure_stock_colore_counterexample :
  let db' := ensure_stock_colore Esempi.db_blu "P1" "Blu" "LETTERE" 2 in
  In "38" (taglie_di (taglie_prodotti db') "P1" "Blu")
  /\ ~ In "38" (_taglie_for_tipo "LETTERE")
  /\ ensure_stock_colore db' "P1" "Blu" "LETTERE" 3 <> db'
  /\ conta (taglie_prodotti (ensure_stock_colore Esempi.db_p1 "P1" "" "NUMERI" 1))
       "P1" "" "38" = 0%nat.
Proof.
  split; [vm_compute; auto|].
  split; [vm_compute; intuition discriminate|].
  split; [vm_compute; discriminate|reflexivity].
Qed.

Lemma ensure_stock_colore_spec_witness :
  (forall t, In t (taglie_di (taglie_prodotti Esempi.db_p1) "P1" (norm_colore "Blu")) ->
             In t (_taglie_for_tipo "NUMERI"))
  /\ (forall t,
        In t (taglie_di (taglie_prodotti
                (ensure_stock_colore Esempi.db_p1 "P1" "Blu" "NUMERI" 1))
                "P1" (norm_colore "Blu")) <->
        In t (_taglie_for_tipo "NUMERI")).
Proof.
  assert (H : forall t, In t (taglie_di (taglie_prodotti Esempi.db_p1) "P1"
                               (norm_colore "Blu")) ->
                        In t (_taglie_for_tipo "NUMERI"))
    by (intros t []).
  split; [exact H|].
  exact (proj1 (proj2 (proj2
           (ensure_stock_colore_spec Esempi.db_p1 "P1" "Blu" "NUMERI" 1))) H).
Defined.

(* ===================================================================== *)
(** ** Reset on a scheme change *)
(* ===================================================================== *)

Lemma filter_idem {A} (f : A -> bool) (l : list A) :
  filter f (filter f l) = filter f l.
Proof.
  induction l as [|x l IH]; simpl; [reflexivity|].
  destruct (f x) eqn:E; simpl; [rewrite E, IH; reflexivity|exact IH].
Qed.

Lemma filter_niente {A} (f : A -> bool) (l : list A) :
  (forall x, In x l -> f x = false) -> filter f l = [].
Proof.
  induction l as [|x l IH]; intros H; simpl; [reflexivity|].
  rewrite (H x (or_introl eq_refl)). apply IH.
  intros y Hy. apply H. right. exact Hy.
Qed.

Lemma inserisci_In x y l : In y (inserisci x l) <-> y = x \/ In y l.
Proof.
  induction l as [|z l IH]; simpl.
  - intuition auto.
  - destruct (nocase_leb x z); simpl; [intuition auto|].
    rewrite IH. intuition auto.
Qed.

Lemma order_by_nocase_In y l : In y (order_by_nocase l) <-> In y l.
Proof.
  induction l as [|x l IH]; simpl; [tauto|].
  rewrite inserisci_In, IH. intuition auto.
Qed.

Lemma inserisci_binario_In x y l :
  In y (inserisci_binario x l) <-> y = x \/ In y l.
Proof.
  induction l as [|z l IH]; simpl.
  - intuition auto.
  - destruct (binary_leb x z); simpl; [intuition auto|].
    rewrite IH. intuition auto.
Qed.

Lemma ordine_indice_In y l : In y (ordine_indice l) <-> In y l.
Proof.
  induction l as [|x l IH]; simpl; [tauto|].
  rewrite inserisci_binario_In, IH. intuition auto.
Qed.

Lemma select_colori_In C p c : In c (select_colori C p) <-> In (p, c) C.
Proof.
  unfold select_colori.
  rewrite order_by_nocase_In, ordine_indice_In, in_map_iff. split.
  - intros [[a b] [<- H]]. apply filter_In in H. destruct H as [H E].
    simpl in *. apply String.eqb_eq in E. subst a. exact H.
  - intros H. exists (p, c). split; [reflexivity|].
    apply filter_In. split; [exact H|]. simpl. apply String.eqb_refl.
Qed.

Lemma taglie_for_tipo_NoDup tipo : NoDup (_taglie_for_tipo tipo).
Proof.
  unfold _taglie_for_tipo. destruct (upper tipo =?= "LETTERE");
    repeat (constructor; [simpl; intuition discriminate|]); constructor.
Qed.

Lemma conta_nuova_cella_altra p c t t' :
  t' <> t -> conta [nuova_cella p c t] p c t' = 0%nat.
Proof.
  intros H. unfold conta. simpl.
  replace (cella p c t' (nuova_cella p c t)) with false; [reflexivity|].
  symmetry. apply not_true_iff_false. rewrite cella_true. simpl. intuition congruence.
Qed.

(** On a colour that has none of the sizes, the loop appends one cell per
    size, in the order of the list. *)
Lemma crea_mancanti_nuovo p c ts : forall T,
  NoDup ts ->
  (forall t, In t ts -> conta T p c t = 0%nat) ->
  crea_mancanti p c ts T = T ++ map (nuova_cella p c) ts.
Proof.
  induction ts as [|t ts IH]; intros T Hnd H; simpl.
  - rewrite app_nil_r. reflexivity.
  - inversion Hnd as [|? ? Hnot Hnd']; subst.
    rewrite (H t (or_introl eq_refl)). simpl.
    rewrite IH; [rewrite <- app_assoc; reflexivity | exact Hnd' |].
    intros t' Ht'. rewrite conta_app, (H t' (or_intror Ht')).
    rewrite conta_nuova_cella_altra; [reflexivity|].
    intros ->. contradiction.
Qed.

Lemma taglie_di_nuove p c c' ts :
  taglie_di (map (nuova_cella p c) ts) p c' = if c =?= c' then ts else [].
Proof.
  unfold taglie_di. induction ts as [|t ts IH]; simpl.
  - destruct (c =?= c'); reflexivity.
  - unfold del_colore at 1. simpl. rewrite String.eqb_refl. simpl.
    destruct (c =?= c') eqn:E; simpl; rewrite IH; reflexivity.
Qed.

Lemma taglie_di_vuoto_conta T p c t :
  taglie_di T p c = [] -> conta T p c t = 0%nat.
Proof.
  intros H. destruct (Nat.eq_dec (conta T p c t) 0) as [E|E]; [exact E|].
  apply conta_taglie_di in E. rewrite H in E. destruct E.
Qed.

(** The loop of the reset, started on a stock table in which the colours
    already treated ([fatti]) have exactly the canonical sizes and the
    others have no cell. *)
Lemma ricrea_spec p tipo ora : forall colori i db fatti,
  (forall c, In c colori ->
     etichetta_normale c /\ In (p, c) (colori_prodotti db)) ->
  (forall c, In c fatti ->
     taglie_di (taglie_prodotti db) p c = _taglie_for_tipo tipo) ->
  (forall c, ~ In c fatti -> taglie_di (taglie_prodotti db) p c = []) ->
  let db' := ricrea db p tipo ora i colori in
  colori_prodotti db' = colori_prodotti db
  /\ (forall c, In c fatti \/ In c colori ->
        taglie_di (taglie_prodotti db') p c = _taglie_for_tipo tipo)
  /\ (forall c, ~ (In c fatti \/ In c colori) ->
        taglie_di (taglie_prodotti db') p c = [])
  /\ exists nuove,
       taglie_prodotti db' = taglie_prodotti db ++ nuove
       /\ Forall (fun r => t_codice_prodotto r = p /\ t_quantita r = Some 0) nuove.
Proof.
  induction colori as [|c cs IH]; intros i db fatti Hreg Hfatti Haltri; simpl.
  - repeat split.
    + intros c [H|[]]. apply Hfatti. exact H.
    + intros c H. apply Haltri. tauto.
    + exists []. rewrite app_nil_r. split; [reflexivity|constructor].
  - destruct (Hreg c (or_introl eq_refl)) as [Hn Hc].
    set (db1 := ensure_stock_colore db p c tipo (ora i)).
    assert (HC : colori_prodotti db1 = colori_prodotti db).
    { unfold db1, ensure_stock_colore. simpl. rewrite Hn.
      apply insert_or_ignore_presente. exact Hc. }
    assert (HT : exists nuove,
               taglie_prodotti db1 = taglie_prodotti db ++ nuove
               /\ Forall (fun r => t_codice_prodotto r = p
                                   /\ t_quantita r = Some 0) nuove
               /\ (forall c', In c' (c :: fatti) ->
                     taglie_di (taglie_prodotti db1) p c' = _taglie_for_tipo tipo)
               /\ (forall c', ~ In c' (c :: fatti) ->
                     taglie_di (taglie_prodotti db1) p c' = [])).
    { unfold db1, ensure_stock_colore. simpl. rewrite Hn.
      destruct (in_dec string_dec c fatti) as [Hin|Hout].
      - exists []. rewrite app_nil_r.
        rewrite crea_mancanti_fisso.
        + split; [reflexivity|]. split; [constructor|]. split.
          * intros c' [<-|H]; apply Hfatti; assumption.
          * intros c' H. apply Haltri. intros H'. apply H. right. exact H'.
        + intros t Ht. apply conta_taglie_di. rewrite (Hfatti c Hin). exact Ht.
      - exists (map (nuova_cella p c) (_taglie_for_tipo tipo)).
        rewrite crea_mancanti_nuovo.
        + split; [reflexivity|]. split; [|split].
          * apply Forall_forall. intros r Hr. apply in_map_iff in Hr.
            destruct Hr as [t [<- _]]. split; reflexivity.
          * intros c' Hc'. rewrite taglie_di_app, taglie_di_nuove.
            destruct (String.eqb_spec c c') as [<-|E].
            -- rewrite (Haltri c Hout). reflexivity.
            -- destruct Hc' as [Hc'|Hc']; [contradiction|].
               rewrite (Hfatti c' Hc'). apply app_nil_r.
          * intros c' Hc'. rewrite taglie_di_app, taglie_di_nuove.
            destruct (String.eqb_spec c c') as [<-|E].
            -- exfalso. apply Hc'. left. reflexivity.
            -- rewrite Haltri; [reflexivity|].
               intros H'. apply Hc'. right. exact H'.
        + apply taglie_for_tipo_NoDup.
        + intros t _. apply taglie_di_vuoto_conta. apply Haltri. exact Hout. }
    destruct HT as [nuove1 [HT1 [HF1 [HS1 HS2]]]].
    destruct (IH (S i) db1 (c :: fatti)) as [A [B [C [nuove2 [D1 D2]]]]].
    + intros c' Hc'. rewrite HC. apply Hreg. right. exact Hc'.
    + exact HS1.
    + exact HS2.
    + fold db1. split; [congruence|]. split; [|split].
      * intros c' Hc'. apply B. simpl. tauto.
      * intros c' Hc'. apply C. simpl. tauto.
      * exists (nuove1 ++ nuove2). split.
        -- rewrite D1, HT1, <- app_assoc. reflexivity.
        -- apply Forall_app. auto.
Qed.

(** C4.  On a store whose registered colours of [p] are normal labels, after
    [reset_stock_prodotto db p tipo]: every stock cell of [p] holds 0; every
    colour that was registered for [p] has exactly the canonical sizes of
    the scheme, one cell each; no other colour of [p] has a cell; the
    registered colours are the same; the cells of the other products are the
    same. *)
Theorem reset_stock_prodotto_spec db p tipo ora :
  (forall c, In (p, c) (colori_prodotti db) -> etichetta_normale c) ->
  let db' := reset_stock_prodotto db p tipo ora in
  (forall r, In r (taglie_prodotti db') ->
     t_codice_prodotto r = p -> t_quantita r = Some 0)
  /\ (forall c, In (p, c) (colori_prodotti db) ->
        taglie_di (taglie_prodotti db') p c = _taglie_for_tipo tipo)
  /\ (forall c, ~ In (p, c) (colori_prodotti db) ->
        taglie_di (taglie_prodotti db') p c = [])
  /\ colori_prodotti db' = colori_prodotti db
  /\ filter (fun r => negb (t_codice_prodotto r =?= p)) (taglie_prodotti db')
     = filter (fun r => negb (t_codice_prodotto r =?= p)) (taglie_prodotti db).
Proof.
  intros Hnorm db'. unfold reset_stock_prodotto in db'.
  set (T0 := filter (fun r => negb (t_codice_prodotto r =?= p))
               (taglie_prodotti db)) in *.
  set (db0 := mk_db (prodotti db) (colori_prodotti db) T0) in *.
  assert (Hvuoto : forall c, taglie_di T0 p c = []).
  { intros c. unfold taglie_di. rewrite filter_niente; [reflexivity|].
    intros r Hr. apply filter_In in Hr. destruct Hr as [_ Hr].
    unfold del_colore. destruct (t_codice_prodotto r =?= p); [discriminate|reflexivity]. }
  destruct (ricrea_spec p tipo ora (select_colori (colori_prodotti db) p) 0 db0 [])
    as [A [B [C [nuove [D1 D2]]]]].
  - intros c Hc. apply select_colori_In in Hc. split; [apply Hnorm|]; exact Hc.
  - intros c [].
  - intros c _. apply Hvuoto.
  - fold db' in A, B, C, D1. simpl in A, D1. rewrite Forall_forall in D2.
    split; [|split; [|split; [|split]]].
    + intros r Hr Hp. rewrite D1 in Hr. apply in_app_or in Hr.
      destruct Hr as [Hr|Hr]; [|apply D2; exact Hr].
      unfold T0 in Hr. apply filter_In in Hr. destruct Hr as [_ Hr].
      rewrite Hp, String.eqb_refl in Hr. discriminate.
    + intros c Hc. apply B. right. apply select_colori_In. exact Hc.
    + intros c Hc. apply C. intros [[]|H]. apply Hc.
      apply select_colori_In. exact H.
    + exact A.
    + rewrite D1, filter_app. unfold T0 at 1. rewrite filter_idem.
      rewrite (filter_niente _ nuove); [apply app_nil_r|].
      intros r Hr. destruct (D2 r Hr) as [-> _].
      rewrite String.eqb_refl. reflexivity.
Qed.

Lemma reset_stock_prodotto_spec_witness :
  (forall c, In ("P1", c) (colori_prodotti Esempi.db_due_colori) ->
             etichetta_normale c)
  /\ taglie_di
       (taglie_prodotti
          (reset_stock_prodotto Esempi.db_due_colori "P1" "LETTERE"
             (fun i => 10 + Z.of_nat i)))
       "P1" "Blu" = ["XS"; "S"; "M"; "L"; "XL"].
Proof.
  assert (H : forall c, In ("P1", c) (colori_prodotti Esempi.db_due_colori) ->
                        etichetta_normale c).
  { intros c Hc. vm_compute in Hc.
    destruct Hc as [Hc|[Hc|[]]]; injection Hc as <-; vm_compute; reflexivity. }
  split; [exact H|].
  apply (reset_stock_prodotto_spec Esempi.db_due_colori "P1" "LETTERE"
           (fun i => 10 + Z.of_nat i) H).
  vm_compute. auto.
Defined.

(* ===================================================================== *)
(** ** What the writers preserve *)
(* ===================================================================== *)

Section Conservazione.

(** A property of stock rows. *)
Variable Q : riga_stock -> Prop.

Lemma Forall_filter_keep {A} (R : A -> Prop) (f : A -> bool) (l : list A) :
  Forall R l -> Forall R (filter f l).
Proof.
  rewrite !Forall_forall. intros H x Hx. apply filter_In in Hx. apply H, Hx.
Qed.

Lemma Forall_update_quantita p c t f T :
  (forall r, Q r -> cella p c t r = true -> Q (con_quantita (f (t_quantita r)) r)) ->
  Forall Q T -> Forall Q (update_quantita p c t f T).
Proof.
  intros H HT. unfold update_quantita. apply Forall_map.
  eapply Forall_impl; [|exact HT]. intros r Hr. simpl.
  destruct (cella p c t r) eqn:E; auto.
Qed.

Lemma Forall_crea_mancanti p c ts T :
  (forall t, Q (nuova_cella p c t)) ->
  Forall Q T -> Forall Q (crea_mancanti p c ts T).
Proof.
  intros H HT. destruct (crea_mancanti_estende p c ts T) as [nuove [-> F]].
  apply Forall_app. split; [exact HT|].
  eapply Forall_impl; [|exact F]. intros r [t [_ [-> _]]]. apply H.
Qed.

Lemma Forall_set_stock_righe p c mappa : forall T T',
  (forall q r, 0 <= q -> Q r -> Q (con_quantita (Some q) r)) ->
  (forall t q, 0 <= q -> Q (mk_stock p (Some c) t (Some q))) ->
  Forall Q T -> set_stock_righe p c mappa T = Some T' -> Forall Q T'.
Proof.
  induction mappa as [|[taglia qta] mappa IH]; intros T T' H1 H2 HT E; simpl in E.
  - injection E as <-. exact HT.
  - destruct (vuota (strip taglia)); [apply (IH T); assumption|].
    set (q0 := match qta with Some v => v | None => 0 end) in *.
    set (q := if q0 <? 0 then 0 else q0) in *.
    assert (Hq : 0 <= q) by (unfold q; destruct (Z.ltb_spec q0 0); lia).
    destruct (in_int64 q); [|discriminate]. cbn [negb] in E.
    assert (HU : Forall Q (update_quantita p c (strip taglia) (fun _ => Some q) T)).
    { apply Forall_update_quantita; [|exact HT]. intros r Hr _. apply H1; auto. }
    refine (IH _ T' H1 H2 _ E).
    destruct (Nat.eqb (conta T p c (strip taglia)) 0); [|exact HU].
    apply Forall_app. split; [exact HU|]. constructor; [|constructor].
    apply H2. exact Hq.
Qed.

Lemma Forall_set_stock_colore db p c mappa :
  (forall q r, 0 <= q -> Q r -> Q (con_quantita (Some q) r)) ->
  (forall t q, 0 <= q -> Q (mk_stock p (Some (norm_colore c)) t (Some q))) ->
  Forall Q (taglie_prodotti db) ->
  Forall Q (taglie_prodotti (set_stock_colore db p c mappa)).
Proof.
  intros H1 H2 HT. unfold set_stock_colore.
  destruct (set_stock_righe p (norm_colore c) mappa (taglie_prodotti db))
    as [T'|] eqn:E; [|exact HT].
  simpl. exact (Forall_set_stock_righe _ _ _ _ _ H1 H2 HT E).
Qed.

Lemma Forall_assegna_colore cod col T :
  (forall r, Q r -> Q (con_colore (Some col) r)) ->
  Forall Q T -> Forall Q (assegna_colore cod col T).
Proof.
  intros H HT. unfold assegna_colore. apply Forall_map.
  eapply Forall_impl; [|exact HT]. intros r Hr. simpl.
  destruct ((t_codice_prodotto r =?= cod) && colore_assente (t_colore r)); auto.
Qed.

Lemma Forall_migra_prodotti g righe : forall C T,
  (forall s r, Q r -> Q (con_colore (Some (norm_colore s)) r)) ->
  Forall Q T -> Forall Q (snd (migra_prodotti g righe C T)).
Proof.
  induction righe as [|[cod leg] righe IH]; intros C T H HT; simpl; [exact HT|].
  destruct (g cod RegistraColore); [exact HT|].
  destruct (g cod AssegnaColore); [exact HT|].
  apply IH; [exact H|]. apply Forall_assegna_colore; [apply H|exact HT].
Qed.

End Conservazione.

Lemma lista_colori_solleva db p :
  lista_colori db p = Solleva (UnboundLocalError "colori").
Proof. reflexivity. Qed.

(** *** Colour labels *)

Lemma riga_normale_con_quantita q r : riga_normale r -> riga_normale (con_quantita q r).
Proof. intros H. exact H. Qed.

Lemma riga_normale_con_colore c r :
  etichetta_normale c -> riga_normale (con_colore (Some c) r).
Proof. intros H. exists c. split; [reflexivity|exact H]. Qed.

Lemma etichetta_normale_norm s : etichetta_normale (norm_colore s).
Proof. apply norm_colore_idem. Qed.

Lemma etichetta_normale_strip s : vuota (strip s) = false -> etichetta_normale (strip s).
Proof. apply norm_colore_strip. Qed.

Lemma colori_insert_or_ignore p c C :
  etichetta_normale c ->
  Forall (fun k : riga_colore => etichetta_normale (snd k)) C ->
  Forall (fun k : riga_colore => etichetta_normale (snd k)) (insert_or_ignore (p, c) C).
Proof.
  intros Hc HC. unfold insert_or_ignore.
  destruct (existsb (stessa_coppia (p, c)) C); [exact HC|].
  apply Forall_app. split; [exact HC|]. constructor; [exact Hc|constructor].
Qed.

Lemma ensure_stock_colore_etichette db p c tipo ora :
  etichette_ok db -> etichette_ok (ensure_stock_colore db p c tipo ora).
Proof.
  intros [HT HC]. split.
  - apply Forall_crea_mancanti; [|exact HT].
    intros t. apply (riga_normale_con_colore _ (nuova_cella p (norm_colore c) t)).
    apply etichetta_normale_norm.
  - apply colori_insert_or_ignore; [apply etichetta_normale_norm|exact HC].
Qed.

Lemma ricrea_etichette p tipo ora colori : forall i db,
  etichette_ok db -> etichette_ok (ricrea db p tipo ora i colori).
Proof.
  induction colori as [|c cs IH]; intros i db H; simpl; [exact H|].
  apply IH, ensure_stock_colore_etichette, H.
Qed.

Lemma migra_prodotti_colori g righe : forall C T,
  Forall (fun k : riga_colore => etichetta_normale (snd k)) C ->
  Forall (fun k : riga_colore => etichetta_normale (snd k))
    (fst (migra_prodotti g righe C T)).
Proof.
  induction righe as [|[cod leg] righe IH]; intros C T HC; simpl; [exact HC|].
  destruct (g cod RegistraColore); [exact HC|].
  assert (H1 := colori_insert_or_ignore cod _ C (etichetta_normale_norm leg) HC).
  destruct (g cod AssegnaColore); [exact H1|].
  apply IH. exact H1.
Qed.

(** Every writer keeps the colour labels of the store in normal form. *)
Lemma passo_etichette db db' : passo db db' -> etichette_ok db -> etichette_ok db'.
Proof.
  intros Hp [HT HC]. destruct Hp.
  - (* init_database *)
    unfold init_database.
    pose proof (Forall_migra_prodotti riga_normale g
                  (select_legacy (inizializza_timestamp ora (prodotti db)))
                  (colori_prodotti db) (taglie_prodotti db)
                  (fun s r _ => riga_normale_con_colore _ r (etichetta_normale_norm s))
                  HT) as A.
    pose proof (migra_prodotti_colori g
                  (select_legacy (inizializza_timestamp ora (prodotti db)))
                  (colori_prodotti db) (taglie_prodotti db) HC) as B.
    destruct (migra_prodotti g _ _ _) as [C T]. split; assumption.
  - (* aggiungi_colore *)
    unfold aggiungi_colore. destruct (vuota (strip c)) eqn:E; [split; assumption|].
    split; [exact HT|].
    apply colori_insert_or_ignore; [apply etichetta_normale_strip, E|exact HC].
  - (* rinomina_colore *)
    unfold rinomina_colore.
    destruct (vuota (strip v)) eqn:Ev; [split; assumption|].
    destruct (vuota (strip n)) eqn:En; [split; assumption|]. simpl.
    pose proof (etichetta_normale_strip n En) as Hn. split.
    + unfold etichette_stock_normali. simpl. apply Forall_map.
      eapply Forall_impl; [|exact HT]. intros r Hr. simpl.
      destruct (del_colore p (strip v) r); [|exact Hr].
      apply riga_normale_con_colore, Hn.
    + unfold colori_normali. simpl.
      destruct (negb _).
      * apply Forall_map. eapply Forall_impl; [|exact HC]. intros k Hk. simpl.
        destruct (stessa_coppia (p, strip v) k); [exact Hn|exact Hk].
      * apply Forall_filter_keep, HC.
  - (* elimina_colore *)
    unfold elimina_colore. destruct (vuota (strip c)); [split; assumption|].
    split; apply Forall_filter_keep; assumption.
  - apply ensure_stock_colore_etichette. split; assumption.
  - (* reset_stock_prodotto *)
    apply ricrea_etichette. split; [apply Forall_filter_keep, HT|exact HC].
  - (* aggiorna_taglia_colore *)
    unfold aggiorna_taglia_colore.
    destruct (negb (in_int64 q)); [split; assumption|].
    split; [|exact HC].
    apply Forall_update_quantita; [|exact HT]. intros r Hr _. exact Hr.
  - (* carica_stock_colore *)
    unfold carica_stock_colore.
    destruct (qty <? 1); [split; assumption|].
    destruct (select_quantita _ _ _ _); [|split; assumption].
    destruct (negb (in_int64 qty)); [split; assumption|].
    destruct (select_quantita _ _ _ _); [|split; assumption].
    split; [|exact HC].
    apply Forall_update_quantita; [|exact HT]. intros r Hr _. exact Hr.
  - (* scarica_vendita_colore *)
    unfold scarica_vendita_colore.
    destruct (qty <? 1); [split; assumption|].
    destruct (select_quantita _ _ _ _); [|split; assumption].
    destruct (_ <? qty); [split; assumption|].
    destruct (_ || _); [split; assumption|].
    split; [|exact HC].
    apply Forall_update_quantita; [|exact HT]. intros r Hr _. exact Hr.
  - (* set_stock_colore *)
    split.
    + apply Forall_set_stock_colore; [| |exact HT].
      * intros q r _ Hr. exact Hr.
      * intros t q _. exists (norm_colore c). split; [reflexivity|].
        apply etichetta_normale_norm.
    + unfold colori_normali, set_stock_colore.
      destruct (set_stock_righe _ _ _ _); exact HC.
  - (* crea_prodotto *)
    unfold crea_prodotto. destruct (vuota (strip cod)); [split; assumption|].
    destruct (float_costo costo); [|split; assumption].
    destruct (find _ (prodotti db)) as [row|].
    + rewrite lista_colori_solleva.
      assert (HC' : colori_normali
                      (mk_db (prodotti db)
                         (if Nat.eqb (List.length
                                        (filter (fun r => fst r =?= strip cod)
                                           (colori_prodotti db))) 0
                          then insert_or_ignore (strip cod, norm_colore col)
                                 (colori_prodotti db)
                          else colori_prodotti db)
                         (taglie_prodotti db))).
      { unfold colori_normali. simpl. destruct (Nat.eqb _ 0); [|exact HC].
        apply colori_insert_or_ignore; [apply etichetta_normale_norm|exact HC]. }
      destruct (negb _); split; solve [exact HT | exact HC'].
    + simpl snd. apply ensure_stock_colore_etichette. split; [exact HT|].
      apply colori_insert_or_ignore; [apply etichetta_normale_norm|exact HC].
  - (* aggiorna_venduti *)
    unfold aggiorna_venduti. destruct (negb (in_int64 v)); split; assumption.
  - split; apply Forall_filter_keep; assumption.
Qed.

(** Along any run, a store with normal colour labels keeps them. *)
Lemma esecuzione_etichette db db' :
  esecuzione db db' -> etichette_ok db -> etichette_ok db'.
Proof.
  induction 1 as [|db db' db'' _ IH Hp]; intros H; [exact H|].
  exact (passo_etichette _ _ Hp (IH H)).
Qed.

Lemma etichette_ok_vuoto : etichette_ok db_vuoto.
Proof. split; constructor. Qed.

(** Every store the writers reach from the empty one has normal labels. *)
Lemma etichette_dal_vuoto db : esecuzione db_vuoto db -> etichette_ok db.
Proof. intros H. exact (esecuzione_etichette _ _ H etichette_ok_vuoto). Qed.

Lemma etichette_ok_colori db p c :
  etichette_ok db -> In (p, c) (colori_prodotti db) -> etichetta_normale c.
Proof.
  intros [_ H] Hin. unfold colori_normali in H. rewrite Forall_forall in H.
  exact (H (p, c) Hin).
Qed.

(** *** Quantities *)

Lemma quantita_ok_con_colore c r : quantita_ok r -> quantita_ok (con_colore c r).
Proof. intros H. exact H. Qed.

Lemma quantita_ok_scritta q r : 0 <= q -> quantita_ok (con_quantita (Some q) r).
Proof. intros H. exists q. split; [reflexivity|exact H]. Qed.

Lemma ensure_stock_colore_non_negativa db p c tipo ora :
  quantita_non_negative db ->
  quantita_non_negative (ensure_stock_colore db p c tipo ora).
Proof.
  intros H. apply Forall_crea_mancanti; [|exact H].
  intros t. exists 0. split; [reflexivity|lia].
Qed.

Lemma ricrea_non_negativa p tipo ora colori : forall i db,
  quantita_non_negative db ->
  quantita_non_negative (ricrea db p tipo ora i colori).
Proof.
  induction colori as [|c cs IH]; intros i db H; simpl; [exact H|].
  apply IH, ensure_stock_colore_non_negativa, H.
Qed.

Lemma reset_stock_prodotto_non_negativa db p tipo ora :
  quantita_non_negative db ->
  quantita_non_negative (reset_stock_prodotto db p tipo ora).
Proof.
  intros H. apply ricrea_non_negativa.
  unfold quantita_non_negative. simpl. apply Forall_filter_keep, H.
Qed.

Lemma carica_stock_colore_non_negativa db p c t qty ora :
  quantita_non_negative db ->
  quantita_non_negative (snd (carica_stock_colore db p c t qty ora)).
Proof.
  intros H. unfold carica_stock_colore.
  destruct (Z.ltb_spec qty 1) as [|Hq]; [exact H|].
  destruct (select_quantita _ _ _ _); [|exact H].
  destruct (negb (in_int64 qty)); [exact H|].
  destruct (select_quantita _ _ _ _); [|exact H].
  apply Forall_update_quantita; [|exact H].
  intros r [q0 [E Hq0]] _. rewrite E. simpl.
  apply quantita_ok_scritta, sql_add_non_negativa; lia.
Qed.

Lemma scarica_vendita_colore_non_negativa db p c t qty ora :
  quantita_non_negative db ->
  quantita_non_negative (snd (scarica_vendita_colore db p c t qty ora)).
Proof.
  intros H. unfold scarica_vendita_colore.
  destruct (qty <? 1); [exact H|].
  destruct (select_quantita _ _ _ _) as [row|]; [|exact H].
  destruct (Z.ltb_spec (coalesce row 0) qty) as [|Hq]; [exact H|].
  destruct (_ || _); [exact H|].
  apply Forall_update_quantita; [|exact H].
  intros r _ _. apply quantita_ok_scritta. lia.
Qed.

Lemma set_stock_colore_non_negativa db p c mappa :
  quantita_non_negative db ->
  quantita_non_negative (set_stock_colore db p c mappa).
Proof.
  intros H. apply Forall_set_stock_colore; [| |exact H].
  - intros q r Hq _. apply quantita_ok_scritta, Hq.
  - intros t q Hq. exists q. split; [reflexivity|exact Hq].
Qed.

Lemma init_database_non_negativa g db ora :
  quantita_non_negative db ->
  quantita_non_negative (init_database g db ora).
Proof.
  intros H. unfold init_database.
  pose proof (Forall_migra_prodotti quantita_ok g
                (select_legacy (inizializza_timestamp ora (prodotti db)))
                (colori_prodotti db) (taglie_prodotti db)
                (fun s r Hr => quantita_ok_con_colore _ r Hr) H) as A.
  destruct (migra_prodotti g _ _ _) as [C T]. exact A.
Qed.

Lemma aggiorna_taglia_colore_non_negativa db p c t q ora :
  0 <= q ->
  quantita_non_negative db ->
  quantita_non_negative (aggiorna_taglia_colore db p c t q ora).
Proof.
  intros Hq H. unfold aggiorna_taglia_colore.
  destruct (negb (in_int64 q)); [exact H|].
  apply Forall_update_quantita; [|exact H].
  intros r _ _. apply quantita_ok_scritta, Hq.
Qed.

(** C2, at the failing input.  On the store that has the cells of [Blu] at
    quantity 0, all non-negative, the single-cell update called with [-5]
    writes [-5] in the cell: the store it leaves has a negative quantity. *)
Theorem aggiorna_taglia_colore_scrive_negativo :
  quantita_non_negative Esempi.db_blu
  /\ select_quantita
       (taglie_prodotti (aggiorna_taglia_colore Esempi.db_blu "P1" "Blu" "42" (-5) 9))
       "P1" "Blu" "42" = Some (Some (-5))
  /\ ~ quantita_non_negative
         (aggiorna_taglia_colore Esempi.db_blu "P1" "Blu" "42" (-5) 9).
Proof.
  split; [|split].
  - unfold quantita_non_negative. vm_compute taglie_prodotti.
    repeat (apply Forall_cons; [exists 0; split; [reflexivity|lia]|]).
    apply Forall_nil.
  - reflexivity.
  - intros H. unfold quantita_non_negative in H. rewrite Forall_forall in H.
    destruct (H (mk_stock "P1" (Some "Blu") "42" (Some (-5)))) as [q [E Hq]].
    + vm_compute. auto 10.
    + injection E as <-. lia.
Qed.

(* ===================================================================== *)
(** ** The legacy migration *)
(* ===================================================================== *)

Lemma select_legacy_timestamp ora P :
  select_legacy (inizializza_timestamp ora P) = select_legacy P.
Proof.
  unfold select_legacy, inizializza_timestamp. rewrite map_map. reflexivity.
Qed.

Lemma inizializza_timestamp_idem ora ora2 P :
  inizializza_timestamp ora2 (inizializza_timestamp ora P)
  = inizializza_timestamp ora P.
Proof.
  unfold inizializza_timestamp. rewrite map_map. reflexivity.
Qed.

Lemma colore_migrato_nil r : colore_migrato [] r = r.
Proof. unfold colore_migrato. destruct (colore_assente (t_colore r)); reflexivity. Qed.

Lemma colore_migrato_passo cod leg righe r :
  colore_migrato righe
    (if (t_codice_prodotto r =?= cod) && colore_assente (t_colore r)
     then con_colore (Some (norm_colore leg)) r else r)
  = colore_migrato ((cod, leg) :: righe) r.
Proof.
  unfold colore_migrato at 2. simpl find.
  rewrite (String.eqb_sym cod).
  destruct (colore_assente (t_colore r)) eqn:A.
  - destruct (t_codice_prodotto r =?= cod) eqn:E; simpl.
    + unfold colore_migrato. simpl t_colore.
      rewrite norm_colore_presente. reflexivity.
    + unfold colore_migrato. rewrite A. reflexivity.
  - rewrite andb_false_r. unfold colore_migrato. rewrite A. reflexivity.
Qed.

Lemma colore_migrato_presente righe r :
  colore_assente (t_colore r) = false -> colore_migrato righe r = r.
Proof. intros A. unfold colore_migrato. rewrite A. reflexivity. Qed.

Lemma colore_migrato_idem righe r :
  colore_migrato righe (colore_migrato righe r) = colore_migrato righe r.
Proof.
  destruct (colore_assente (t_colore r)) eqn:A.
  - destruct (find (fun x => fst x =?= t_codice_prodotto r) righe) as [x|] eqn:F.
    + assert (E : colore_migrato righe r
                  = con_colore (Some (norm_colore (snd x))) r)
        by (unfold colore_migrato; rewrite A, F; reflexivity).
      rewrite E. apply colore_migrato_presente, norm_colore_presente.
    + assert (E : colore_migrato righe r = r)
        by (unfold colore_migrato; rewrite A, F; reflexivity).
      repeat rewrite E. reflexivity.
  - repeat rewrite (colore_migrato_presente righe r A). reflexivity.
Qed.

(** Without failures the loop rewrites each stock row by [colore_migrato]. *)
Lemma migra_prodotti_taglie righe : forall C T,
  snd (migra_prodotti senza_guasti righe C T) = map (colore_migrato righe) T.
Proof.
  induction righe as [|[cod leg] righe IH]; intros C T; simpl.
  - rewrite (map_ext _ (fun r => r) colore_migrato_nil), map_id. reflexivity.
  - rewrite IH. unfold assegna_colore. rewrite map_map.
    apply map_ext. intros r. apply colore_migrato_passo.
Qed.

(** Without failures the loop only appends registrations that were missing. *)
Lemma migra_prodotti_colori_estende righe : forall C T,
  exists nuovi,
    fst (migra_prodotti senza_guasti righe C T) = C ++ nuovi
    /\ Forall (fun k => ~ In k C
                        /\ exists cod leg,
                             In (cod, leg) righe /\ k = (cod, norm_colore leg))
         nuovi.
Proof.
  induction righe as [|[cod leg] righe IH]; intros C T; simpl.
  - exists []. rewrite app_nil_r. split; [reflexivity|constructor].
  - destruct (IH (insert_or_ignore (cod, norm_colore leg) C)
                (assegna_colore cod (norm_colore leg) T)) as [nuovi [E F]].
    rewrite E. unfold insert_or_ignore in *.
    destruct (existsb (stessa_coppia (cod, norm_colore leg)) C) eqn:X.
    + exists nuovi. split; [reflexivity|].
      eapply Forall_impl; [|exact F]. intros k [Hk [cod' [leg' [Hin ->]]]].
      split; [exact Hk|]. exists cod', leg'. split; [right; exact Hin|reflexivity].
    + exists ((cod, norm_colore leg) :: nuovi). split.
      * rewrite <- app_assoc. reflexivity.
      * constructor.
        -- split.
           ++ intros Hin. apply existsb_stessa_coppia in Hin. congruence.
           ++ exists cod, leg. split; [left; reflexivity|reflexivity].
        -- eapply Forall_impl; [|exact F]. intros k [Hk [cod' [leg' [Hin ->]]]].
           split.
           ++ intros H. apply Hk. apply in_or_app. left. exact H.
           ++ exists cod', leg'. split; [right; exact Hin|reflexivity].
Qed.

Lemma migra_prodotti_colori_conserva righe C T k :
  In k C -> In k (fst (migra_prodotti senza_guasti righe C T)).
Proof.
  destruct (migra_prodotti_colori_estende righe C T) as [nuovi [-> _]].
  intros H. apply in_or_app. left. exact H.
Qed.

Lemma migra_prodotti_registra righe : forall C T cod leg,
  In (cod, leg) righe ->
  In (cod, norm_colore leg) (fst (migra_prodotti senza_guasti righe C T)).
Proof.
  induction righe as [|[cod0 leg0] righe IH]; intros C T cod leg; simpl; [tauto|].
  intros [[= -> ->]|H].
  - apply migra_prodotti_colori_conserva, insert_or_ignore_In.
  - apply IH. exact H.
Qed.

Lemma migra_prodotti_colori_fisso righe : forall C T,
  (forall cod leg, In (cod, leg) righe -> In (cod, norm_colore leg) C) ->
  fst (migra_prodotti senza_guasti righe C T) = C.
Proof.
  induction righe as [|[cod leg] righe IH]; intros C T H; simpl; [reflexivity|].
  rewrite (insert_or_ignore_presente _ _ (H cod leg (or_introl eq_refl))).
  apply IH. intros cod' leg' Hin. apply H. right. exact Hin.
Qed.

Lemma init_database_taglie db ora :
  taglie_prodotti (init_database senza_guasti db ora)
  = map (colore_migrato (select_legacy (prodotti db))) (taglie_prodotti db).
Proof.
  unfold init_database. rewrite select_legacy_timestamp.
  pose proof (migra_prodotti_taglie (select_legacy (prodotti db))
                (colori_prodotti db) (taglie_prodotti db)) as HT.
  destruct (migra_prodotti senza_guasti _ _ _) as [C T]. exact HT.
Qed.

(** What the migration leaves of one stock row: product code, size and
    quantity as they were; the colour as it was when the row has one; when
    the colour is null or blank, the legacy colour of the product trimmed,
    [DEFAULT] when that is blank, and no colour still when no product has
    the code of the row. *)
Lemma colore_migrato_riga righe r :
  let r' := colore_migrato righe r in
  t_codice_prodotto r' = t_codice_prodotto r
  /\ t_taglia r' = t_taglia r
  /\ t_quantita r' = t_quantita r
  /\ (colore_assente (t_colore r) = false -> t_colore r' = t_colore r)
  /\ (colore_assente (t_colore r) = true ->
      forall cod leg,
        find (fun x => fst x =?= t_codice_prodotto r) righe = Some (cod, leg) ->
        t_colore r' = Some (if vuota (strip leg) then "DEFAULT" else strip leg))
  /\ (colore_assente (t_colore r) = true ->
      find (fun x => fst x =?= t_codice_prodotto r) righe = None ->
      t_colore r' = t_colore r).
Proof.
  unfold colore_migrato.
  destruct (colore_assente (t_colore r)) eqn:A.
  - destruct (find (fun x => fst x =?= t_codice_prodotto r) righe) as [x|] eqn:F.
    + repeat split; try reflexivity; try discriminate.
      intros _ cod leg [= ->]. reflexivity.
    + repeat split; try reflexivity; discriminate.
  - repeat split; try reflexivity; discriminate.
Qed.

Lemma Forall2_map_destra {A B} (R : A -> B -> Prop) (f : A -> B) (l : list A) :
  (forall x, R x (f x)) -> Forall2 R l (map f l).
Proof. intros H. induction l; simpl; constructor; auto. Qed.

Lemma Forall2_tre {A B} (R : A -> B -> Prop) a b c (l : list B) :
  Forall2 R [a; b; c] l ->
  exists x y z, l = [x; y; z] /\ R a x /\ R b y /\ R c z.
Proof.
  intros F.
  destruct l as [|x [|y [|z [|w l]]]];
    try (inversion F as [|? ? ? ? ? F1]; subst;
         try (inversion F1 as [|? ? ? ? ? F2]; subst;
              try (inversion F2 as [|? ? ? ? ? F3]; subst;
                   try (inversion F3))); fail).
  inversion F as [|? ? ? ? Ha F1]; subst.
  inversion F1 as [|? ? ? ? Hb F2]; subst.
  inversion F2 as [|? ? ? ? Hc F3]; subst.
  exists x, y, z. auto.
Qed.

(** C7.  The migration (run without failures) registers for every product
    the colour derived from its legacy field: the field trimmed, [DEFAULT]
    when that is blank; it only appends registrations that were missing.
    It keeps the stock rows in place and, row by row, keeps product code,
    size and quantity; a row that has a colour keeps it; a row whose colour
    is null or blank gets the derived colour of its product (and stays as
    it is when no product has its code).  Running [init_database] again on
    the result changes nothing. *)
Theorem migrazione_idempotente db ora ora2 :
  let righe := select_legacy (prodotti db) in
  let db' := init_database senza_guasti db ora in
  let derivato := fun leg => if vuota (strip leg) then "DEFAULT" else strip leg in
  (forall cod leg, In (cod, leg) righe ->
     In (cod, derivato leg) (colori_prodotti db'))
  /\ (exists nuovi,
        colori_prodotti db' = colori_prodotti db ++ nuovi
        /\ Forall (fun k => ~ In k (colori_prodotti db)
                            /\ exists cod leg,
                                 In (cod, leg) righe
                                 /\ k = (cod, derivato leg)) nuovi)
  /\ Forall2
       (fun r r' =>
          t_codice_prodotto r' = t_codice_prodotto r
          /\ t_taglia r' = t_taglia r
          /\ t_quantita r' = t_quantita r
          /\ (colore_assente (t_colore r) = false -> t_colore r' = t_colore r)
          /\ (colore_assente (t_colore r) = true ->
              forall cod leg,
                find (fun x => fst x =?= t_codice_prodotto r) righe
                  = Some (cod, leg) ->
                t_colore r' = Some (derivato leg))
          /\ (colore_assente (t_colore r) = true ->
              find (fun x => fst x =?= t_codice_prodotto r) righe = None ->
              t_colore r' = t_colore r))
       (taglie_prodotti db) (taglie_prodotti db')
  /\ init_database senza_guasti db' ora2 = db'.
Proof.
  intros righe db' derivato. subst db' derivato. unfold init_database.
  rewrite select_legacy_timestamp. fold righe.
  pose proof (migra_prodotti_taglie righe (colori_prodotti db) (taglie_prodotti db)) as HT.
  pose proof (migra_prodotti_colori_estende righe (colori_prodotti db)
                (taglie_prodotti db)) as HE.
  pose proof (fun cod leg => migra_prodotti_registra righe (colori_prodotti db)
                (taglie_prodotti db) cod leg) as HR.
  destruct (migra_prodotti senza_guasti righe (colori_prodotti db)
              (taglie_prodotti db)) as [C T] eqn:M.
  simpl in HT, HE, HR. simpl.
  split; [exact HR|]. split; [exact HE|]. split.
  { rewrite HT. apply Forall2_map_destra. intros r. apply colore_migrato_riga. }
  rewrite inizializza_timestamp_idem, select_legacy_timestamp. fold righe.
  pose proof (migra_prodotti_colori_fisso righe C T HR) as HC2.
  pose proof (migra_prodotti_taglie righe C T) as HT2.
  destruct (migra_prodotti senza_guasti righe C T) as [C2 T2].
  simpl in HC2, HT2. subst C2 T2. f_equal.
  rewrite HT, map_map. apply map_ext. intros r. apply colore_migrato_idem.
Qed.

(** The migration scenario: product [A] with legacy colour [Rosso] and
    product [B] with a blank one, their stock rows without a colour.  After
    the migration [A] is registered with [Rosso] and [B] with [DEFAULT],
    the rows of [A] carry [Rosso] and the row of [B] carries [DEFAULT], with
    the quantities they had; a second migration changes nothing. *)
Lemma migrazione_idempotente_witness :
  select_legacy (prodotti Esempi.db_legacy) = [("A", "Rosso"); ("B", " ")]
  /\ taglie_prodotti Esempi.db_legacy
     = [mk_stock "A" None "38" (Some 4);
        mk_stock "A" (Some "") "40" (Some 1);
        mk_stock "B" None "M" (Some 2)]
  /\ In ("A", "Rosso") (colori_prodotti Esempi.db_migrato)
  /\ In ("B", "DEFAULT") (colori_prodotti Esempi.db_migrato)
  /\ colori_prodotti Esempi.db_migrato = [("A", "Rosso"); ("B", "DEFAULT")]
  /\ (exists r1 r2 r3,
        taglie_prodotti Esempi.db_migrato = [r1; r2; r3]
        /\ t_colore r1 = Some "Rosso" /\ t_quantita r1 = Some 4
        /\ t_colore r2 = Some "Rosso" /\ t_quantita r2 = Some 1
        /\ t_colore r3 = Some "DEFAULT" /\ t_quantita r3 = Some 2)
  /\ taglie_prodotti Esempi.db_migrato
     = [mk_stock "A" (Some "Rosso") "38" (Some 4);
        mk_stock "A" (Some "Rosso") "40" (Some 1);
        mk_stock "B" (Some "DEFAULT") "M" (Some 2)]
  /\ init_database senza_guasti Esempi.db_migrato 2 = Esempi.db_migrato.
Proof.
  destruct (migrazione_idempotente Esempi.db_legacy 1 2) as [R [_ [F I]]].
  split; [reflexivity|]. split; [reflexivity|].
  split; [exact (R "A" "Rosso" (or_introl eq_refl))|].
  split; [exact (R "B" " " (or_intror (or_introl eq_refl)))|].
  split; [reflexivity|].
  split; [|split; [reflexivity|exact I]].
  change (taglie_prodotti Esempi.db_legacy)
    with [mk_stock "A" None "38" (Some 4);
          mk_stock "A" (Some "") "40" (Some 1);
          mk_stock "B" None "M" (Some 2)] in F.
  destruct (Forall2_tre _ _ _ _ _ F)
    as [r1 [r2 [r3 [E [[_ [_ [Q1 [_ [C1 _]]]]]
                       [[_ [_ [Q2 [_ [C2 _]]]]] [_ [_ [Q3 [_ [C3 _]]]]]]]]]]].
  exists r1, r2, r3. split; [exact E|].
  split; [exact (C1 eq_refl "A" "Rosso" eq_refl)|]. split; [exact Q1|].
  split; [exact (C2 eq_refl "A" "Rosso" eq_refl)|]. split; [exact Q2|].
  split; [exact (C3 eq_refl "B" " " eq_refl)|exact Q3].
Defined.

(** On a legacy store, where a stock row either has a normal label or has
    none and belongs to a product, the migration establishes the label
    invariant. *)
Lemma migrazione_stabilisce_etichette db ora :
  colori_normali db ->
  Forall (fun r => riga_normale r
                   \/ (colore_assente (t_colore r) = true
                       /\ exists x, In x (prodotti db)
                                    /\ p_codice x = t_codice_prodotto r))
    (taglie_prodotti db) ->
  etichette_ok (init_database senza_guasti db ora).
Proof.
  intros HC HT. split.
  - unfold etichette_stock_normali. rewrite init_database_taglie.
    apply Forall_map.
    eapply Forall_impl; [|exact HT]. intros r [[c [Hc Hn]]|[A [x [Hx Ex]]]].
    + rewrite colore_migrato_presente; [exists c; auto|].
      rewrite Hc, <- Hn. apply norm_colore_presente.
    + unfold colore_migrato. rewrite A.
      destruct (find _ (select_legacy (prodotti db))) as [y|] eqn:F.
      * apply riga_normale_con_colore, etichetta_normale_norm.
      * exfalso.
        assert (Hin : In (p_codice x, coalesce (p_colore x) "")
                        (select_legacy (prodotti db)))
          by (unfold select_legacy; apply in_map_iff; exists x; auto).
        pose proof (find_none _ _ F _ Hin) as N. simpl in N.
        rewrite Ex, String.eqb_refl in N. discriminate.
  - unfold init_database.
    pose proof (migra_prodotti_colori senza_guasti
                  (select_legacy (inizializza_timestamp ora (prodotti db)))
                  (colori_prodotti db) (taglie_prodotti db) HC) as B.
    destruct (migra_prodotti senza_guasti _ _ _) as [C T]. exact B.
Qed.

(** A failure while the loop treats a product ends the loop: the result does
    not depend on the products that follow. *)
Lemma migra_prodotti_interrotta g pre cod leg post : forall C T,
  (forall x, In x pre ->
     g (fst x) RegistraColore = false /\ g (fst x) AssegnaColore = false) ->
  g cod RegistraColore = true \/ g cod AssegnaColore = true ->
  migra_prodotti g (pre ++ (cod, leg) :: post) C T =
    (if g cod RegistraColore
     then fst (migra_prodotti senza_guasti pre C T)
     else insert_or_ignore (cod, norm_colore leg)
            (fst (migra_prodotti senza_guasti pre C T)),
     snd (migra_prodotti senza_guasti pre C T)).
Proof.
  induction pre as [|[cod0 leg0] pre IH]; intros C T Hpre Hg; simpl.
  - destruct (g cod RegistraColore) eqn:E1; [reflexivity|].
    destruct Hg as [Hg|Hg]; [discriminate|]. rewrite Hg. reflexivity.
  - destruct (Hpre (cod0, leg0) (or_introl eq_refl)) as [E1 E2].
    simpl in E1, E2. rewrite E1, E2.
    apply IH; [|exact Hg]. intros x Hx. apply Hpre. right. exact Hx.
Qed.

(** C8 (as amended).  When a statement of the migration fails while the loop
    treats a product, the failure is swallowed and [init_database] still
    completes: the products treated before are migrated as in a run without
    failures, the failing product gets at most its colour registration, and
    the products after it are not migrated in that run, whatever they are. *)
Theorem init_database_guasto g db ora pre cod leg post :
  select_legacy (prodotti db) = pre ++ (cod, leg) :: post ->
  (forall x, In x pre ->
     g (fst x) RegistraColore = false /\ g (fst x) AssegnaColore = false) ->
  g cod RegistraColore = true \/ g cod AssegnaColore = true ->
  init_database g db ora =
    mk_db (inizializza_timestamp ora (prodotti db))
      (if g cod RegistraColore
       then fst (migra_prodotti senza_guasti pre
                   (colori_prodotti db) (taglie_prodotti db))
       else insert_or_ignore (cod, norm_colore leg)
              (fst (migra_prodotti senza_guasti pre
                      (colori_prodotti db) (taglie_prodotti db))))
      (snd (migra_prodotti senza_guasti pre
              (colori_prodotti db) (taglie_prodotti db))).
Proof.
  intros Hsel Hpre Hg. unfold init_database.
  rewrite select_legacy_timestamp, Hsel.
  rewrite (migra_prodotti_interrotta g pre cod leg post _ _ Hpre Hg).
  reflexivity.
Qed.

Lemma init_database_guasto_witness :
  (select_legacy (prodotti Esempi.db_legacy) = [] ++ ("A", "Rosso") :: [("B", " ")]
   /\ (forall x : string * string, In x [] ->
         Esempi.guasto_su_A (fst x) RegistraColore = false
         /\ Esempi.guasto_su_A (fst x) AssegnaColore = false)
   /\ (Esempi.guasto_su_A "A" RegistraColore = true
       \/ Esempi.guasto_su_A "A" AssegnaColore = true))
  /\ init_database Esempi.guasto_su_A Esempi.db_legacy 1 =
       mk_db (inizializza_timestamp 1 (prodotti Esempi.db_legacy))
         [] (taglie_prodotti Esempi.db_legacy).
Proof.
  assert (H1 : select_legacy (prodotti Esempi.db_legacy)
               = [] ++ ("A", "Rosso") :: [("B", " ")]) by reflexivity.
  assert (H2 : forall x : string * string, In x [] ->
                 Esempi.guasto_su_A (fst x) RegistraColore = false
                 /\ Esempi.guasto_su_A (fst x) AssegnaColore = false)
    by (intros x []).
  assert (H3 : Esempi.guasto_su_A "A" RegistraColore = true
               \/ Esempi.guasto_su_A "A" AssegnaColore = true)
    by (left; reflexivity).
  split; [split; [exact H1 | split; [exact H2 | exact H3]] |].
  exact (init_database_guasto Esempi.guasto_su_A Esempi.db_legacy 1
           [] "A" "Rosso" [("B", " ")] H1 H2 H3).
Defined.

(** C8 as stated fails: when the statements fail for product [A], product
    [B], which a run without failures migrates, is left unmigrated: its
    colour is not registered and its stock row still has no colour. *)
Lemma init_database_guasto_counterexample :
  let db' := init_database Esempi.guasto_su_A Esempi.db_legacy 1 in
  let ok := init_database senza_guasti Esempi.db_legacy 1 in
  In ("B", "DEFAULT") (colori_prodotti ok)
  /\ In (mk_stock "B" (Some "DEFAULT") "M" (Some 2)) (taglie_prodotti ok)
  /\ ~ In ("B", "DEFAULT") (colori_prodotti db')
  /\ In (mk_stock "B" None "M" (Some 2)) (taglie_prodotti db').
Proof.
  split; [vm_compute; auto|].
  split; [vm_compute; auto|].
  split; [vm_compute; intros []|].
  vm_compute. auto.
Qed.

(* ===================================================================== *)
(** ** The colour catalogue *)
(* ===================================================================== *)

(** C9.  [lista_colori] raises [UnboundLocalError] on every store and
    product, so it never returns the filtered list.  At the failing input,
    product [P1] whose registered colours are [Blu] and the placeholder
    [DEFAULT], it raises instead of returning [["Blu"]], and the list it was
    about to return, [rows], still holds the placeholder. *)
Theorem lista_colori_non_filtra :
  (forall db p, lista_colori db p = Solleva (UnboundLocalError "colori"))
  /\ lista_colori Esempi.db_default_blu "P1" <> Ritorna ["Blu"]
  /\ select_colori (colori_prodotti Esempi.db_default_blu) "P1"
     = ["Blu"; "DEFAULT"].
Proof.
  split; [intros db p; reflexivity|].
  split; [discriminate|reflexivity].
Qed.

Lemma updated_at_tocca ora p P :
  updated_at_di (tocca ora p P) p
  = option_map (fun _ => Some ora) (updated_at_di P p).
Proof.
  unfold updated_at_di, tocca. induction P as [|r P IH]; simpl; [reflexivity|].
  destruct (p_codice r =?= p) eqn:E; simpl; rewrite E; [reflexivity|exact IH].
Qed.

(** A rename with non-blank labels stamps the product, if it exists, with
    the time of the call. *)
Lemma rinomina_colore_timestamp db p v n ora :
  vuota (strip v) = false -> vuota (strip n) = false ->
  updated_at_di (prodotti (rinomina_colore db p v n ora)) p
  = option_map (fun _ => Some ora) (updated_at_di (prodotti db) p).
Proof.
  intros Hv Hn. unfold rinomina_colore. rewrite Hv, Hn. simpl.
  apply updated_at_tocca.
Qed.

(** The stock update of a rename moves every cell of the old label under
    the new one and keeps the cells the new label already had: the counts
    add up. *)
Lemma rinomina_colore_conta db p v n ora t :
  vuota (strip v) = false -> vuota (strip n) = false ->
  strip v <> strip n ->
  let db' := rinomina_colore db p v n ora in
  conta (taglie_prodotti db') p (strip n) t
  = (conta (taglie_prodotti db) p (strip v) t
     + conta (taglie_prodotti db) p (strip n) t)%nat
  /\ conta (taglie_prodotti db') p (strip v) t = 0%nat.
Proof.
  intros Hv Hn Hne. unfold rinomina_colore. rewrite Hv, Hn. simpl.
  unfold conta. induction (taglie_prodotti db) as [|r T [IH1 IH2]]; simpl; [auto|].
  destruct (del_colore p (strip v) r) eqn:D.
  - assert (Cv : forall t', cella p (strip v) t' r = (t_taglia r =?= t'))
      by (intros t'; unfold cella; rewrite D; reflexivity).
    assert (Cn : cella p (strip n) t r = false).
    { apply not_true_iff_false. rewrite cella_true. intros [_ [E _]].
      unfold del_colore in D. apply andb_true_iff in D. destruct D as [_ D].
      apply colore_eq_Some in D. congruence. }
    assert (Cn' : cella p (strip n) t (con_colore (Some (strip n)) r)
                  = (t_taglia r =?= t)).
    { unfold cella, del_colore in *. simpl.
      apply andb_true_iff in D. destruct D as [-> _].
      rewrite String.eqb_refl. reflexivity. }
    assert (Cv' : cella p (strip v) t (con_colore (Some (strip n)) r) = false).
    { apply not_true_iff_false. rewrite cella_true. simpl.
      intros [_ [E _]]. congruence. }
    rewrite Cn', Cv', Cv, Cn. split; [|exact IH2].
    destruct (t_taglia r =?= t); simpl; rewrite IH1; reflexivity.
  - assert (Cv : cella p (strip v) t r = false)
      by (unfold cella; rewrite D; reflexivity).
    rewrite Cv. split; [|exact IH2].
    destruct (cella p (strip n) t r); simpl; rewrite IH1; lia.
Qed.

(** C10, at the failing input.  [P1] has the colours [Blu] (5 pieces of size
    42) and [Rosso], both with the numeric cells.  Renaming [Blu] to [Rosso]
    removes the registration of [Blu] and re-points its cells, and leaves two
    cells for ([P1], [Rosso], 42), holding 5 and 0. *)
Theorem rinomina_colore_duplica :
  let db' := rinomina_colore Esempi.db_due_colori "P1" "Blu" "Rosso" 9 in
  (conta (taglie_prodotti Esempi.db_due_colori) "P1" "Blu" "42" = 1
   /\ conta (taglie_prodotti Esempi.db_due_colori) "P1" "Rosso" "42" = 1)%nat
  /\ colori_prodotti db' = [("P1", "Rosso")]
  /\ taglie_di (taglie_prodotti db') "P1" "Blu" = []
  /\ conta (taglie_prodotti db') "P1" "Rosso" "42" = 2%nat
  /\ map t_quantita (filter (cella "P1" "Rosso" "42") (taglie_prodotti db'))
     = [Some 5; Some 0].
Proof. repeat split. Qed.

(* ===================================================================== *)
(** ** The colour catalogue, continued *)
(* ===================================================================== *)

Lemma filter_sotto {A} (f g : A -> bool) (l : list A) :
  (forall x, In x l -> f x = true -> g x = true) ->
  filter f (filter g l) = filter f l.
Proof.
  induction l as [|x l IH]; intros H; simpl; [reflexivity|].
  assert (IH' : filter f (filter g l) = filter f l)
    by (apply IH; intros y Hy; apply H; right; exact Hy).
  destruct (g x) eqn:G; simpl.
  - rewrite IH'. reflexivity.
  - destruct (f x) eqn:F; [|exact IH'].
    rewrite (H x (or_introl eq_refl) F) in G. discriminate.
Qed.

Lemma del_colore_true p c r :
  del_colore p c r = true <-> t_codice_prodotto r = p /\ t_colore r = Some c.
Proof.
  unfold del_colore. rewrite andb_true_iff, String.eqb_eq, colore_eq_Some. tauto.
Qed.

Lemma stessa_coppia_false (k r : riga_colore) :
  stessa_coppia k r = false <-> r <> k.
Proof.
  rewrite <- not_true_iff_false, stessa_coppia_eq. tauto.
Qed.

(** X1.  [elimina_colore] with a label that is not blank removes the registration
    of the trimmed label together with all its stock cells, and touches no
    other registration and no cell of another (product, colour). *)
Theorem elimina_colore_cascata db p c ora :
  vuota (strip c) = false ->
  let db' := elimina_colore db p c ora in
  ~ In (p, strip c) (colori_prodotti db')
  /\ (forall t, conta (taglie_prodotti db') p (strip c) t = 0%nat)
  /\ (forall k, k <> (p, strip c) ->
        (In k (colori_prodotti db') <-> In k (colori_prodotti db)))
  /\ (forall p' c', (p', c') <> (p, strip c) ->
        filter (del_colore p' c') (taglie_prodotti db')
        = filter (del_colore p' c') (taglie_prodotti db)).
Proof.
  intros Hc db'. subst db'. unfold elimina_colore. rewrite Hc. simpl.
  split; [|split; [|split]].
  - intros H. apply filter_In in H. destruct H as [_ H].
    assert (E : stessa_coppia (p, strip c) (p, strip c) = true)
      by (apply stessa_coppia_eq; reflexivity).
    rewrite E in H. discriminate.
  - intros t. unfold conta. rewrite filter_niente; [reflexivity|].
    intros r Hr. apply filter_In in Hr. destruct Hr as [_ Hr].
    unfold cella. destruct (del_colore p (strip c) r); [discriminate|reflexivity].
  - intros k Hk. rewrite filter_In. split; [tauto|]. intros H. split; [exact H|].
    apply negb_true_iff, stessa_coppia_false. exact Hk.
  - intros p' c' Hne. apply filter_sotto. intros r _ Hr.
    apply negb_true_iff, not_true_iff_false. intros Hr'.
    apply del_colore_true in Hr. apply del_colore_true in Hr'.
    destruct Hr as [E1 E2], Hr' as [E3 E4]. apply Hne.
    rewrite E2 in E4. injection E4 as <-. congruence.
Qed.

Lemma elimina_colore_cascata_witness :
  vuota (strip " Blu ") = false
  /\ ~ In ("P1", "Blu")
        (colori_prodotti (elimina_colore Esempi.db_due_colori "P1" " Blu " 9))
  /\ conta (taglie_prodotti (elimina_colore Esempi.db_due_colori "P1" " Blu " 9))
       "P1" "Blu" "42" = 0%nat.
Proof.
  assert (H : vuota (strip " Blu ") = false) by reflexivity.
  split; [exact H|].
  destruct (elimina_colore_cascata Esempi.db_due_colori "P1" " Blu " 9 H)
    as [A [B _]].
  split; [exact A | exact (B "42")].
Defined.

(** X2.  [aggiungi_colore] registers the trimmed label if it is not blank and not
    yet registered, appending it; it is a no-op on a blank label; it never
    touches products or stock; and a second identical call changes nothing. *)
Theorem aggiungi_colore_idempotente db p c :
  let db' := aggiungi_colore db p c in
  aggiungi_colore db' p c = db'
  /\ prodotti db' = prodotti db
  /\ taglie_prodotti db' = taglie_prodotti db
  /\ (vuota (strip c) = true -> db' = db)
  /\ (vuota (strip c) = false ->
        In (p, strip c) (colori_prodotti db')
        /\ (In (p, strip c) (colori_prodotti db) ->
              colori_prodotti db' = colori_prodotti db)
        /\ (~ In (p, strip c) (colori_prodotti db) ->
              colori_prodotti db' = colori_prodotti db ++ [(p, strip c)])).
Proof.
  intros db'. subst db'. unfold aggiungi_colore.
  destruct (vuota (strip c)) eqn:E.
  - repeat split; intros; try reflexivity; discriminate.
  - simpl. rewrite (insert_or_ignore_presente _ _ (insert_or_ignore_In _ _)).
    split; [reflexivity|]. split; [reflexivity|]. split; [reflexivity|].
    split; [discriminate|]. intros _.
    split; [apply insert_or_ignore_In|]. split.
    + apply insert_or_ignore_presente.
    + intros H. unfold insert_or_ignore.
      destruct (existsb (stessa_coppia (p, strip c)) (colori_prodotti db)) eqn:X;
        [|reflexivity].
      apply existsb_stessa_coppia in X. contradiction.
Qed.

(** *** The uniqueness constraint of [colori_prodotti] *)

Lemma NoDup_insert_or_ignore k C : NoDup C -> NoDup (insert_or_ignore k C).
Proof.
  intros H. unfold insert_or_ignore.
  destruct (existsb (stessa_coppia k) C) eqn:X; [exact H|].
  apply NoDup_app; [exact H | repeat constructor; intros [] |].
  intros a Ha [<-|[]]. apply existsb_stessa_coppia in Ha. congruence.
Qed.

Lemma NoDup_migra_prodotti g righe : forall C T,
  NoDup C -> NoDup (fst (migra_prodotti g righe C T)).
Proof.
  induction righe as [|[cod leg] righe IH]; intros C T H; simpl; [exact H|].
  destruct (g cod RegistraColore); [exact H|].
  destruct (g cod AssegnaColore); [apply NoDup_insert_or_ignore, H|].
  apply IH, NoDup_insert_or_ignore, H.
Qed.

Lemma ensure_stock_colore_colori db p c tipo ora :
  colori_prodotti (ensure_stock_colore db p c tipo ora)
  = insert_or_ignore (p, norm_colore c) (colori_prodotti db).
Proof. reflexivity. Qed.

Lemma NoDup_ricrea p tipo ora colori : forall i db,
  NoDup (colori_prodotti db) ->
  NoDup (colori_prodotti (ricrea db p tipo ora i colori)).
Proof.
  induction colori as [|c cs IH]; intros i db H; simpl; [exact H|].
  apply IH. rewrite ensure_stock_colore_colori. apply NoDup_insert_or_ignore, H.
Qed.

Lemma filter_length_zero {A} (f : A -> bool) (l : list A) x :
  Nat.ltb 0 (List.length (filter f l)) = false -> In x l -> f x = false.
Proof.
  intros H Hx. destruct (f x) eqn:F; [|reflexivity].
  assert (Hin : In x (filter f l)) by (apply filter_In; auto).
  destruct (filter f l); [destruct Hin|]. discriminate.
Qed.

(** The rename in place keeps the pairs distinct: it is only done when the
    new label is not registered for the product. *)
Lemma NoDup_rinomina_in_place p v n C :
  Nat.ltb 0 (List.length (filter (stessa_coppia (p, n)) C)) = false ->
  NoDup C ->
  NoDup (map (fun r => if stessa_coppia (p, v) r then (fst r, n) else r) C).
Proof.
  intros Hn H. apply NoDup_map_NoDup_ForallPairs; [|exact H].
  intros x y Hx Hy.
  pose proof (filter_length_zero _ _ _ Hn Hx) as Nx.
  pose proof (filter_length_zero _ _ _ Hn Hy) as Ny.
  apply stessa_coppia_false in Nx, Ny.
  destruct (stessa_coppia (p, v) x) eqn:Ex, (stessa_coppia (p, v) y) eqn:Ey.
  - apply stessa_coppia_eq in Ex, Ey. congruence.
  - apply stessa_coppia_eq in Ex. subst x. simpl. intros E. congruence.
  - apply stessa_coppia_eq in Ey. subst y. simpl. intros E. congruence.
  - auto.
Qed.

(** X3.  No writer ever breaks [UNIQUE(codice_prodotto, colore)]: from a table of
    distinct registrations every call leaves distinct registrations. *)
Theorem passo_colori_distinti db db' :
  passo db db' -> NoDup (colori_prodotti db) -> NoDup (colori_prodotti db').
Proof.
  intros Hp H. destruct Hp.
  - unfold init_database.
    pose proof (NoDup_migra_prodotti g
                  (select_legacy (inizializza_timestamp ora (prodotti db)))
                  (colori_prodotti db) (taglie_prodotti db) H) as A.
    destruct (migra_prodotti g _ _ _) as [C T]. exact A.
  - unfold aggiungi_colore. destruct (vuota (strip c)); [exact H|].
    apply NoDup_insert_or_ignore, H.
  - unfold rinomina_colore.
    destruct (vuota (strip v) || vuota (strip n)); [exact H|]. simpl.
    destruct (Nat.ltb 0 _) eqn:X; simpl.
    + apply NoDup_filter, H.
    + apply NoDup_rinomina_in_place; assumption.
  - unfold elimina_colore. destruct (vuota (strip c)); [exact H|].
    apply NoDup_filter, H.
  - apply NoDup_insert_or_ignore, H.
  - apply NoDup_ricrea. exact H.
  - unfold aggiorna_taglia_colore. destruct (negb (in_int64 q)); exact H.
  - unfold carica_stock_colore. destruct (qty <? 1)%Z; [exact H|].
    destruct (select_quantita _ _ _ _); [|exact H].
    destruct (negb (in_int64 qty)); [exact H|].
    destruct (select_quantita _ _ _ _); exact H.
  - unfold scarica_vendita_colore. destruct (qty <? 1)%Z; [exact H|].
    destruct (select_quantita _ _ _ _); [|exact H].
    destruct (_ <? qty)%Z; [exact H|].
    destruct (_ || _); exact H.
  - unfold set_stock_colore. destruct (set_stock_righe _ _ _ _); exact H.
  - unfold crea_prodotto. destruct (vuota (strip cod)); [exact H|].
    destruct (float_costo costo); [|exact H].
    destruct (find _ (prodotti db)).
    + rewrite lista_colori_solleva.
      destruct (negb _); simpl; destruct (Nat.eqb _ 0);
        solve [exact H | apply NoDup_insert_or_ignore, H].
    + simpl. repeat apply NoDup_insert_or_ignore. exact H.
  - unfold aggiorna_venduti. destruct (negb (in_int64 v)); exact H.
  - apply NoDup_filter, H.
Qed.

Lemma passo_colori_distinti_witness :
  NoDup (colori_prodotti Esempi.db_due_colori)
  /\ NoDup (colori_prodotti
              (rinomina_colore Esempi.db_due_colori "P1" "Blu" "Verde" 9)).
Proof.
  assert (H : NoDup (colori_prodotti Esempi.db_due_colori)).
  { vm_compute. repeat constructor; simpl; intuition discriminate. }
  split; [exact H|].
  exact (passo_colori_distinti _ _
           (passo_rinomina_colore Esempi.db_due_colori "P1" "Blu" "Verde" 9) H).
Defined.

(* ===================================================================== *)
(** ** One cell per key *)
(* ===================================================================== *)

Lemma conta_filter_le (f : riga_stock -> bool) T p c t :
  (conta (filter f T) p c t <= conta T p c t)%nat.
Proof.
  unfold conta. induction T as [|r T IH]; simpl; [lia|].
  destruct (f r); simpl; destruct (cella p c t r); simpl; lia.
Qed.

Lemma conta_snoc T r p c t :
  conta (T ++ [r]) p c t
  = (conta T p c t + if cella p c t r then 1 else 0)%nat.
Proof.
  rewrite conta_app. unfold conta at 2. simpl.
  destruct (cella p c t r); reflexivity.
Qed.

Lemma chiavi_snoc T r :
  (forall p c t, (conta T p c t <= 1)%nat) ->
  (forall p c t, cella p c t r = true -> conta T p c t = 0%nat) ->
  forall p c t, (conta (T ++ [r]) p c t <= 1)%nat.
Proof.
  intros H H0 p c t. rewrite conta_snoc.
  destruct (cella p c t r) eqn:E; [rewrite (H0 p c t E); lia|].
  specialize (H p c t). lia.
Qed.

Lemma cella_chiave p c t p' c' t' q :
  cella p' c' t' (mk_stock p (Some c) t q) = true ->
  p' = p /\ c' = c /\ t' = t.
Proof.
  intros H. apply cella_true in H. simpl in H.
  destruct H as [-> [E ->]]. injection E as ->. auto.
Qed.

Lemma chiavi_crea_mancanti p c ts : forall T,
  (forall p' c' t', (conta T p' c' t' <= 1)%nat) ->
  forall p' c' t', (conta (crea_mancanti p c ts T) p' c' t' <= 1)%nat.
Proof.
  induction ts as [|t ts IH]; intros T H; simpl; [exact H|].
  apply IH. destruct (Nat.eqb_spec (conta T p c t) 0) as [E|E]; [|exact H].
  apply chiavi_snoc; [exact H|].
  intros p' c' t' Hc. apply cella_chiave in Hc.
  destruct Hc as [-> [-> ->]]. exact E.
Qed.

Lemma chiavi_set_stock_righe p c mappa : forall T T',
  (forall p' c' t', (conta T p' c' t' <= 1)%nat) ->
  set_stock_righe p c mappa T = Some T' ->
  forall p' c' t', (conta T' p' c' t' <= 1)%nat.
Proof.
  induction mappa as [|[taglia qta] mappa IH]; intros T T' H S; simpl in S.
  - injection S as <-. exact H.
  - destruct (vuota (strip taglia)); [exact (IH T T' H S)|].
    destruct (negb (in_int64 _)); [discriminate|].
    refine (IH _ T' _ S).
    destruct (Nat.eqb_spec (conta T p c (strip taglia)) 0) as [E|E].
    + apply chiavi_snoc.
      * intros p' c' t'. rewrite conta_update_quantita. apply H.
      * intros p' c' t' Hc. apply cella_chiave in Hc.
        destruct Hc as [-> [-> ->]]. rewrite conta_update_quantita. exact E.
    + intros p' c' t'. rewrite conta_update_quantita. apply H.
Qed.

Lemma chiavi_ensure db p c tipo ora :
  chiavi_uniche db -> chiavi_uniche (ensure_stock_colore db p c tipo ora).
Proof. intros H. unfold chiavi_uniche. simpl. apply chiavi_crea_mancanti, H. Qed.

Lemma chiavi_ricrea p tipo ora colori : forall i db,
  chiavi_uniche db -> chiavi_uniche (ricrea db p tipo ora i colori).
Proof.
  induction colori as [|c cs IH]; intros i db H; simpl; [exact H|].
  apply IH, chiavi_ensure, H.
Qed.

Lemma chiavi_filter (f : riga_stock -> bool) T :
  (forall p c t, (conta T p c t <= 1)%nat) ->
  forall p c t, (conta (filter f T) p c t <= 1)%nat.
Proof.
  intros H p c t. pose proof (conta_filter_le f T p c t). specialize (H p c t). lia.
Qed.

(** X4.  Every writer other than the colour rename and the legacy migration keeps
    at most one stock cell per (product, colour, size). *)
Theorem passo_chiavi_uniche db db' :
  passo_senza_fusione db db' -> chiavi_uniche db -> chiavi_uniche db'.
Proof.
  intros Hp H. destruct Hp.
  - unfold aggiungi_colore. destruct (vuota (strip c)); exact H.
  - unfold elimina_colore. destruct (vuota (strip c)); [exact H|].
    unfold chiavi_uniche. simpl. apply chiavi_filter, H.
  - apply chiavi_ensure, H.
  - apply chiavi_ricrea. unfold chiavi_uniche. simpl. apply chiavi_filter, H.
  - unfold aggiorna_taglia_colore. destruct (negb (in_int64 q)); [exact H|].
    unfold chiavi_uniche. simpl. intros p' c' t'.
    rewrite conta_update_quantita. apply H.
  - unfold carica_stock_colore. destruct (qty <? 1)%Z; [exact H|].
    destruct (select_quantita _ _ _ _); [|exact H].
    destruct (negb (in_int64 qty)); [exact H|].
    destruct (select_quantita _ _ _ _); [|exact H].
    unfold chiavi_uniche. simpl. intros p' c' t'.
    rewrite conta_update_quantita. apply H.
  - unfold scarica_vendita_colore. destruct (qty <? 1)%Z; [exact H|].
    destruct (select_quantita _ _ _ _); [|exact H].
    destruct (_ <? qty)%Z; [exact H|].
    destruct (_ || _); [exact H|].
    unfold chiavi_uniche. simpl. intros p' c' t'.
    rewrite conta_update_quantita. apply H.
  - unfold set_stock_colore.
    destruct (set_stock_righe _ _ _ _) as [T'|] eqn:S; [|exact H].
    unfold chiavi_uniche. simpl. exact (chiavi_set_stock_righe _ _ _ _ _ H S).
  - unfold crea_prodotto. destruct (vuota (strip cod)); [exact H|].
    destruct (float_costo costo); [|exact H].
    destruct (find _ (prodotti db)).
    + rewrite lista_colori_solleva. destruct (negb _); exact H.
    + simpl snd. apply chiavi_ensure. exact H.
  - unfold aggiorna_venduti. destruct (negb (in_int64 v)); exact H.
  - unfold chiavi_uniche. simpl. apply chiavi_filter, H.
Qed.

Lemma passo_chiavi_uniche_witness :
  chiavi_uniche db_vuoto
  /\ chiavi_uniche (ensure_stock_colore db_vuoto "P1" "Blu" "NUMERI" 1).
Proof.
  assert (H : chiavi_uniche db_vuoto) by (intros p c t; apply Nat.le_0_l).
  split; [exact H|].
  exact (passo_chiavi_uniche _ _ (psf_ensure db_vuoto "P1" "Blu" "NUMERI" 1) H).
Defined.

(* ===================================================================== *)
(** ** Remaining stock *)
(* ===================================================================== *)

Lemma coalesce_sql_sum (l : list riga_stock) :
  coalesce (sql_sum (map t_quantita l)) 0 = totale_righe l.
Proof.
  induction l as [|r l IH]; simpl; [reflexivity|].
  rewrite <- IH.
  destruct (t_quantita r) as [v|], (sql_sum (map t_quantita l)) as [s|];
    simpl; lia.
Qed.

Lemma get_rimanenza_colore_eq db p c :
  get_rimanenza_colore db p c
  = totale_righe (filter (del_colore p (norm_colore c)) (taglie_prodotti db)).
Proof. apply coalesce_sql_sum. Qed.

Lemma get_rimanenza_totale_eq db p :
  get_rimanenza_totale db p
  = totale_righe (filter (fun r => t_codice_prodotto r =?= p) (taglie_prodotti db)).
Proof. apply coalesce_sql_sum. Qed.

Lemma totale_righe_app l1 l2 :
  totale_righe (l1 ++ l2) = totale_righe l1 + totale_righe l2.
Proof. induction l1 as [|r l1 IH]; simpl; [reflexivity|]. rewrite IH. lia. Qed.

Lemma totale_righe_zero l :
  Forall (fun r => t_quantita r = Some 0) l -> totale_righe l = 0.
Proof.
  induction 1 as [|r l Hr _ IH]; simpl; [reflexivity|]. rewrite Hr, IH. reflexivity.
Qed.

Lemma totale_filter_app (f : riga_stock -> bool) T nuove :
  Forall (fun r => t_quantita r = Some 0) nuove ->
  totale_righe (filter f (T ++ nuove)) = totale_righe (filter f T).
Proof.
  intros H. rewrite filter_app, totale_righe_app.
  rewrite (totale_righe_zero (filter f nuove)); [lia|].
  apply Forall_filter_keep, H.
Qed.

Lemma crea_mancanti_zeri p c ts T :
  exists nuove,
    crea_mancanti p c ts T = T ++ nuove
    /\ Forall (fun r => t_quantita r = Some 0) nuove.
Proof.
  destruct (crea_mancanti_estende p c ts T) as [nuove [E F]].
  exists nuove. split; [exact E|].
  eapply Forall_impl; [|exact F]. intros r [t [_ [-> _]]]. reflexivity.
Qed.

(** X5.  Reconciling never changes a total: the cells it adds hold 0. *)
Theorem ensure_stock_colore_rimanenza db p c tipo ora p' c' :
  let db' := ensure_stock_colore db p c tipo ora in
  get_rimanenza_colore db' p' c' = get_rimanenza_colore db p' c'
  /\ get_rimanenza_totale db' p' = get_rimanenza_totale db p'.
Proof.
  intros db'. subst db'.
  rewrite !get_rimanenza_colore_eq, !get_rimanenza_totale_eq. simpl.
  destruct (crea_mancanti_zeri p (norm_colore c) (_taglie_for_tipo tipo)
              (taglie_prodotti db)) as [nuove [-> F]].
  split; apply totale_filter_app, F.
Qed.

(** The loop of the reset appends cells of the product at quantity 0. *)
Lemma ricrea_estende p tipo ora colori : forall i db,
  exists nuove,
    taglie_prodotti (ricrea db p tipo ora i colori) = taglie_prodotti db ++ nuove
    /\ Forall (fun r => t_codice_prodotto r = p /\ t_quantita r = Some 0) nuove.
Proof.
  induction colori as [|c cs IH]; intros i db; simpl.
  - exists []. rewrite app_nil_r. split; [reflexivity|constructor].
  - destruct (IH (S i) (ensure_stock_colore db p c tipo (ora i)))
      as [nuove2 [E2 F2]].
    destruct (crea_mancanti_estende p (norm_colore c) (_taglie_for_tipo tipo)
                (taglie_prodotti db)) as [nuove1 [E1 F1]].
    exists (nuove1 ++ nuove2). split.
    + rewrite E2. simpl. rewrite E1, <- app_assoc. reflexivity.
    + apply Forall_app. split; [|exact F2].
      eapply Forall_impl; [|exact F1]. intros r [t [_ [-> _]]]. split; reflexivity.
Qed.

(** X6.  After the reset of a product its remaining stock is 0, in total and for
    every colour, whatever the store held; the totals of every other product
    are what they were. *)
Theorem reset_stock_prodotto_rimanenza db p tipo ora :
  let db' := reset_stock_prodotto db p tipo ora in
  get_rimanenza_totale db' p = 0
  /\ (forall c, get_rimanenza_colore db' p c = 0)
  /\ (forall p' c, p' <> p ->
        get_rimanenza_totale db' p' = get_rimanenza_totale db p'
        /\ get_rimanenza_colore db' p' c = get_rimanenza_colore db p' c).
Proof.
  intros db'. subst db'. unfold reset_stock_prodotto.
  set (T0 := filter (fun r => negb (t_codice_prodotto r =?= p)) (taglie_prodotti db)).
  destruct (ricrea_estende p tipo ora (select_colori (colori_prodotti db) p) 0
              (mk_db (prodotti db) (colori_prodotti db) T0)) as [nuove [E F]].
  simpl in E.
  assert (F0 : Forall (fun r => t_quantita r = Some 0) nuove)
    by (eapply Forall_impl; [|exact F]; intros r [_ H]; exact H).
  assert (Hp : forall (f : riga_stock -> bool),
             (forall r, f r = true -> t_codice_prodotto r = p) ->
             totale_righe (filter f (T0 ++ nuove)) = 0).
  { intros f Hf. rewrite totale_filter_app by exact F0.
    rewrite filter_niente; [reflexivity|].
    intros r Hr. apply filter_In in Hr. destruct Hr as [_ Hr].
    destruct (f r) eqn:X; [|reflexivity].
    rewrite (Hf r X), String.eqb_refl in Hr. discriminate. }
  assert (Ha : forall (f : riga_stock -> bool) p',
             p' <> p ->
             (forall r, f r = true -> t_codice_prodotto r = p') ->
             totale_righe (filter f (T0 ++ nuove))
             = totale_righe (filter f (taglie_prodotti db))).
  { intros f p' Hne Hf. rewrite totale_filter_app by exact F0.
    unfold T0. rewrite filter_sotto; [reflexivity|].
    intros r _ X. apply negb_true_iff, String.eqb_neq.
    rewrite (Hf r X). exact Hne. }
  rewrite get_rimanenza_totale_eq, E. split; [|split].
  - apply Hp. intros r X. apply String.eqb_eq. exact X.
  - intros c. rewrite get_rimanenza_colore_eq, E. apply Hp.
    intros r X. apply del_colore_true in X. apply X.
  - intros p' c Hne.
    rewrite !get_rimanenza_totale_eq, !get_rimanenza_colore_eq, E. split.
    + apply (Ha _ p' Hne). intros r X. apply String.eqb_eq. exact X.
    + apply (Ha _ p' Hne). intros r X. apply del_colore_true in X. apply X.
Qed.

Lemma conta_zero_select T p c t :
  conta T p c t = 0%nat <-> select_quantita T p c t = None.
Proof.
  rewrite select_None_nessuna. unfold conta, nessuna_cella. split.
  - intros H r Hr. destruct (cella p c t r) eqn:E; [|reflexivity].
    assert (Hin : In r (filter (cella p c t) T)) by (apply filter_In; auto).
    destruct (filter (cella p c t) T); [destruct Hin|discriminate].
  - intros H. rewrite filter_niente; [reflexivity|exact H].
Qed.

(** The effect on a sum of adding [qty] to every row of a key. *)
Lemma totale_update_somma p c t qty (g : riga_stock -> bool) T :
  (forall r q, g (con_quantita q r) = g r) ->
  (forall r, cella p c t r = true -> g r = true) ->
  totale_righe
    (filter g (update_quantita p c t (fun x => Some (coalesce x 0 + qty)) T))
  = totale_righe (filter g T) + qty * Z.of_nat (conta T p c t).
Proof.
  intros G1 G2. unfold update_quantita, conta.
  induction T as [|r T IH]; [simpl; lia|]. cbn [map filter].
  destruct (cella p c t r) eqn:E.
  - rewrite G1, (G2 r E). cbn [filter totale_righe fold_right List.length].
    fold (totale_righe (filter g T)).
    change (fold_right (fun r acc => coalesce (t_quantita r) 0 + acc) 0 ?l)
      with (totale_righe l).
    rewrite IH. simpl t_quantita. simpl coalesce. lia.
  - destruct (g r); cbn [totale_righe fold_right];
      change (fold_right (fun r acc => coalesce (t_quantita r) 0 + acc) 0 ?l)
        with (totale_righe l); rewrite IH; lia.
Qed.

(** Two updates that write the same in every cell of the key. *)
Lemma update_quantita_ext p c t f g T :
  (forall r, In r T -> cella p c t r = true -> f (t_quantita r) = g (t_quantita r)) ->
  update_quantita p c t f T = update_quantita p c t g T.
Proof.
  intros H. unfold update_quantita. apply map_ext_in. intros r Hr.
  destruct (cella p c t r) eqn:E; [|reflexivity]. rewrite (H r Hr E). reflexivity.
Qed.

(** Among non-negative quantities, each is at most the sum. *)
Lemma totale_righe_non_negativo l : Forall quantita_ok l -> 0 <= totale_righe l.
Proof.
  induction 1 as [|r l [q [E Hq]] _ IH]; simpl; [lia|].
  fold (totale_righe l). rewrite E. simpl. lia.
Qed.

Lemma riga_entro_totale l r :
  Forall quantita_ok l -> In r l ->
  exists q, t_quantita r = Some q /\ 0 <= q <= totale_righe l.
Proof.
  induction 1 as [|r0 l [q0 [E0 Hq0]] Hl IH]; intros Hr; [destruct Hr|].
  pose proof (totale_righe_non_negativo l Hl) as Hpos.
  simpl. fold (totale_righe l). rewrite E0. simpl.
  destruct Hr as [->|Hr].
  - exists q0. split; [exact E0|lia].
  - destruct (IH Hr) as [q [E Hq]]. exists q. split; [exact E|lia].
Qed.

(** On non-negative quantities, a load that keeps the total of the product
    within the 64-bit range adds [qty] exactly in every cell of the key. *)
Lemma carica_esatta db p c t qty :
  quantita_non_negative db ->
  1 <= qty ->
  conta (taglie_prodotti db) p c t <> 0%nat ->
  get_rimanenza_totale db p
    + Z.of_nat (conta (taglie_prodotti db) p c t) * qty <= max_int64 ->
  qty <= max_int64
  /\ update_quantita p c t (fun x => Some (sql_add (coalesce x 0) qty))
       (taglie_prodotti db)
     = update_quantita p c t (fun x => Some (coalesce x 0 + qty))
         (taglie_prodotti db).
Proof.
  intros Hpos Hq Hn Hmax. rewrite get_rimanenza_totale_eq in Hmax.
  set (F := filter (fun r => t_codice_prodotto r =?= p) (taglie_prodotti db)) in *.
  assert (HF : Forall quantita_ok F) by (apply Forall_filter_keep, Hpos).
  pose proof (totale_righe_non_negativo F HF) as Htot.
  assert (Hn1 : 1 <= Z.of_nat (conta (taglie_prodotti db) p c t)) by lia.
  assert (Hnq : qty <= Z.of_nat (conta (taglie_prodotti db) p c t) * qty) by nia.
  split; [lia|].
  apply update_quantita_ext. intros r Hr Hc.
  assert (HrF : In r F).
  { apply filter_In. split; [exact Hr|].
    apply cella_true in Hc. apply String.eqb_eq, Hc. }
  destruct (riga_entro_totale F r HF HrF) as [q [E Hqr]].
  rewrite E. simpl. f_equal.
  apply sql_add_cresce; unfold min_int64; lia.
Qed.

(** X7.  On a store of non-negative quantities, a load of [qty >= 1] on a key
    that has [n >= 1] rows, when the total of the product stays within the
    64-bit range, raises the total of the colour and the total of the
    product by [n * qty]: by exactly [qty] when the key has its one cell, by
    more when it has duplicates. *)
Theorem carica_stock_colore_rimanenza db p c t qty ora :
  quantita_non_negative db ->
  1 <= qty ->
  conta (taglie_prodotti db) p (norm_colore c) t <> 0%nat ->
  let n := Z.of_nat (conta (taglie_prodotti db) p (norm_colore c) t) in
  get_rimanenza_totale db p + n * qty <= max_int64 ->
  let db' := snd (carica_stock_colore db p c t qty ora) in
  get_rimanenza_colore db' p c = get_rimanenza_colore db p c + n * qty
  /\ get_rimanenza_totale db' p = get_rimanenza_totale db p + n * qty.
Proof.
  intros Hpos Hq Hn n Hmax db'. subst n db'.
  destruct (select_quantita (taglie_prodotti db) p (norm_colore c) t) as [q|] eqn:S;
    [|apply conta_zero_select in S; contradiction].
  destruct (carica_esatta db p (norm_colore c) t qty Hpos Hq Hn Hmax) as [Hb Hu].
  rewrite (carica_stock_colore_norm db p c t q qty ora S Hq Hb). simpl snd.
  rewrite !get_rimanenza_colore_eq, !get_rimanenza_totale_eq. simpl taglie_prodotti.
  rewrite Hu. split.
  - rewrite totale_update_somma; [lia|reflexivity|].
    intros r H. unfold cella in H. apply andb_true_iff in H. apply H.
  - rewrite totale_update_somma; [lia|reflexivity|].
    intros r H. apply cella_true in H. apply String.eqb_eq, H.
Qed.

(** Deciding on a concrete store that the quantities are not negative. *)
Ltac quantita_concrete :=
  unfold quantita_non_negative; vm_compute taglie_prodotti;
  repeat (apply Forall_cons; [eexists; split; [reflexivity|lia]|]);
  apply Forall_nil.

Lemma carica_stock_colore_rimanenza_witness :
  (quantita_non_negative Esempi.db_blu5
   /\ 1 <= 4
   /\ conta (taglie_prodotti Esempi.db_blu5) "P1" (norm_colore "Blu") "42" <> 0%nat
   /\ get_rimanenza_totale Esempi.db_blu5 "P1"
      + Z.of_nat (conta (taglie_prodotti Esempi.db_blu5) "P1" (norm_colore "Blu") "42")
        * 4 <= max_int64)
  /\ get_rimanenza_totale
       (snd (carica_stock_colore Esempi.db_blu5 "P1" "Blu" "42" 4 7)) "P1"
     = 5 + 1 * 4.
Proof.
  assert (H0 : quantita_non_negative Esempi.db_blu5) by quantita_concrete.
  assert (H1 : 1 <= 4) by lia.
  assert (H2 : conta (taglie_prodotti Esempi.db_blu5) "P1" (norm_colore "Blu") "42"
               <> 0%nat) by (vm_compute; discriminate).
  assert (H3 : get_rimanenza_totale Esempi.db_blu5 "P1"
               + Z.of_nat (conta (taglie_prodotti Esempi.db_blu5) "P1"
                             (norm_colore "Blu") "42") * 4 <= max_int64)
    by (vm_compute; discriminate).
  split; [split; [exact H0 | split; [exact H1 | split; [exact H2 | exact H3]]]|].
  exact (proj2 (carica_stock_colore_rimanenza Esempi.db_blu5 "P1" "Blu" "42" 4 7
                  H0 H1 H2 H3)).
Defined.

Lemma update_quantita_nessuna p c t f T :
  conta T p c t = 0%nat -> update_quantita p c t f T = T.
Proof.
  unfold conta, update_quantita. induction T as [|r T IH]; intros H; [reflexivity|].
  simpl in *. destruct (cella p c t r); [discriminate|]. rewrite IH; auto.
Qed.

(** Writing [x] in the one cell of a key changes a sum that includes the
    cell by [x] minus what the cell held. *)
Lemma totale_update_unica p c t x q0 (g : riga_stock -> bool) T :
  (forall r, cella p c t r = true -> g r = true) ->
  conta T p c t = 1%nat ->
  select_quantita T p c t = Some q0 ->
  totale_righe (filter g (update_quantita p c t (fun _ => Some x) T))
  = totale_righe (filter g T) - coalesce q0 0 + x.
Proof.
  intros G. unfold select_quantita.
  induction T as [|r T IH]; intros Hc Hs; [discriminate|].
  unfold conta in Hc. cbn [filter find] in Hc, Hs.
  unfold update_quantita. cbn [map].
  destruct (cella p c t r) eqn:E.
  - injection Hs as <-. simpl in Hc.
    assert (H0 : conta T p c t = 0%nat) by (unfold conta; lia).
    fold (update_quantita p c t (fun _ => Some x) T).
    rewrite (update_quantita_nessuna _ _ _ _ _ H0).
    cbn [filter]. replace (g (con_quantita (Some x) r)) with true
      by (symmetry; apply (G (con_quantita (Some x) r)); exact E).
    rewrite (G r E). simpl. lia.
  - fold (update_quantita p c t (fun _ => Some x) T). cbn [filter].
    specialize (IH Hc Hs).
    destruct (g r); simpl; fold (totale_righe (filter g T));
      change (fold_right (fun r acc => coalesce (t_quantita r) 0 + acc) 0 ?l)
        with (totale_righe l); rewrite IH; lia.
Qed.

(** X8.  On a store of non-negative quantities where the total of the
    product and the sold counter plus [qty] are within the 64-bit range, a
    successful sale on a key that has its one cell moves [qty] pieces from
    the remaining stock to the sold counter: the totals of the colour and of
    the product fall by [qty] and [venduti] grows by [qty], so remaining
    plus sold is conserved. *)
Theorem scarica_vendita_colore_conserva db p c t q v qty ora :
  quantita_non_negative db ->
  get_rimanenza_totale db p <= max_int64 ->
  conta (taglie_prodotti db) p (norm_colore c) t = 1%nat ->
  select_quantita (taglie_prodotti db) p (norm_colore c) t = Some (Some q) ->
  venduti_di (prodotti db) p = Some v ->
  min_int64 <= v -> v + qty <= max_int64 ->
  1 <= qty -> qty <= q ->
  let db' := snd (scarica_vendita_colore db p c t qty ora) in
  fst (scarica_vendita_colore db p c t qty ora) = Ritorna (q - qty)
  /\ get_rimanenza_colore db' p c = get_rimanenza_colore db p c - qty
  /\ get_rimanenza_totale db' p = get_rimanenza_totale db p - qty
  /\ venduti_di (prodotti db') p = Some (v + qty)
  /\ get_rimanenza_totale db' p + v + qty = get_rimanenza_totale db p + v.
Proof.
  intros Hpos Htot Hc Hs Hv Hv1 Hv2 H1 H2 db'. subst db'.
  assert (Hq : q <= max_int64).
  { rewrite get_rimanenza_totale_eq in Htot.
    unfold select_quantita in Hs.
    destruct (find _ (taglie_prodotti db)) as [r|] eqn:F; [|discriminate].
    apply find_some in F. destruct F as [Hr Hk].
    assert (HrF : In r (filter (fun r => t_codice_prodotto r =?= p)
                          (taglie_prodotti db))).
    { apply filter_In. split; [exact Hr|].
      apply cella_true in Hk. apply String.eqb_eq, Hk. }
    destruct (riga_entro_totale _ r (Forall_filter_keep _ _ _ Hpos) HrF)
      as [q' [E Hq']].
    simpl in Hs. injection Hs as Hs. rewrite E in Hs. injection Hs as ->. lia. }
  rewrite (scarica_vendita_colore_riesce db p c t q qty ora Hs H1 H2 Hq).
  cbn [fst snd]. rewrite !get_rimanenza_colore_eq, !get_rimanenza_totale_eq.
  simpl taglie_prodotti. simpl prodotti.
  assert (Ec : totale_righe
                 (filter (del_colore p (norm_colore c))
                    (update_quantita p (norm_colore c) t (fun _ => Some (q - qty))
                       (taglie_prodotti db)))
               = totale_righe (filter (del_colore p (norm_colore c))
                                 (taglie_prodotti db)) - qty).
  { rewrite (totale_update_unica _ _ _ _ (Some q)); [simpl; lia| |exact Hc|exact Hs].
    intros r H. unfold cella in H. apply andb_true_iff in H. apply H. }
  assert (Et : totale_righe
                 (filter (fun r => t_codice_prodotto r =?= p)
                    (update_quantita p (norm_colore c) t (fun _ => Some (q - qty))
                       (taglie_prodotti db)))
               = totale_righe (filter (fun r => t_codice_prodotto r =?= p)
                                 (taglie_prodotti db)) - qty).
  { rewrite (totale_update_unica _ _ _ _ (Some q)); [simpl; lia| |exact Hc|exact Hs].
    intros r H. apply cella_true in H. apply String.eqb_eq, H. }
  split; [reflexivity|]. split; [exact Ec|]. split; [exact Et|]. split; [|lia].
  rewrite venduti_registra, Hv. simpl. rewrite sql_add_cresce by lia. reflexivity.
Qed.

Lemma scarica_vendita_colore_conserva_witness :
  (quantita_non_negative Esempi.db_blu5
   /\ get_rimanenza_totale Esempi.db_blu5 "P1" <= max_int64
   /\ conta (taglie_prodotti Esempi.db_blu5) "P1" (norm_colore "Blu") "42" = 1%nat
   /\ select_quantita (taglie_prodotti Esempi.db_blu5) "P1" (norm_colore "Blu") "42"
      = Some (Some 5)
   /\ venduti_di (prodotti Esempi.db_blu5) "P1" = Some 0
   /\ min_int64 <= 0 /\ 0 + 3 <= max_int64
   /\ 1 <= 3 /\ 3 <= 5)
  /\ get_rimanenza_totale
       (snd (scarica_vendita_colore Esempi.db_blu5 "P1" "Blu" "42" 3 9)) "P1"
     = 5 - 3
  /\ venduti_di
       (prodotti (snd (scarica_vendita_colore Esempi.db_blu5 "P1" "Blu" "42" 3 9)))
       "P1" = Some (0 + 3).
Proof.
  assert (H0 : quantita_non_negative Esempi.db_blu5) by quantita_concrete.
  assert (Ht : get_rimanenza_totale Esempi.db_blu5 "P1" <= max_int64)
    by (vm_compute; discriminate).
  assert (H1 : conta (taglie_prodotti Esempi.db_blu5) "P1" (norm_colore "Blu") "42"
               = 1%nat) by reflexivity.
  assert (H2 : select_quantita (taglie_prodotti Esempi.db_blu5) "P1"
                 (norm_colore "Blu") "42" = Some (Some 5)) by reflexivity.
  assert (H3 : venduti_di (prodotti Esempi.db_blu5) "P1" = Some 0) by reflexivity.
  assert (H4 : min_int64 <= 0) by (vm_compute; discriminate).
  assert (H5 : 0 + 3 <= max_int64) by (vm_compute; discriminate).
  split; [repeat split; solve [assumption | lia]|].
  destruct (scarica_vendita_colore_conserva Esempi.db_blu5 "P1" "Blu" "42"
              5 0 3 9 H0 Ht H1 H2 H3 H4 H5 ltac:(lia) ltac:(lia))
    as [_ [_ [A [B _]]]].
  split; [exact A | exact B].
Defined.

(** *** Relabelling *)

Lemma totale_codice_map (f : riga_stock -> riga_stock) p T :
  (forall r, t_codice_prodotto (f r) = t_codice_prodotto r
             /\ t_quantita (f r) = t_quantita r) ->
  totale_righe (filter (fun r => t_codice_prodotto r =?= p) (map f T))
  = totale_righe (filter (fun r => t_codice_prodotto r =?= p) T).
Proof.
  intros H. induction T as [|r T IH]; [reflexivity|]. cbn [map filter].
  destruct (H r) as [E1 E2]. rewrite E1.
  destruct (t_codice_prodotto r =?= p); [|exact IH].
  simpl. rewrite E2. f_equal. exact IH.
Qed.

Lemma totale_migra_prodotti g righe p : forall C T,
  totale_righe (filter (fun r => t_codice_prodotto r =?= p)
                  (snd (migra_prodotti g righe C T)))
  = totale_righe (filter (fun r => t_codice_prodotto r =?= p) T).
Proof.
  induction righe as [|[cod leg] righe IH]; intros C T; simpl; [reflexivity|].
  destruct (g cod RegistraColore); [reflexivity|].
  destruct (g cod AssegnaColore); [reflexivity|].
  rewrite IH. unfold assegna_colore. apply totale_codice_map.
  intros r. destruct (_ && _); split; reflexivity.
Qed.

(** X9.  Relabelling never changes how much of a product remains: neither a
    colour rename nor the legacy migration (with or without a failing
    statement) changes the total of any product. *)
Theorem rietichettare_conserva_totale db p :
  (forall p0 v n ora,
     get_rimanenza_totale (rinomina_colore db p0 v n ora) p
     = get_rimanenza_totale db p)
  /\ (forall g ora,
        get_rimanenza_totale (init_database g db ora) p
        = get_rimanenza_totale db p).
Proof.
  split.
  - intros p0 v n ora. unfold rinomina_colore.
    destruct (vuota (strip v) || vuota (strip n)); [reflexivity|].
    rewrite !get_rimanenza_totale_eq. simpl taglie_prodotti.
    apply totale_codice_map. intros r.
    destruct (del_colore p0 (strip v) r); split; reflexivity.
  - intros g ora. rewrite !get_rimanenza_totale_eq. unfold init_database.
    pose proof (totale_migra_prodotti g
                  (select_legacy (inizializza_timestamp ora (prodotti db))) p
                  (colori_prodotti db) (taglie_prodotti db)) as A.
    destruct (migra_prodotti g _ _ _) as [C T]. exact A.
Qed.

Lemma norm_colore_non_vuota s : vuota (strip s) = false -> norm_colore s = strip s.
Proof. intros H. unfold norm_colore. rewrite H. reflexivity. Qed.

(** X10.  A rename between two different labels merges the stock: on a
    store of non-negative quantities where the two labels together hold no
    more than the 64-bit range, afterwards the new label holds what the two
    labels held together and the old one holds nothing. *)
Theorem rinomina_colore_fonde_rimanenze db p v n ora :
  quantita_non_negative db ->
  get_rimanenza_colore db p v + get_rimanenza_colore db p n <= max_int64 ->
  vuota (strip v) = false -> vuota (strip n) = false ->
  strip v <> strip n ->
  let db' := rinomina_colore db p v n ora in
  get_rimanenza_colore db' p n
  = get_rimanenza_colore db p v + get_rimanenza_colore db p n
  /\ get_rimanenza_colore db' p v = 0
  /\ quantita_non_negative db'
  /\ get_rimanenza_colore db' p n <= max_int64.
Proof.
  intros Hpos Hmax Hv Hn Hne db'. subst db'.
  assert (Hsum : get_rimanenza_colore (rinomina_colore db p v n ora) p n
                 = get_rimanenza_colore db p v + get_rimanenza_colore db p n
                 /\ get_rimanenza_colore (rinomina_colore db p v n ora) p v = 0).
  { rewrite !get_rimanenza_colore_eq, !(norm_colore_non_vuota _ Hv),
      !(norm_colore_non_vuota _ Hn).
    unfold rinomina_colore. rewrite Hv, Hn. simpl taglie_prodotti.
    induction (taglie_prodotti db) as [|r T [IH1 IH2]]; [split; reflexivity|].
    cbn [map filter].
    destruct (del_colore p (strip v) r) eqn:D.
    - assert (Dn : del_colore p (strip n) r = false).
      { apply not_true_iff_false. intros X.
        apply del_colore_true in D, X. destruct D as [_ D], X as [_ X]. congruence. }
      assert (Dn' : del_colore p (strip n) (con_colore (Some (strip n)) r) = true).
      { apply del_colore_true in D. apply del_colore_true. simpl. tauto. }
      assert (Dv' : del_colore p (strip v) (con_colore (Some (strip n)) r) = false).
      { apply not_true_iff_false. intros X. apply del_colore_true in X.
        simpl in X. destruct X as [_ X]. congruence. }
      rewrite Dn, Dn', Dv'. split; [|exact IH2].
      simpl. simpl in IH1. rewrite IH1. lia.
    - rewrite D. split; [|exact IH2].
      destruct (del_colore p (strip n) r); simpl; simpl in IH1; rewrite IH1; lia. }
  destruct Hsum as [E1 E2]. split; [exact E1|]. split; [exact E2|]. split.
  - unfold rinomina_colore. rewrite Hv, Hn. simpl.
    unfold quantita_non_negative. simpl. apply Forall_map.
    eapply Forall_impl; [|exact Hpos]. intros r Hr. simpl.
    destruct (del_colore p (strip v) r); [|exact Hr].
    apply quantita_ok_con_colore, Hr.
  - rewrite E1. exact Hmax.
Qed.

Lemma rinomina_colore_fonde_rimanenze_witness :
  (quantita_non_negative Esempi.db_due_colori
   /\ get_rimanenza_colore Esempi.db_due_colori "P1" "Blu"
      + get_rimanenza_colore Esempi.db_due_colori "P1" "Rosso" <= max_int64
   /\ vuota (strip "Blu") = false /\ vuota (strip "Rosso") = false
   /\ strip "Blu" <> strip "Rosso")
  /\ get_rimanenza_colore
       (rinomina_colore Esempi.db_due_colori "P1" "Blu" "Rosso" 9) "P1" "Rosso"
     = 5 + 0
  /\ get_rimanenza_colore
       (rinomina_colore Esempi.db_due_colori "P1" "Blu" "Rosso" 9) "P1" "Blu"
     = 0.
Proof.
  assert (H0 : quantita_non_negative Esempi.db_due_colori) by quantita_concrete.
  assert (Hm : get_rimanenza_colore Esempi.db_due_colori "P1" "Blu"
               + get_rimanenza_colore Esempi.db_due_colori "P1" "Rosso"
               <= max_int64) by (vm_compute; discriminate).
  assert (H1 : vuota (strip "Blu") = false) by reflexivity.
  assert (H2 : vuota (strip "Rosso") = false) by reflexivity.
  assert (H3 : strip "Blu" <> strip "Rosso") by (vm_compute; discriminate).
  split; [split; [exact H0 | split; [exact Hm | split; [exact H1 |
          split; [exact H2 | exact H3]]]]|].
  destruct (rinomina_colore_fonde_rimanenze Esempi.db_due_colori
              "P1" "Blu" "Rosso" 9 H0 Hm H1 H2 H3) as [A [B _]].
  split; [exact A | exact B].
Defined.

(** X11.  A rename of a registered colour to itself takes the registration away
    and leaves the stock cells where they are. *)
Theorem rinomina_colore_su_se_stesso db p c ora :
  vuota (strip c) = false ->
  In (p, strip c) (colori_prodotti db) ->
  let db' := rinomina_colore db p c c ora in
  ~ In (p, strip c) (colori_prodotti db')
  /\ taglie_prodotti db' = taglie_prodotti db
  /\ (forall k, k <> (p, strip c) ->
        (In k (colori_prodotti db') <-> In k (colori_prodotti db))).
Proof.
  intros Hc Hin db'. subst db'. unfold rinomina_colore. rewrite Hc. simpl.
  assert (X : Nat.ltb 0 (List.length (filter (stessa_coppia (p, strip c))
                                        (colori_prodotti db))) = true).
  { assert (Hf : In (p, strip c) (filter (stessa_coppia (p, strip c))
                                     (colori_prodotti db))).
    { apply filter_In. split; [exact Hin|]. apply stessa_coppia_eq. reflexivity. }
    destruct (filter _ _); [destruct Hf|reflexivity]. }
  rewrite X. simpl. split; [|split].
  - intros H. apply filter_In in H. destruct H as [_ H].
    apply negb_true_iff, stessa_coppia_false in H. congruence.
  - rewrite <- (map_id (taglie_prodotti db)) at 2. apply map_ext. intros r.
    destruct (del_colore p (strip c) r) eqn:D; [|reflexivity].
    apply del_colore_true in D. destruct D as [_ D].
    destruct r as [a b d e]. simpl in *. subst b. reflexivity.
  - intros k Hk. rewrite filter_In. split; [tauto|]. intros H. split; [exact H|].
    apply negb_true_iff, stessa_coppia_false. exact Hk.
Qed.

Lemma rinomina_colore_su_se_stesso_witness :
  (vuota (strip "Blu") = false
   /\ In ("P1", strip "Blu") (colori_prodotti Esempi.db_blu5))
  /\ ~ In ("P1", strip "Blu")
        (colori_prodotti (rinomina_colore Esempi.db_blu5 "P1" "Blu" "Blu" 9))
  /\ taglie_prodotti (rinomina_colore Esempi.db_blu5 "P1" "Blu" "Blu" 9)
     = taglie_prodotti Esempi.db_blu5.
Proof.
  assert (H1 : vuota (strip "Blu") = false) by reflexivity.
  assert (H2 : In ("P1", strip "Blu") (colori_prodotti Esempi.db_blu5))
    by (left; reflexivity).
  split; [split; [exact H1 | exact H2]|].
  destruct (rinomina_colore_su_se_stesso Esempi.db_blu5 "P1" "Blu" 9 H1 H2)
    as [A [B _]].
  split; [exact A | exact B].
Defined.

(* ===================================================================== *)
(** ** The order of the sizes *)
(* ===================================================================== *)

Section Ordinamento.

Context {A : Type}.
Variable chiave : A -> Z.

Lemma inserisci_per_perm x l :
  Permutation (inserisci_per (leb_chiave chiave) x l) (x :: l).
Proof.
  induction l as [|y l IH]; simpl; [apply Permutation_refl|].
  destruct (leb_chiave chiave x y); [apply Permutation_refl|].
  eapply Permutation_trans; [apply perm_skip, IH|apply perm_swap].
Qed.

Lemma order_by_perm l : Permutation (order_by (leb_chiave chiave) l) l.
Proof.
  induction l as [|x l IH]; simpl; [constructor|].
  eapply Permutation_trans; [apply inserisci_per_perm|apply perm_skip, IH].
Qed.

Lemma inserisci_per_sorted x l :
  StronglySorted (non_decrescente chiave) l ->
  StronglySorted (non_decrescente chiave)
    (inserisci_per (leb_chiave chiave) x l).
Proof.
  induction 1 as [|y l Hl IH Hy]; simpl; [repeat constructor|].
  unfold leb_chiave. destruct (Z.leb_spec (chiave x) (chiave y)) as [L|L].
  - constructor; [constructor; assumption|].
    constructor; [exact L|].
    eapply Forall_impl; [|exact Hy]. intros z Hz. unfold non_decrescente in *. lia.
  - constructor; [exact IH|].
    rewrite Forall_forall in *. intros z Hz.
    apply (Permutation_in _ (inserisci_per_perm x l)) in Hz.
    destruct Hz as [<-|Hz]; [unfold non_decrescente; lia|apply Hy, Hz].
Qed.

Lemma order_by_sorted l :
  StronglySorted (non_decrescente chiave) (order_by (leb_chiave chiave) l).
Proof.
  induction l as [|x l IH]; simpl; [constructor|].
  apply inserisci_per_sorted, IH.
Qed.

(** Two sorted lists with the same elements, the keys of which tell the
    elements apart, are the same list. *)
Lemma ordinata_unica (l1 : list A) : forall l2,
  (forall a b, In a l1 -> In b l1 -> chiave a = chiave b -> a = b) ->
  StronglySorted (non_decrescente chiave) l1 ->
  StronglySorted (non_decrescente chiave) l2 ->
  Permutation l1 l2 -> l1 = l2.
Proof.
  induction l1 as [|a l1 IH]; intros l2 Hinj S1 S2 P.
  - apply Permutation_nil in P. congruence.
  - destruct l2 as [|b l2];
      [apply Permutation_sym, Permutation_nil in P; discriminate|].
    inversion S1 as [|? ? S1' F1]; subst. inversion S2 as [|? ? S2' F2]; subst.
    rewrite Forall_forall in F1, F2.
    assert (Hb : In b (a :: l1))
      by (apply (Permutation_in _ (Permutation_sym P)); left; reflexivity).
    assert (Ha : In a (b :: l2))
      by (apply (Permutation_in _ P); left; reflexivity).
    assert (E : a = b).
    { apply Hinj; [left; reflexivity | exact Hb |].
      assert (chiave a <= chiave b)
        by (destruct Hb as [<-|Hb]; [lia|apply F1, Hb]).
      assert (chiave b <= chiave a)
        by (destruct Ha as [<-|Ha]; [lia|apply F2, Ha]).
      lia. }
    subst b. f_equal. apply IH; try assumption.
    + intros x y Hx Hy. apply Hinj; right; assumption.
    + exact (Permutation_cons_inv P).
Qed.

End Ordinamento.

Lemma StronglySorted_map {A B} (f : A -> B) (R : B -> B -> Prop) (l : list A) :
  StronglySorted (fun x y => R (f x) (f y)) l -> StronglySorted R (map f l).
Proof.
  induction 1 as [|x l Hl IH Hx]; simpl; constructor; [exact IH|].
  apply Forall_map. exact Hx.
Qed.

Lemma upper_ascii_idem a : upper_ascii (upper_ascii a) = upper_ascii a.
Proof.
  unfold upper_ascii at 2 3.
  destruct ((97 <=? N_of_ascii a) && (N_of_ascii a <=? 122))%N eqn:E;
    [|unfold upper_ascii; rewrite E; reflexivity].
  unfold upper_ascii. apply andb_true_iff in E. destruct E as [E1 E2].
  apply N.leb_le in E1, E2.
  rewrite N_ascii_embedding by lia.
  replace ((97 <=? N_of_ascii a - 32) && (N_of_ascii a - 32 <=? 122))%N with false;
    [reflexivity|].
  symmetry. apply andb_false_iff. left. apply N.leb_gt. lia.
Qed.

Lemma upper_idem s : upper (upper s) = upper s.
Proof.
  induction s as [|a s IH]; simpl; [reflexivity|].
  rewrite upper_ascii_idem, IH. reflexivity.
Qed.

Lemma tipo_taglie_di_upper db p :
  upper (tipo_taglie_di db p) = tipo_taglie_di db p.
Proof.
  unfold tipo_taglie_di. destruct (find _ (prodotti db)); [|reflexivity].
  apply upper_idem.
Qed.

(** The rows [get_taglie_colore] orders, with the sort applied. *)
Lemma get_taglie_colore_righe db p c :
  get_taglie_colore db p c
  = map (fun r => (t_taglia r, t_quantita r))
      (order_by (leb_chiave (fun r => chiave_taglia db p (t_taglia r)))
         (filter (del_colore p c) (taglie_prodotti db))).
Proof.
  unfold get_taglie_colore, chiave_taglia, leb_chiave.
  destruct (tipo_taglie_di db p =?= "LETTERE"); reflexivity.
Qed.

(** X12.  [get_taglie_colore] returns every cell of the colour exactly once, in
    non-decreasing order of the sort key of the product's scheme: the rank
    XS, S, M, L, XL, XXL with every other label last for the letter scheme,
    the integer value of the label otherwise. *)
Theorem get_taglie_colore_ordinata db p c :
  Permutation (get_taglie_colore db p c)
    (map (fun r => (t_taglia r, t_quantita r))
       (filter (del_colore p c) (taglie_prodotti db)))
  /\ StronglySorted
       (fun a b => chiave_taglia db p (fst a) <= chiave_taglia db p (fst b))
       (get_taglie_colore db p c).
Proof.
  rewrite get_taglie_colore_righe. split.
  - apply Permutation_map, order_by_perm.
  - apply StronglySorted_map. simpl.
    apply (order_by_sorted (fun r => chiave_taglia db p (t_taglia r))).
Qed.

(** The cast at and past the bounds of the range, and on labels that are
    not plain numbers. *)
Example sql_cast_integer_satura :
  sql_cast_integer "9223372036854775807" = max_int64
  /\ sql_cast_integer "9223372036854775808" = max_int64
  /\ sql_cast_integer "99999999999999999999" = max_int64
  /\ sql_cast_integer "-9223372036854775809" = min_int64
  /\ sql_cast_integer " -7" = -7
  /\ sql_cast_integer "12abc" = 12
  /\ sql_cast_integer "XL" = 0.
Proof. repeat split. Qed.

Lemma chiave_canonica_iniettiva db p a b :
  In a (_taglie_for_tipo (tipo_taglie_di db p)) ->
  In b (_taglie_for_tipo (tipo_taglie_di db p)) ->
  chiave_taglia db p a = chiave_taglia db p b -> a = b.
Proof.
  unfold _taglie_for_tipo, chiave_taglia. rewrite tipo_taglie_di_upper.
  destruct (tipo_taglie_di db p =?= "LETTERE"); simpl;
    intros Ha Hb;
    repeat (destruct Ha as [<-|Ha]; [|]);
    try (destruct Ha);
    repeat (destruct Hb as [<-|Hb]; [|]);
    try (destruct Hb);
    vm_compute; intros E; solve [reflexivity | discriminate E].
Qed.

Lemma canonica_ordinata db p :
  StronglySorted (fun a b => chiave_taglia db p a <= chiave_taglia db p b)
    (_taglie_for_tipo (tipo_taglie_di db p)).
Proof.
  unfold _taglie_for_tipo, chiave_taglia. rewrite tipo_taglie_di_upper.
  destruct (tipo_taglie_di db p =?= "LETTERE");
    repeat (constructor; [|repeat (constructor; [vm_compute; discriminate|]);
                           constructor]);
    constructor.
Qed.

(** X13.  When the sizes of a colour are the canonical sizes of the product's
    scheme, in whatever order their cells were inserted, [get_taglie_colore]
    lists them in the canonical order: XS, S, M, L, XL, or 38 up to 52. *)
Theorem get_taglie_colore_canonica db p c :
  Permutation (taglie_di (taglie_prodotti db) p c)
    (_taglie_for_tipo (tipo_taglie_di db p)) ->
  map fst (get_taglie_colore db p c) = _taglie_for_tipo (tipo_taglie_di db p).
Proof.
  intros P. rewrite get_taglie_colore_righe, map_map. simpl.
  set (righe := filter (del_colore p c) (taglie_prodotti db)) in *.
  set (k := fun r => chiave_taglia db p (t_taglia r)).
  assert (P' : Permutation (map t_taglia (order_by (leb_chiave k) righe))
                 (_taglie_for_tipo (tipo_taglie_di db p))).
  { eapply Permutation_trans; [apply Permutation_map, order_by_perm|exact P]. }
  apply Permutation_sym in P'. symmetry.
  apply (ordinata_unica (chiave_taglia db p)); [| | |exact P'].
  - apply chiave_canonica_iniettiva.
  - apply canonica_ordinata.
  - apply StronglySorted_map. apply (order_by_sorted k).
Qed.

Lemma get_taglie_colore_canonica_witness :
  Permutation (taglie_di (taglie_prodotti Esempi2.db_lettere_sparse) "P1" "Blu")
    (_taglie_for_tipo (tipo_taglie_di Esempi2.db_lettere_sparse "P1"))
  /\ map fst (get_taglie_colore Esempi2.db_lettere_sparse "P1" "Blu")
     = ["XS"; "S"; "M"; "L"; "XL"].
Proof.
  assert (H : Permutation
                (taglie_di (taglie_prodotti Esempi2.db_lettere_sparse) "P1" "Blu")
                (_taglie_for_tipo (tipo_taglie_di Esempi2.db_lettere_sparse "P1"))).
  { change (Permutation ["XL"; "M"; "XS"; "L"; "S"] ["XS"; "S"; "M"; "L"; "XL"]).
    apply NoDup_Permutation.
    - repeat (constructor; [simpl; intuition discriminate|]). constructor.
    - repeat (constructor; [simpl; intuition discriminate|]). constructor.
    - intros x. simpl. intuition auto. }
  split; [exact H|].
  exact (get_taglie_colore_canonica Esempi2.db_lettere_sparse "P1" "Blu" H).
Defined.

(* ===================================================================== *)
(** ** Creating, updating and deleting a product *)
(* ===================================================================== *)

Lemma find_app_None {A} (f : A -> bool) l1 l2 :
  find f l1 = None -> find f (l1 ++ l2) = find f l2.
Proof.
  induction l1 as [|x l1 IH]; simpl; [reflexivity|].
  destruct (f x); [discriminate|exact IH].
Qed.

Lemma find_tocca ora p p' P :
  option_map p_codice (find (fun r => p_codice r =?= p') (tocca ora p P))
  = option_map p_codice (find (fun r => p_codice r =?= p') P)
  /\ option_map p_venduti (find (fun r => p_codice r =?= p') (tocca ora p P))
     = option_map p_venduti (find (fun r => p_codice r =?= p') P)
  /\ option_map p_tipo_taglie (find (fun r => p_codice r =?= p') (tocca ora p P))
     = option_map p_tipo_taglie (find (fun r => p_codice r =?= p') P).
Proof.
  unfold tocca. induction P as [|r P IH]; [repeat split|]. cbn [map find].
  assert (E : p_codice (if p_codice r =?= p then con_updated_at ora r else r)
              = p_codice r) by (destruct (p_codice r =?= p); reflexivity).
  rewrite E. destruct (p_codice r =?= p'); [|exact IH].
  destruct (p_codice r =?= p); repeat split.
Qed.

(** X15.  [crea_prodotto] with a code that no product has.  When [float(costo)]
    raises, the call raises the same and the store is left as it was.
    Otherwise it creates the product with the given scheme and a sold
    counter of 0, registers its first colour (the legacy colour trimmed,
    [DEFAULT] when blank), gives that colour a cell for every canonical
    size, and appends only cells at quantity 0. *)
Theorem crea_prodotto_nuovo db cod col costo tipo ora :
  vuota (strip cod) = false ->
  find (fun r => p_codice r =?= strip cod) (prodotti db) = None ->
  (forall e, costo = CostoNonNumerico e ->
     crea_prodotto db cod col costo tipo ora = (Solleva e, db))
  /\
  (costo = SenzaCosto \/ costo = CostoNumerico ->
   let db' := snd (crea_prodotto db cod col costo tipo ora) in
   fst (crea_prodotto db cod col costo tipo ora) = Ritorna tt
   /\ venduti_di (prodotti db') (strip cod) = Some 0
   /\ option_map p_tipo_taglie
        (find (fun r => p_codice r =?= strip cod) (prodotti db'))
      = Some (Some tipo)
   /\ In (strip cod, norm_colore col) (colori_prodotti db')
   /\ (forall t, In t (_taglie_for_tipo tipo) ->
         conta (taglie_prodotti db') (strip cod) (norm_colore col) t <> 0%nat)
   /\ (exists nuove,
         taglie_prodotti db' = taglie_prodotti db ++ nuove
         /\ Forall (fun r => t_quantita r = Some 0) nuove)).
Proof.
  intros Hc Hf. split.
  { intros e ->. unfold crea_prodotto. rewrite Hc. reflexivity. }
  intros Hcosto db'. subst db'.
  assert (Hfl : float_costo costo = Ritorna tt)
    by (destruct Hcosto as [->| ->]; reflexivity).
  unfold crea_prodotto. rewrite Hc, Hfl, Hf.
  cbn [fst snd]. split; [reflexivity|].
  unfold ensure_stock_colore. cbn [prodotti colori_prodotti taglie_prodotti].
  rewrite norm_colore_idem.
  assert (Hnew : find (fun r => p_codice r =?= strip cod)
                   (prodotti db ++
                    [mk_prodotto (strip cod) (Some (strip col)) (Some tipo)
                       (Some 0) (Some (ora 0%nat)) (Some (ora 0%nat))])
                 = Some (mk_prodotto (strip cod) (Some (strip col)) (Some tipo)
                           (Some 0) (Some (ora 0%nat)) (Some (ora 0%nat)))).
  { rewrite (find_app_None _ _ _ Hf). simpl. rewrite String.eqb_refl. reflexivity. }
  destruct (find_tocca (ora 1%nat) (strip cod) (strip cod)
              (prodotti db ++
               [mk_prodotto (strip cod) (Some (strip col)) (Some tipo)
                  (Some 0) (Some (ora 0%nat)) (Some (ora 0%nat))]))
    as [_ [Ev Et]].
  rewrite Hnew in Ev, Et. simpl in Ev, Et.
  split; [|split; [exact Et|split; [|split]]].
  - unfold venduti_di.
    destruct (find _ (tocca _ _ _)) as [r|]; [|discriminate].
    simpl in *. injection Ev as ->. reflexivity.
  - apply insert_or_ignore_In.
  - intros t. apply crea_mancanti_presenti.
  - apply crea_mancanti_zeri.
Qed.

Lemma crea_prodotto_nuovo_witness :
  (vuota (strip " P2 ") = false
   /\ find (fun r => p_codice r =?= strip " P2 ") (prodotti Esempi.db_blu5) = None)
  /\ crea_prodotto Esempi.db_blu5 " P2 " "" (CostoNonNumerico (ValueError NonConvertibile))
       "LETTERE" (fun i => Z.of_nat i)
     = (Solleva (ValueError NonConvertibile), Esempi.db_blu5)
  /\ fst (crea_prodotto Esempi.db_blu5 " P2 " "" SenzaCosto "LETTERE"
            (fun i => Z.of_nat i))
     = Ritorna tt
  /\ In ("P2", "DEFAULT")
       (colori_prodotti
          (snd (crea_prodotto Esempi.db_blu5 " P2 " "" SenzaCosto "LETTERE"
                  (fun i => Z.of_nat i)))).
Proof.
  assert (H1 : vuota (strip " P2 ") = false) by reflexivity.
  assert (H2 : find (fun r => p_codice r =?= strip " P2 ")
                 (prodotti Esempi.db_blu5) = None) by reflexivity.
  split; [split; [exact H1 | exact H2]|].
  split.
  - exact (proj1 (crea_prodotto_nuovo Esempi.db_blu5 " P2 " ""
                    (CostoNonNumerico (ValueError NonConvertibile)) "LETTERE"
                    (fun i => Z.of_nat i) H1 H2) _ eq_refl).
  - destruct (proj2 (crea_prodotto_nuovo Esempi.db_blu5 " P2 " "" SenzaCosto
                       "LETTERE" (fun i => Z.of_nat i) H1 H2)
                (or_introl eq_refl)) as [A [_ [_ [B _]]]].
    split; [exact A | exact B].
Defined.

Lemma find_update_prodotto cod (f : prodotto -> prodotto) P :
  (forall r, p_codice (f r) = p_codice r) ->
  find (fun r => p_codice r =?= cod)
    (map (fun r => if p_codice r =?= cod then f r else r) P)
  = option_map f (find (fun r => p_codice r =?= cod) P).
Proof.
  intros H. induction P as [|r P IH]; [reflexivity|]. cbn [map find].
  destruct (p_codice r =?= cod) eqn:E.
  - rewrite H, E. reflexivity.
  - rewrite E. exact IH.
Qed.

(** X16.  [crea_prodotto] on an existing product, with a [costo] that [float]
    accepts, never touches the stock.  When the scheme given differs from
    the stored one, both in upper case as [str.upper] gives it, it stores
    the new scheme and then raises [UnboundLocalError] (from [lista_colori])
    before the cells are recreated; when the two are the same it returns.
    In both cases the sold counter is kept. *)
Theorem crea_prodotto_esistente db cod col costo tipo ora row :
  vuota (strip cod) = false ->
  find (fun r => p_codice r =?= strip cod) (prodotti db) = Some row ->
  costo = SenzaCosto \/ costo = CostoNumerico ->
  let cambia := negb (codici_eqb (py_upper (coalesce (p_tipo_taglie row) ""))
                        (py_upper tipo)) in
  let db' := snd (crea_prodotto db cod col costo tipo ora) in
  fst (crea_prodotto db cod col costo tipo ora)
    = (if cambia then Solleva (UnboundLocalError "colori") else Ritorna tt)
  /\ taglie_prodotti db' = taglie_prodotti db
  /\ option_map p_tipo_taglie
       (find (fun r => p_codice r =?= strip cod) (prodotti db'))
     = Some (Some tipo)
  /\ venduti_di (prodotti db') (strip cod) = venduti_di (prodotti db) (strip cod).
Proof.
  intros Hc Hf Hcosto cambia db'. subst cambia db'.
  assert (Hfl : float_costo costo = Ritorna tt)
    by (destruct Hcosto as [->| ->]; reflexivity).
  unfold crea_prodotto.
  rewrite Hc, Hfl, Hf, lista_colori_solleva.
  set (P' := map _ (prodotti db)).
  assert (Hfind : find (fun r => p_codice r =?= strip cod) P'
                  = Some (mk_prodotto (p_codice row) (Some (strip col)) (Some tipo)
                            (p_venduti row) (p_created_at row) (Some (ora 0%nat)))).
  { unfold P'.
    rewrite (find_update_prodotto (strip cod)
               (fun r => mk_prodotto (p_codice r) (Some (strip col)) (Some tipo)
                           (p_venduti r) (p_created_at r) (Some (ora 0%nat))));
      [rewrite Hf; reflexivity | reflexivity]. }
  destruct (negb _); cbn [fst snd prodotti taglie_prodotti];
    (split; [reflexivity|]); (split; [reflexivity|]);
    unfold venduti_di; rewrite Hfind, Hf; split; reflexivity.
Qed.

(** The stored scheme [NUMERI] against [LETTERE]: the call raises.  The
    stored scheme [numeri] followed by a small e with grave accent against
    the same in capitals: the two agree in upper case and the call
    returns. *)
Lemma crea_prodotto_esistente_witness :
  (vuota (strip "P1") = false
   /\ find (fun r => p_codice r =?= strip "P1") (prodotti Esempi.db_blu5)
      = Some (mk_prodotto "P1" (Some "") (Some "NUMERI") (Some 0) (Some 0) (Some 2))
   /\ find (fun r => p_codice r =?= strip "P1") (prodotti Esempi2.db_accento)
      = Some (mk_prodotto "P1" (Some "") (Some Esempi2.numeri_e_grave)
                (Some 0) (Some 0) (Some 0)))
  /\ fst (crea_prodotto Esempi.db_blu5 "P1" "" CostoNumerico "LETTERE"
            (fun i => Z.of_nat i))
     = Solleva (UnboundLocalError "colori")
  /\ taglie_prodotti
       (snd (crea_prodotto Esempi.db_blu5 "P1" "" CostoNumerico "LETTERE"
               (fun i => Z.of_nat i)))
     = taglie_prodotti Esempi.db_blu5
  /\ fst (crea_prodotto Esempi2.db_accento "P1" "" CostoNumerico
            Esempi2.NUMERI_E_GRAVE (fun i => Z.of_nat i))
     = Ritorna tt.
Proof.
  assert (H1 : vuota (strip "P1") = false) by reflexivity.
  assert (H2 : find (fun r => p_codice r =?= strip "P1") (prodotti Esempi.db_blu5)
               = Some (mk_prodotto "P1" (Some "") (Some "NUMERI") (Some 0)
                         (Some 0) (Some 2))) by reflexivity.
  assert (H3 : find (fun r => p_codice r =?= strip "P1") (prodotti Esempi2.db_accento)
               = Some (mk_prodotto "P1" (Some "") (Some Esempi2.numeri_e_grave)
                         (Some 0) (Some 0) (Some 0))) by reflexivity.
  split; [split; [exact H1 | split; [exact H2 | exact H3]]|].
  destruct (crea_prodotto_esistente Esempi.db_blu5 "P1" "" CostoNumerico "LETTERE"
              (fun i => Z.of_nat i) _ H1 H2 (or_intror eq_refl)) as [A [B _]].
  destruct (crea_prodotto_esistente Esempi2.db_accento "P1" "" CostoNumerico
              Esempi2.NUMERI_E_GRAVE (fun i => Z.of_nat i) _ H1 H3
              (or_intror eq_refl)) as [C _].
  split; [exact A | split; [exact B | exact C]].
Defined.

(** X17.  [elimina_prodotto] leaves no product row, no colour and no stock cell of
    the product, and keeps every row of every other product. *)
Theorem elimina_prodotto_tutto db p :
  let db' := elimina_prodotto db p in
  find (fun r => p_codice r =?= p) (prodotti db') = None
  /\ (forall c, ~ In (p, c) (colori_prodotti db'))
  /\ (forall r, In r (taglie_prodotti db') -> t_codice_prodotto r <> p)
  /\ get_rimanenza_totale db' p = 0
  /\ (forall p', p' <> p ->
        filter (fun r => p_codice r =?= p') (prodotti db')
        = filter (fun r => p_codice r =?= p') (prodotti db)
        /\ filter (fun r => fst r =?= p') (colori_prodotti db')
           = filter (fun r => fst r =?= p') (colori_prodotti db)
        /\ filter (fun r => t_codice_prodotto r =?= p') (taglie_prodotti db')
           = filter (fun r => t_codice_prodotto r =?= p') (taglie_prodotti db)).
Proof.
  intros db'. subst db'. unfold elimina_prodotto.
  cbn [prodotti colori_prodotti taglie_prodotti].
  assert (HT : forall r,
             In r (filter (fun r => negb (t_codice_prodotto r =?= p))
                     (taglie_prodotti db)) -> t_codice_prodotto r <> p).
  { intros r Hr. apply filter_In in Hr. destruct Hr as [_ Hr].
    apply negb_true_iff, String.eqb_neq in Hr. exact Hr. }
  split; [|split; [|split; [exact HT|split]]].
  - destruct (find _ _) as [r|] eqn:F; [|reflexivity].
    apply find_some in F. destruct F as [F1 F2].
    apply filter_In in F1. destruct F1 as [_ F1].
    rewrite F2 in F1. discriminate.
  - intros c H. apply filter_In in H. destruct H as [_ H].
    simpl in H. rewrite String.eqb_refl in H. discriminate.
  - rewrite get_rimanenza_totale_eq. cbn [taglie_prodotti].
    rewrite filter_niente; [reflexivity|].
    intros r Hr. apply String.eqb_neq. apply HT, Hr.
  - intros p' Hne. repeat split; apply filter_sotto; intros r _ X;
      apply String.eqb_eq in X; apply negb_true_iff, String.eqb_neq; congruence.
Qed.

(* ===================================================================== *)
(** ** Setting the stock of a colour *)
(* ===================================================================== *)

Lemma filter_cella_update_altra p c t f T p' c' t' :
  (p', c', t') <> (p, c, t) ->
  filter (cella p' c' t') (update_quantita p c t f T) = filter (cella p' c' t') T.
Proof.
  intros Hne. unfold update_quantita.
  induction T as [|r T IH]; [reflexivity|]. cbn [map filter].
  destruct (cella p c t r) eqn:E.
  - rewrite cella_con_quantita.
    assert (E' : cella p' c' t' r = false).
    { apply not_true_iff_false. intros E'.
      apply cella_true in E. apply cella_true in E'.
      destruct E as [<- [Ec <-]], E' as [<- [Ec' <-]]. apply Hne.
      rewrite Ec in Ec'. injection Ec' as <-. reflexivity. }
    rewrite E'. exact IH.
  - destruct (cella p' c' t' r); [f_equal|]; exact IH.
Qed.

Lemma filter_cella_snoc_altra T p c t q p' c' t' :
  (p', c', t') <> (p, c, t) ->
  filter (cella p' c' t') (T ++ [mk_stock p (Some c) t q])
  = filter (cella p' c' t') T.
Proof.
  intros Hne. rewrite filter_app. simpl.
  destruct (cella p' c' t' (mk_stock p (Some c) t q)) eqn:E;
    [|apply app_nil_r].
  apply cella_chiave in E. destruct E as [-> [-> ->]]. contradiction.
Qed.

(** What [set_stock_colore] stores is never below the 64-bit range. *)
Lemma quantita_impostata_legabile qta :
  in_int64 (quantita_impostata qta) = (quantita_impostata qta <=? max_int64).
Proof.
  unfold in_int64.
  replace (min_int64 <=? quantita_impostata qta) with true; [reflexivity|].
  symmetry. apply Z.leb_le. unfold quantita_impostata, min_int64.
  destruct (Z.ltb_spec (match qta with Some v => v | None => 0 end) 0); lia.
Qed.

Lemma set_stock_righe_cons p c taglia qta mappa T :
  set_stock_righe p c ((taglia, qta) :: mappa) T
  = if vuota (strip taglia) then set_stock_righe p c mappa T
    else if negb (in_int64 (quantita_impostata qta)) then None
    else set_stock_righe p c mappa
           (if Nat.eqb (conta T p c (strip taglia)) 0
            then update_quantita p c (strip taglia)
                   (fun _ => Some (quantita_impostata qta)) T
                 ++ [mk_stock p (Some c) (strip taglia)
                       (Some (quantita_impostata qta))]
            else update_quantita p c (strip taglia)
                   (fun _ => Some (quantita_impostata qta)) T).
Proof. reflexivity. Qed.

(** The loop runs to its end when every quantity given for a size can be
    bound, and is left when one cannot. *)
Lemma set_stock_righe_riesce p c mappa : forall T,
  (forall taglia qta, In (taglia, qta) mappa -> vuota (strip taglia) = false ->
     quantita_impostata qta <= max_int64) ->
  exists T', set_stock_righe p c mappa T = Some T'.
Proof.
  induction mappa as [|[taglia qta] mappa IH]; intros T H.
  - exists T. reflexivity.
  - rewrite set_stock_righe_cons.
    assert (Hresto : forall taglia qta, In (taglia, qta) mappa ->
                       vuota (strip taglia) = false ->
                       quantita_impostata qta <= max_int64)
      by (intros t0 q0 Hin; apply H; right; exact Hin).
    destruct (vuota (strip taglia)) eqn:V; [apply IH; exact Hresto|].
    rewrite quantita_impostata_legabile.
    replace (quantita_impostata qta <=? max_int64) with true
      by (symmetry; apply Z.leb_le; apply (H taglia qta); [left; reflexivity|exact V]).
    apply IH. exact Hresto.
Qed.

Lemma set_stock_righe_fallisce p c mappa : forall T,
  (exists taglia qta, In (taglia, qta) mappa /\ vuota (strip taglia) = false
                      /\ max_int64 < quantita_impostata qta) ->
  set_stock_righe p c mappa T = None.
Proof.
  induction mappa as [|[t0 q0] mappa IH]; intros T [taglia [qta [Hin [V Hq]]]];
    [destruct Hin|].
  rewrite set_stock_righe_cons.
  destruct Hin as [E|Hin].
  - injection E as -> ->. rewrite V, quantita_impostata_legabile.
    replace (quantita_impostata qta <=? max_int64) with false
      by (symmetry; apply Z.leb_gt; exact Hq).
    reflexivity.
  - assert (Hresto : set_stock_righe p c mappa
                       (if Nat.eqb (conta T p c (strip t0)) 0
                        then update_quantita p c (strip t0)
                               (fun _ => Some (quantita_impostata q0)) T
                             ++ [mk_stock p (Some c) (strip t0)
                                   (Some (quantita_impostata q0))]
                        else update_quantita p c (strip t0)
                               (fun _ => Some (quantita_impostata q0)) T) = None)
      by (apply IH; exists taglia, qta; auto).
    destruct (vuota (strip t0)); [apply IH; exists taglia, qta; auto|].
    destruct (negb _); [reflexivity|exact Hresto].
Qed.

(** The entries of the dictionary leave the cells of every other key. *)
Lemma set_stock_righe_altre p c mappa : forall T T' p' c' t',
  (forall x, In x mappa -> (p', c', t') <> (p, c, strip (fst x))) ->
  set_stock_righe p c mappa T = Some T' ->
  filter (cella p' c' t') T' = filter (cella p' c' t') T.
Proof.
  induction mappa as [|[taglia qta] mappa IH]; intros T T' p' c' t' H S.
  - injection S as <-. reflexivity.
  - rewrite set_stock_righe_cons in S.
    assert (Hresto : forall x, In x mappa -> (p', c', t') <> (p, c, strip (fst x)))
      by (intros x Hx; apply H; right; exact Hx).
    destruct (vuota (strip taglia)); [exact (IH _ _ _ _ _ Hresto S)|].
    destruct (negb _); [discriminate|].
    rewrite (IH _ _ _ _ _ Hresto S).
    pose proof (H (taglia, qta) (or_introl eq_refl)) as Hne. simpl in Hne.
    destruct (Nat.eqb _ 0).
    + rewrite filter_cella_snoc_altra by exact Hne.
      apply filter_cella_update_altra. exact Hne.
    + apply filter_cella_update_altra. exact Hne.
Qed.

Lemma conta_filter_cella T p c t :
  conta T p c t = List.length (filter (cella p c t) T).
Proof. reflexivity. Qed.

(** After a loop that ran to its end, every size given has a cell and every
    cell of it holds the value given. *)
Lemma set_stock_righe_scrive p c mappa : forall T T' taglia qta,
  NoDup (map (fun x => strip (fst x)) mappa) ->
  set_stock_righe p c mappa T = Some T' ->
  In (taglia, qta) mappa -> vuota (strip taglia) = false ->
  conta T' p c (strip taglia) <> 0%nat
  /\ forall r, In r T' -> cella p c (strip taglia) r = true ->
               t_quantita r = Some (quantita_impostata qta).
Proof.
  induction mappa as [|[t0 q0] mappa IH]; intros T T' taglia qta Hnd S Hin Hv;
    [destruct Hin|].
  simpl in Hnd. inversion Hnd as [|? ? Hnot Hnd']; subst.
  rewrite set_stock_righe_cons in S.
  destruct Hin as [E|Hin].
  - injection E as -> ->. rewrite Hv in S.
    destruct (negb _); [discriminate|].
    set (T2 := if Nat.eqb (conta T p c (strip taglia)) 0
               then update_quantita p c (strip taglia)
                      (fun _ => Some (quantita_impostata qta)) T
                    ++ [mk_stock p (Some c) (strip taglia)
                          (Some (quantita_impostata qta))]
               else update_quantita p c (strip taglia)
                      (fun _ => Some (quantita_impostata qta)) T) in *.
    assert (Hfil : filter (cella p c (strip taglia)) T'
                   = filter (cella p c (strip taglia)) T2).
    { apply (set_stock_righe_altre p c mappa T2); [|exact S]. intros x Hx E.
      injection E as E. apply Hnot. rewrite E.
      apply in_map_iff. exists x. auto. }
    assert (H2 : conta T2 p c (strip taglia) <> 0%nat
                 /\ forall r, In r T2 ->
                      cella p c (strip taglia) r = true ->
                      t_quantita r = Some (quantita_impostata qta)).
    { unfold T2.
      destruct (Nat.eqb_spec (conta T p c (strip taglia)) 0) as [Z|Z].
      - split.
        + rewrite conta_snoc.
          replace (cella p c (strip taglia)
                     (mk_stock p (Some c) (strip taglia)
                        (Some (quantita_impostata qta)))) with true; [lia|].
          symmetry. apply cella_true. auto.
        + intros r Hr Hc. apply in_app_or in Hr. destruct Hr as [Hr|[<-|[]]].
          * exact (update_quantita_scritta _ _ _ _ _ _ Hr Hc).
          * reflexivity.
      - split; [rewrite conta_update_quantita; exact Z|].
        intros r Hr Hc. exact (update_quantita_scritta _ _ _ _ _ _ Hr Hc). }
    destruct H2 as [H2a H2b]. split.
    + rewrite conta_filter_cella, Hfil, <- conta_filter_cella. exact H2a.
    + intros r Hr Hc.
      assert (Hf : In r (filter (cella p c (strip taglia)) T'))
        by (apply filter_In; auto).
      rewrite Hfil in Hf. apply filter_In in Hf. apply H2b; apply Hf.
  - destruct (vuota (strip t0)); [exact (IH _ _ _ _ Hnd' S Hin Hv)|].
    destruct (negb _); [discriminate|].
    exact (IH _ _ _ _ Hnd' S Hin Hv).
Qed.

(** X18.  [set_stock_colore] is an upsert.  For a dictionary whose sizes stay
    distinct once trimmed: when every value given for a size (not blank),
    clamped at 0 ([0] for a value that is not a number), is within the
    64-bit range, after the call every such size has a cell, every cell of
    that size holds the clamped value, and the cells of every other key are
    as they were; when one of them is past the range the store is left as
    it was.  Products and colour registrations are never touched. *)
Theorem set_stock_colore_upsert db p c mappa :
  NoDup (map (fun x => strip (fst x)) mappa) ->
  let db' := set_stock_colore db p c mappa in
  ((forall taglia qta, In (taglia, qta) mappa -> vuota (strip taglia) = false ->
      quantita_impostata qta <= max_int64) ->
   (forall taglia qta,
      In (taglia, qta) mappa -> vuota (strip taglia) = false ->
      conta (taglie_prodotti db') p (norm_colore c) (strip taglia) <> 0%nat
      /\ forall r, In r (taglie_prodotti db') ->
                   cella p (norm_colore c) (strip taglia) r = true ->
                   t_quantita r = Some (quantita_impostata qta))
   /\ (forall p' c' t',
         (forall x, In x mappa -> (p', c', t') <> (p, norm_colore c, strip (fst x))) ->
         filter (cella p' c' t') (taglie_prodotti db')
         = filter (cella p' c' t') (taglie_prodotti db)))
  /\ ((exists taglia qta, In (taglia, qta) mappa /\ vuota (strip taglia) = false
                          /\ max_int64 < quantita_impostata qta) ->
      db' = db)
  /\ prodotti db' = prodotti db
  /\ colori_prodotti db' = colori_prodotti db.
Proof.
  intros Hnd db'. subst db'. unfold set_stock_colore.
  split; [|split; [|destruct (set_stock_righe _ _ _ _); split; reflexivity]].
  - intros Hmax.
    destruct (set_stock_righe_riesce p (norm_colore c) mappa (taglie_prodotti db) Hmax)
      as [T' S].
    rewrite S. cbn [taglie_prodotti]. split.
    + intros taglia qta Hin Hv.
      exact (set_stock_righe_scrive _ _ _ _ _ _ _ Hnd S Hin Hv).
    + intros p' c' t' H. exact (set_stock_righe_altre _ _ _ _ _ _ _ _ H S).
  - intros Hex.
    rewrite (set_stock_righe_fallisce p (norm_colore c) mappa (taglie_prodotti db) Hex).
    reflexivity.
Qed.

Lemma set_stock_colore_upsert_witness :
  NoDup (map (fun x : string * option Z => strip (fst x))
           [(" 42 ", Some (-3)); ("60", Some 7)])
  /\ conta (taglie_prodotti
              (set_stock_colore Esempi.db_blu5 "P1" "Blu"
                 [(" 42 ", Some (-3)); ("60", Some 7)]))
       "P1" "Blu" "60" <> 0%nat
  /\ (forall r,
        In r (taglie_prodotti
                (set_stock_colore Esempi.db_blu5 "P1" "Blu"
                   [(" 42 ", Some (-3)); ("60", Some 7)])) ->
        cella "P1" "Blu" "42" r = true -> t_quantita r = Some 0).
Proof.
  assert (H : NoDup (map (fun x : string * option Z => strip (fst x))
                       [(" 42 ", Some (-3)); ("60", Some 7)])).
  { vm_compute. repeat (constructor; [simpl; intuition discriminate|]). constructor. }
  split; [exact H|].
  destruct (set_stock_colore_upsert Esempi.db_blu5 "P1" "Blu"
              [(" 42 ", Some (-3)); ("60", Some 7)] H) as [A _].
  assert (Hmax : forall taglia qta,
             In (taglia, qta) [(" 42 ", Some (-3)); ("60", Some 7)] ->
             vuota (strip taglia) = false -> quantita_impostata qta <= max_int64).
  { intros taglia qta [E|[E|[]]] _; injection E as <- <-; vm_compute; discriminate. }
  destruct (A Hmax) as [B _]. split.
  - apply (B "60" (Some 7)); [right; left; reflexivity | reflexivity].
  - apply (B " 42 " (Some (-3))); [left; reflexivity | reflexivity].
Defined.

(* ===================================================================== *)
(** ** Reconcile, then move stock *)
(* ===================================================================== *)

Lemma find_app_Some {A} (f : A -> bool) l1 l2 x :
  find f l1 = Some x -> find f (l1 ++ l2) = Some x.
Proof.
  induction l1 as [|y l1 IH]; simpl; [discriminate|].
  destruct (f y); [auto|exact IH].
Qed.

(** What a lookup finds after a reconciliation: the cell that was there, or
    a new cell at 0 for a canonical size that had none. *)
Lemma select_dopo_ensure db p c tipo ora t :
  In t (_taglie_for_tipo tipo) ->
  select_quantita (taglie_prodotti (ensure_stock_colore db p c tipo ora))
    p (norm_colore c) t
  = Some (match select_quantita (taglie_prodotti db) p (norm_colore c) t with
          | Some q => q
          | None => Some 0
          end).
Proof.
  intros Ht. unfold ensure_stock_colore. cbn [taglie_prodotti].
  pose proof (crea_mancanti_presenti p (norm_colore c) (_taglie_for_tipo tipo)
                (taglie_prodotti db) t Ht) as Hp.
  destruct (crea_mancanti_estende p (norm_colore c) (_taglie_for_tipo tipo)
              (taglie_prodotti db)) as [nuove [E F]].
  rewrite E in *. unfold select_quantita.
  destruct (find (cella p (norm_colore c) t) (taglie_prodotti db)) as [r|] eqn:Fd.
  - rewrite (find_app_Some _ _ _ _ Fd). reflexivity.
  - rewrite (find_app_None _ _ _ Fd).
    destruct (find (cella p (norm_colore c) t) nuove) as [r|] eqn:Fn.
    + apply find_some in Fn. destruct Fn as [Hr _].
      rewrite Forall_forall in F. destruct (F r Hr) as [t' [_ [-> _]]]. reflexivity.
    + exfalso. apply Hp.
      apply conta_zero_select. unfold select_quantita.
      rewrite (find_app_None _ _ _ Fd), Fn. reflexivity.
Qed.

(** X19.  After a reconciliation of a colour, a load of [qty >= 1] on any
    canonical size of the scheme finds its cell.  With [prima] what the cell
    held before the reconciliation (0 for a cell just created), a 64-bit
    integer: when [qty] and [prima + qty] are within the 64-bit range the
    load returns [prima + qty]; when [qty] is past the range the load raises
    [OverflowError] and leaves the reconciled store. *)
Theorem ensure_poi_carica db p c tipo ora ora' t qty :
  In t (_taglie_for_tipo tipo) ->
  1 <= qty ->
  let prima := match select_quantita (taglie_prodotti db) p (norm_colore c) t with
               | Some q => coalesce q 0
               | None => 0
               end in
  let db1 := ensure_stock_colore db p c tipo ora in
  (min_int64 <= prima -> qty <= max_int64 -> prima + qty <= max_int64 ->
   fst (carica_stock_colore db1 p c t qty ora') = Ritorna (prima + qty))
  /\ (max_int64 < qty ->
      carica_stock_colore db1 p c t qty ora' = (Solleva OverflowError, db1)).
Proof.
  intros Ht Hq prima db1. subst db1.
  pose proof (select_dopo_ensure db p c tipo ora t Ht) as S.
  split.
  - intros H1 H2 H3.
    rewrite (carica_stock_colore_norm _ p c t _ qty ora' S Hq H2).
    cbn [fst]. f_equal.
    replace (coalesce match select_quantita (taglie_prodotti db) p (norm_colore c) t with
                      | Some q => q
                      | None => Some 0
                      end 0) with prima
      by (unfold prima; destruct (select_quantita _ _ _ _); reflexivity).
    apply sql_add_cresce; assumption.
  - intros Hbig. unfold carica_stock_colore.
    replace (qty <? 1) with false by (symmetry; apply Z.ltb_ge; lia).
    rewrite S.
    replace (in_int64 qty) with false; [reflexivity|].
    symmetry. apply not_true_iff_false. rewrite in_int64_iff. lia.
Qed.

Lemma ensure_poi_carica_witness :
  (In "M" (_taglie_for_tipo "LETTERE") /\ 1 <= 2)
  /\ fst (carica_stock_colore
            (ensure_stock_colore Esempi.db_p1 "P1" "Blu" "LETTERE" 1)
            "P1" "Blu" "M" 2 2)
     = Ritorna 2
  /\ fst (carica_stock_colore
            (ensure_stock_colore Esempi.db_blu5 "P1" "Blu" "NUMERI" 3)
            "P1" "Blu" "42" 2 4)
     = Ritorna 7.
Proof.
  assert (H1 : In "M" (_taglie_for_tipo "LETTERE")) by (vm_compute; auto).
  assert (H2 : In "42" (_taglie_for_tipo "NUMERI")) by (vm_compute; auto).
  split; [split; [exact H1 | lia]|]. split.
  - apply (proj1 (ensure_poi_carica Esempi.db_p1 "P1" "Blu" "LETTERE" 1 2 "M" 2
                    H1 ltac:(lia))); vm_compute; discriminate.
  - apply (proj1 (ensure_poi_carica Esempi.db_blu5 "P1" "Blu" "NUMERI" 3 4 "42" 2
                    H2 ltac:(lia))); vm_compute; discriminate.
Defined.

(* ===================================================================== *)
(** ** Labels in the store *)
(* ===================================================================== *)

Lemma etichetta_normale_strip_iff c :
  etichetta_normale c -> strip c = c /\ c <> "".
Proof.
  unfold etichetta_normale, norm_colore. intros H.
  destruct (vuota (strip c)) eqn:E.
  - subst c. discriminate E.
  - split; [exact H|]. intros ->. discriminate E.
Qed.

(** X20.  From the empty store, whatever calls of the writers follow, no stored
    colour label is ever null, blank or padded with white space: neither on
    a stock cell nor in a registration. *)
Theorem etichette_mai_vuote db :
  esecuzione db_vuoto db ->
  (forall r, In r (taglie_prodotti db) ->
     exists c, t_colore r = Some c /\ strip c = c /\ c <> "")
  /\ (forall p c, In (p, c) (colori_prodotti db) -> strip c = c /\ c <> "").
Proof.
  intros H. destruct (etichette_dal_vuoto db H) as [HT HC]. split.
  - intros r Hr. unfold etichette_stock_normali in HT.
    rewrite Forall_forall in HT. destruct (HT r Hr) as [c [E N]].
    exists c. split; [exact E|]. apply etichetta_normale_strip_iff, N.
  - intros p c Hin. unfold colori_normali in HC. rewrite Forall_forall in HC.
    apply etichetta_normale_strip_iff. exact (HC (p, c) Hin).
Qed.

Lemma etichette_mai_vuote_witness :
  esecuzione db_vuoto (ensure_stock_colore db_vuoto "P1" "  " "NUMERI" 1)
  /\ (forall p c,
        In (p, c) (colori_prodotti
                     (ensure_stock_colore db_vuoto "P1" "  " "NUMERI" 1)) ->
        strip c = c /\ c <> "").
Proof.
  assert (H : esecuzione db_vuoto
                (ensure_stock_colore db_vuoto "P1" "  " "NUMERI" 1))
    by (eapply esecuzione_passo; [apply esecuzione_ferma|apply passo_ensure]).
  split; [exact H|].
  exact (proj2 (etichette_mai_vuote _ H)).
Defined.

(* ===================================================================== *)
(** ** Images: one principal image per product *)
(* ===================================================================== *)

Lemma filter_commuta {A} (f g : A -> bool) (l : list A) :
  filter f (filter g l) = filter g (filter f l).
Proof.
  induction l as [|x l IH]; simpl; [reflexivity|].
  destruct (f x) eqn:F, (g x) eqn:G; simpl; rewrite ?F, ?G, IH; reflexivity.
Qed.

Lemma filter_map_commuta {A} (f : A -> bool) (u : A -> A) (l : list A) :
  (forall x, f (u x) = f x) -> filter f (map u l) = map u (filter f l).
Proof.
  intros H. induction l as [|x l IH]; simpl; [reflexivity|].
  rewrite H. destruct (f x); simpl; rewrite IH; reflexivity.
Qed.

Lemma StronglySorted_filter_keep {A} (R : A -> A -> Prop) (f : A -> bool) l :
  StronglySorted R l -> StronglySorted R (filter f l).
Proof.
  induction 1 as [|x l Hl IH Hx]; simpl; [constructor|].
  destruct (f x); [|exact IH]. constructor; [exact IH|].
  apply Forall_filter_keep, Hx.
Qed.

Lemma StronglySorted_snoc {A} (R : A -> A -> Prop) l x :
  StronglySorted R l -> Forall (fun y => R y x) l -> StronglySorted R (l ++ [x]).
Proof.
  induction 1 as [|y l Hl IH Hy]; intros F; simpl; [repeat constructor|].
  inversion F as [|? ? Fy Fl]; subst. constructor; [apply IH, Fl|].
  apply Forall_app. split; [exact Hy|]. constructor; [exact Fy|constructor].
Qed.

Lemma StronglySorted_weaken {A} (R S : A -> A -> Prop) l :
  (forall a b, R a b -> S a b) -> StronglySorted R l -> StronglySorted S l.
Proof.
  intros H. induction 1 as [|x l Hl IH Hx]; constructor; [exact IH|].
  eapply Forall_impl; [|exact Hx]. intros a. apply H.
Qed.

(** Sorting rows that already are in order returns them as they are. *)
Lemma order_by_gia_ordinata {A} (leb : A -> A -> bool) l :
  StronglySorted (fun a b => leb a b = true) l -> order_by leb l = l.
Proof.
  induction 1 as [|x l Hl IH Hx]; simpl; [reflexivity|].
  fold (order_by leb l). rewrite IH.
  destruct l as [|y l']; [reflexivity|]. simpl.
  inversion Hx as [|? ? Hxy _]; subst. rewrite Hxy. reflexivity.
Qed.

Lemma sql_max_ge l x :
  In (Some x) l -> exists m, sql_max l = Some m /\ x <= m.
Proof.
  induction l as [|y l IH]; intros H; [destruct H|]. simpl.
  destruct H as [->|H].
  - destruct (sql_max l) as [m|]; eexists; split; try reflexivity; lia.
  - destruct (IH H) as [m [E L]]. rewrite E.
    destruct y as [v|]; eexists; split; try reflexivity; lia.
Qed.

Lemma fold_max_ge ids a : In a ids -> a <= fold_right Z.max 0 ids.
Proof.
  induction ids as [|b ids IH]; intros H; [destruct H|]. simpl.
  destruct H as [->|H]; [lia|]. specialize (IH H). lia.
Qed.

Lemma prossimo_id_nuovo seq ids : ~ In (prossimo_id seq ids) ids.
Proof.
  intros H. apply fold_max_ge in H. unfold prossimo_id in H. lia.
Qed.

Lemma NoDup_map_filter {A B} (h : A -> B) (f : A -> bool) l :
  NoDup (map h l) -> NoDup (map h (filter f l)).
Proof.
  induction l as [|x l IH]; simpl; intros H; [constructor|].
  inversion H as [|? ? Hn Hd]; subst.
  destruct (f x); [|apply IH, Hd]. simpl. constructor; [|apply IH, Hd].
  intros Hin. apply Hn. apply in_map_iff in Hin. destruct Hin as [y [E Hy]].
  apply filter_In in Hy. apply in_map_iff. exists y. tauto.
Qed.

Lemma NoDup_map_stesso {A B} (h : A -> B) l a b :
  NoDup (map h l) -> In a l -> In b l -> h a = h b -> a = b.
Proof.
  induction l as [|x l IH]; simpl; intros H Ha Hb E; [destruct Ha|].
  inversion H as [|? ? Hn Hd]; subst.
  destruct Ha as [->|Ha], Hb as [->|Hb].
  - reflexivity.
  - exfalso. apply Hn. rewrite E. apply in_map, Hb.
  - exfalso. apply Hn. rewrite <- E. apply in_map, Ha.
  - apply IH; assumption.
Qed.

Lemma prima_di_leb a b : prima_di a b -> leb_ordine a b = true.
Proof.
  unfold prima_di, leb_ordine.
  destruct (i_ordine a), (i_ordine b); try tauto. intros H. apply Z.leb_le. lia.
Qed.

Lemma galleria_ordinata l :
  StronglySorted prima_di l -> order_by leb_ordine l = l.
Proof.
  intros H. apply order_by_gia_ordinata.
  exact (StronglySorted_weaken _ _ _ prima_di_leb H).
Qed.

Lemma aggiungi_immagine_ok os I p percorso uuid copia :
  immagini_ok I ->
  immagini_ok (snd (aggiungi_immagine os I p percorso uuid copia)).
Proof.
  intros [Hid Hg]. unfold aggiungi_immagine.
  destruct (negb (existsb _ _)); [split; assumption|].
  destruct (negb copia); [split; assumption|].
  cbn [snd]. split; cbn [righe_immagini].
  - rewrite map_app. simpl. apply NoDup_app; [exact Hid| |].
    + constructor; [intros []|constructor].
    + intros a Ha [<-|[]]. exact (prossimo_id_nuovo _ _ Ha).
  - intros q. rewrite filter_app. cbn [filter].
    unfold dell_articolo at 2. cbn [i_codice_prodotto].
    destruct (String.eqb_spec p q) as [<-|Hne]; [|rewrite app_nil_r; apply Hg].
    destruct (Hg p) as [S [N F]].
    set (l := filter (dell_articolo p) (righe_immagini I)) in *.
    split; [|split].
    + apply StronglySorted_snoc; [exact S|].
      rewrite Forall_forall in *. intros r Hr.
      unfold prima_di. cbn [i_ordine].
      destruct (i_ordine r) as [x|] eqn:E; [|exact (N r Hr E)].
      assert (Hin : In (Some x) (map i_ordine l))
        by (rewrite <- E; apply in_map, Hr).
      destruct (sql_max_ge _ _ Hin) as [m [-> L]]. simpl. lia.
    + apply Forall_app. split; [exact N|].
      constructor; [discriminate|constructor].
    + destruct l as [|x rest]; simpl; [split; [reflexivity|constructor]|].
      destruct F as [F1 F2]. split; [exact F1|].
      apply Forall_app. split; [exact F2|].
      constructor; [reflexivity|constructor].
Qed.

Lemma con_principale_prima v x y : prima_di (con_principale v x) y <-> prima_di x y.
Proof. reflexivity. Qed.

Lemma elimina_immagine_ok I id :
  immagini_ok I -> immagini_ok (snd (elimina_immagine I id)).
Proof.
  intros [Hid Hg]. unfold elimina_immagine.
  destruct (find _ (righe_immagini I)) as [row|] eqn:Fd; [|split; assumption].
  cbn [snd]. apply find_some in Fd. destruct Fd as [Hrow Erow].
  apply Z.eqb_eq in Erow.
  set (p := i_codice_prodotto row).
  set (tiene := fun r : immagine => negb (i_id r =? id)%Z).
  set (righe1 := filter tiene (righe_immagini I)).
  (* the rows that go are the row found *)
  assert (Hsolo : forall r, In r (righe_immagini I) -> tiene r = false -> r = row).
  { intros r Hr Ht. unfold tiene in Ht. apply negb_false_iff, Z.eqb_eq in Ht.
    apply (NoDup_map_stesso i_id _ _ _ Hid Hr Hrow). congruence. }
  assert (Hid1 : NoDup (map i_id righe1)) by (apply NoDup_map_filter, Hid).
  assert (Hq1 : forall q, filter (dell_articolo q) righe1
                          = filter tiene (filter (dell_articolo q) (righe_immagini I)))
    by (intros q; unfold righe1; apply filter_commuta).
  assert (Haltri : forall q, q <> p ->
             filter (dell_articolo q) righe1
             = filter (dell_articolo q) (righe_immagini I)).
  { intros q Hne. unfold righe1. rewrite filter_sotto; [reflexivity|].
    intros r Hr Hd. destruct (tiene r) eqn:T; [reflexivity|].
    rewrite (Hsolo r Hr T) in Hd. unfold dell_articolo in Hd.
    apply String.eqb_eq in Hd. exfalso. apply Hne. symmetry. exact Hd. }
  assert (Hs1 : forall q, StronglySorted prima_di (filter (dell_articolo q) righe1)
                          /\ Forall (fun r => i_ordine r <> None)
                               (filter (dell_articolo q) righe1)).
  { intros q. rewrite Hq1. destruct (Hg q) as [S [N _]]. split.
    - apply StronglySorted_filter_keep, S.
    - apply Forall_filter_keep, N. }
  destruct (Hs1 p) as [Sp Np].
  rewrite (galleria_ordinata _ Sp).
  destruct (filter (dell_articolo p) righe1) as [|x rest1] eqn:Lp.
  - (* no image of the product is left *)
    split; [exact Hid1|]. cbn [righe_immagini]. intros q.
    destruct (String.eqb_spec q p) as [->|Hne].
    + rewrite Lp. split; [constructor|split; [constructor|simpl; trivial]].
    + rewrite (Haltri q Hne). apply Hg.
  - (* the first image left becomes principal *)
    set (upd := fun y : immagine =>
                  if (i_id y =? i_id x)%Z then con_principale 1 y else y).
    assert (Hupd_id : forall y, i_id (upd y) = i_id y)
      by (intros y; unfold upd; destruct (i_id y =? i_id x)%Z; reflexivity).
    assert (Hupd_cod : forall q y, dell_articolo q (upd y) = dell_articolo q y)
      by (intros q y; unfold upd; destruct (i_id y =? i_id x)%Z; reflexivity).
    assert (Hx : In x righe1 /\ i_codice_prodotto x = p).
    { assert (Hin : In x (filter (dell_articolo p) righe1))
        by (rewrite Lp; left; reflexivity).
      apply filter_In in Hin. destruct Hin as [A B]. split; [exact A|].
      apply String.eqb_eq. exact B. }
    destruct Hx as [Hx1 Hxp].
    assert (Hfermo : forall y, In y righe1 -> y <> x -> upd y = y).
    { intros y Hy Hne. unfold upd.
      destruct (Z.eqb_spec (i_id y) (i_id x)) as [E|E]; [|reflexivity].
      exfalso. apply Hne. exact (NoDup_map_stesso i_id _ _ _ Hid1 Hy Hx1 E). }
    split; cbn [righe_immagini].
    + rewrite map_map. rewrite (map_ext _ i_id Hupd_id). exact Hid1.
    + intros q. rewrite (filter_map_commuta _ _ _ (Hupd_cod q)).
      destruct (String.eqb_spec q p) as [->|Hne].
      * rewrite Lp. cbn [map]. unfold upd at 1. rewrite Z.eqb_refl.
        assert (Hrest : map upd rest1 = rest1).
        { rewrite <- (map_id rest1) at 2. apply map_ext_in. intros y Hy.
          assert (Hy1 : In y righe1).
          { assert (Hin : In y (filter (dell_articolo p) righe1))
              by (rewrite Lp; right; exact Hy).
            apply filter_In in Hin. apply Hin. }
          apply Hfermo; [exact Hy1|]. intros ->.
          (* [x] cannot occur again after itself *)
          assert (Hnd : NoDup (map i_id (x :: rest1)))
            by (rewrite <- Lp; apply NoDup_map_filter, Hid1).
          simpl in Hnd. inversion Hnd as [|? ? Hn _]; subst.
          apply Hn. apply in_map, Hy. }
        rewrite Hrest.
        inversion Sp as [|? ? Srest Fx]; subst.
        inversion Np as [|? ? Nx Nrest]; subst.
        split; [|split].
        -- constructor; [exact Srest|exact Fx].
        -- constructor; [exact Nx|exact Nrest].
        -- split; [reflexivity|].
           destruct (Hg p) as [_ [_ Fl]].
           rewrite Hq1 in Lp.
           destruct (filter (dell_articolo p) (righe_immagini I)) as [|x0 rest0];
             [discriminate Lp|].
           destruct Fl as [_ F0]. rewrite Forall_forall in *.
           intros y Hy. apply F0.
           simpl in Lp. destruct (tiene x0).
           ++ injection Lp as _ <-. apply filter_In in Hy. apply Hy.
           ++ assert (Hin : In y (filter tiene rest0))
                by (rewrite Lp; right; exact Hy).
              apply filter_In in Hin. apply Hin.
      * rewrite (Haltri q Hne).
        assert (E : map upd (filter (dell_articolo q) (righe_immagini I))
                    = filter (dell_articolo q) (righe_immagini I)).
        { transitivity (map (fun y : immagine => y)
                          (filter (dell_articolo q) (righe_immagini I)));
            [|apply map_id].
          apply map_ext_in. intros y Hy.
          rewrite <- (Haltri q Hne) in Hy. apply filter_In in Hy.
          destruct Hy as [Hy1 Hy2]. apply Hfermo; [exact Hy1|].
          intros ->. unfold dell_articolo in Hy2.
          apply String.eqb_eq in Hy2. congruence. }
        rewrite E. apply Hg.
Qed.

Lemma storia_immagini_ok os I : storia_immagini os I -> immagini_ok I.
Proof.
  induction 1 as [seq|I p percorso uuid copia _ IH|I id _ IH].
  - split; [constructor|]. intros p. split; [constructor|split; [constructor|simpl; trivial]].
  - apply aggiungi_immagine_ok, IH.
  - apply elimina_immagine_ok, IH.
Qed.

Lemma find_filter {A} (f g : A -> bool) (l : list A) :
  find (fun r => f r && g r) l = find g (filter f l).
Proof.
  induction l as [|x l IH]; simpl; [reflexivity|].
  destruct (f x); simpl; [destruct (g x); [reflexivity|exact IH]|exact IH].
Qed.

Lemma filter_and {A} (f g : A -> bool) (l : list A) :
  filter (fun r => f r && g r) l = filter g (filter f l).
Proof.
  induction l as [|x l IH]; simpl; [reflexivity|].
  destruct (f x); simpl; [destruct (g x); rewrite IH; reflexivity|exact IH].
Qed.

(** X21.  Whatever images are added and deleted, starting from none: a product
    that has images has exactly one principal image, it is the first image
    of [lista_immagini] (the one of lowest position), and it is the one
    [get_immagine_principale] returns. *)
Theorem immagine_principale_unica os I p :
  storia_immagini os I ->
  filter (dell_articolo p) (righe_immagini I) <> [] ->
  exists x,
    hd_error (lista_immagini I p)
      = Some (i_id x, i_percorso_file x, i_ordine x, Some 1)
    /\ get_immagine_principale I p = Some (i_id x, i_percorso_file x)
    /\ filter (fun r => dell_articolo p r && e_principale r) (righe_immagini I)
       = [x].
Proof.
  intros Hs Hne. destruct (storia_immagini_ok os I Hs) as [_ Hg].
  destruct (Hg p) as [S [_ F]].
  unfold lista_immagini, get_immagine_principale.
  rewrite (galleria_ordinata _ S), find_filter, filter_and.
  destruct (filter (dell_articolo p) (righe_immagini I)) as [|x rest];
    [contradiction|].
  destruct F as [F1 F2]. exists x.
  assert (Ex : e_principale x = true) by (unfold e_principale; rewrite F1; reflexivity).
  simpl. rewrite Ex, F1. repeat split. f_equal.
  apply filter_niente. rewrite Forall_forall in F2. intros y Hy.
  unfold e_principale. rewrite (F2 y Hy). reflexivity.
Qed.

Lemma immagine_principale_unica_witness :
  (storia_immagini Esempi3.os_finto Esempi3.resta_la_seconda
   /\ filter (dell_articolo "P1") (righe_immagini Esempi3.resta_la_seconda) <> [])
  /\ exists x,
       hd_error (lista_immagini Esempi3.resta_la_seconda "P1")
         = Some (i_id x, i_percorso_file x, i_ordine x, Some 1)
       /\ get_immagine_principale Esempi3.resta_la_seconda "P1"
          = Some (i_id x, i_percorso_file x)
       /\ filter (fun r => dell_articolo "P1" r && e_principale r)
            (righe_immagini Esempi3.resta_la_seconda) = [x].
Proof.
  assert (H1 : storia_immagini Esempi3.os_finto Esempi3.resta_la_seconda)
    by (repeat constructor).
  assert (H2 : filter (dell_articolo "P1")
                 (righe_immagini Esempi3.resta_la_seconda) <> [])
    by (vm_compute; discriminate).
  split; [split; [exact H1 | exact H2]|].
  exact (immagine_principale_unica Esempi3.os_finto Esempi3.resta_la_seconda
           "P1" H1 H2).
Defined.

(* ===================================================================== *)
(** ** Users *)
(* ===================================================================== *)

Lemma existsb_false_find {A} (f : A -> bool) (l : list A) :
  existsb f l = false -> find f l = None.
Proof.
  induction l as [|x l IH]; simpl; [reflexivity|].
  destruct (f x); [discriminate|exact IH].
Qed.

Lemma existsb_true_find {A} (f : A -> bool) (l : list A) :
  existsb f l = true -> exists x, find f l = Some x.
Proof.
  induction l as [|x l IH]; simpl; [discriminate|].
  destruct (f x); [eexists; reflexivity|exact IH].
Qed.

(** X22.  [crea_utente] inserts a user only if the name is free: looking the name
    up afterwards gives the user that already existed, with the password
    hash it had, or else the new user with the hash given; every other name
    looks up as before. *)
Theorem crea_utente_get_utente U username password_hash ora altro :
  get_utente (crea_utente U username password_hash ora) altro
  = if altro =?= username
    then match get_utente U username with
         | Some riga => Some riga
         | None =>
             Some (prossimo_id (sequenza_utenti U) (map u_id (righe_utenti U)),
                   username, password_hash)
         end
    else get_utente U altro.
Proof.
  unfold crea_utente, get_utente.
  destruct (existsb _ (righe_utenti U)) eqn:X.
  - cbn [righe_utenti].
    destruct (String.eqb_spec altro username) as [->|Hne]; [|reflexivity].
    destruct (existsb_true_find _ _ X) as [x ->]. reflexivity.
  - apply existsb_false_find in X. cbn [righe_utenti].
    destruct (String.eqb_spec altro username) as [->|Hne].
    + rewrite X, (find_app_None _ _ _ X). simpl.
      rewrite String.eqb_refl. reflexivity.
    + destruct (find (fun r => u_username r =?= altro) (righe_utenti U))
        as [x|] eqn:F.
      * rewrite (find_app_Some _ _ _ _ F). reflexivity.
      * rewrite (find_app_None _ _ _ F). simpl.
        replace (username =?= altro) with false; [reflexivity|].
        symmetry. apply String.eqb_neq. congruence.
Qed.

(* ===================================================================== *)
(** ** Quantities stay non-negative *)
(* ===================================================================== *)

(** X23.  Every writer keeps every stock quantity a non-negative integer, as long
    as [aggiorna_taglia_colore] is not called with a negative quantity: it
    is the only function that can write one. *)
Theorem passo_quantita_non_negative db db' :
  passo_senza_negativi db db' ->
  quantita_non_negative db -> quantita_non_negative db'.
Proof.
  intros Hp H. destruct Hp.
  - apply init_database_non_negativa, H.
  - unfold aggiungi_colore. destruct (vuota (strip c)); exact H.
  - unfold rinomina_colore.
    destruct (vuota (strip v) || vuota (strip n)); [exact H|].
    unfold quantita_non_negative. cbn [taglie_prodotti]. apply Forall_map.
    eapply Forall_impl; [|exact H]. intros r Hr. simpl.
    destruct (del_colore p (strip v) r); [apply quantita_ok_con_colore|]; exact Hr.
  - unfold elimina_colore. destruct (vuota (strip c)); [exact H|].
    apply Forall_filter_keep, H.
  - apply ensure_stock_colore_non_negativa, H.
  - apply reset_stock_prodotto_non_negativa, H.
  - apply aggiorna_taglia_colore_non_negativa; assumption.
  - apply carica_stock_colore_non_negativa, H.
  - apply scarica_vendita_colore_non_negativa, H.
  - apply set_stock_colore_non_negativa, H.
  - unfold crea_prodotto. destruct (vuota (strip cod)); [exact H|].
    destruct (float_costo costo); [|exact H].
    destruct (find _ (prodotti db)).
    + rewrite lista_colori_solleva. destruct (negb _); exact H.
    + cbn [snd]. apply ensure_stock_colore_non_negativa. exact H.
  - unfold aggiorna_venduti. destruct (negb (in_int64 v)); exact H.
  - apply Forall_filter_keep, H.
Qed.

Lemma passo_quantita_non_negative_witness :
  (passo_senza_negativi Esempi.db_blu5
     (snd (scarica_vendita_colore Esempi.db_blu5 "P1" "Blu" "42" 5 9))
   /\ quantita_non_negative Esempi.db_blu5)
  /\ quantita_non_negative
       (snd (scarica_vendita_colore Esempi.db_blu5 "P1" "Blu" "42" 5 9)).
Proof.
  assert (H1 : passo_senza_negativi Esempi.db_blu5
                 (snd (scarica_vendita_colore Esempi.db_blu5 "P1" "Blu" "42" 5 9)))
    by apply psn_scarica.
  assert (H2 : quantita_non_negative Esempi.db_blu5).
  { unfold quantita_non_negative. vm_compute taglie_prodotti.
    repeat (apply Forall_cons; [eexists; split; [reflexivity|lia]|]).
    apply Forall_nil. }
  split; [split; [exact H1 | exact H2]|].
  exact (passo_quantita_non_negative _ _ H1 H2).
Defined.

(* ===================================================================== *)
(** ** Labels that are not in normal form *)
(* ===================================================================== *)

(** X24.  [get_taglie_colore] looks the label up as it is given, while
    [get_rimanenza_colore] normalises it first: on a store with normal
    labels, a label that is blank or padded lists no size at all, and still
    totals the stock of the label it normalises to. *)
Theorem get_taglie_colore_etichetta_grezza db p c :
  etichette_stock_normali db ->
  norm_colore c <> c ->
  get_taglie_colore db p c = []
  /\ get_rimanenza_colore db p c = get_rimanenza_colore db p (norm_colore c).
Proof.
  intros Hinv Hc. split.
  - rewrite get_taglie_colore_righe.
    rewrite filter_niente; [reflexivity|].
    intros r Hr. apply not_true_iff_false. intros D.
    apply del_colore_true in D. destruct D as [_ D].
    unfold etichette_stock_normali in Hinv. rewrite Forall_forall in Hinv.
    destruct (Hinv r Hr) as [c' [E N]]. apply Hc.
    rewrite D in E. injection E as <-. exact N.
  - rewrite !get_rimanenza_colore_eq, norm_colore_idem. reflexivity.
Qed.

Lemma get_taglie_colore_etichetta_grezza_witness :
  (etichette_stock_normali Esempi.db_default /\ norm_colore "" <> "")
  /\ get_taglie_colore Esempi.db_default "P1" "" = []
  /\ get_rimanenza_colore Esempi.db_default "P1" ""
     = get_rimanenza_colore Esempi.db_default "P1" (norm_colore "").
Proof.
  assert (H1 : etichette_stock_normali Esempi.db_default)
    by (unfold etichette_stock_normali; vm_compute taglie_prodotti;
        etichette_concrete).
  assert (H2 : norm_colore "" <> "") by (vm_compute; discriminate).
  split; [split; [exact H1 | exact H2]|].
  exact (get_taglie_colore_etichetta_grezza Esempi.db_default "P1" "" H1 H2).
Defined.

(* ===================================================================== *)
(** ** A migration pass after a failed one *)
(* ===================================================================== *)

Lemma migra_fst_indipendente righe : forall C T T',
  fst (migra_prodotti senza_guasti righe C T)
  = fst (migra_prodotti senza_guasti righe C T').
Proof.
  induction righe as [|[cod leg] righe IH]; intros C T T'; simpl; [reflexivity|].
  apply IH.
Qed.

Lemma migra_app l1 : forall l2 C T,
  migra_prodotti senza_guasti (l1 ++ l2) C T
  = migra_prodotti senza_guasti l2
      (fst (migra_prodotti senza_guasti l1 C T))
      (snd (migra_prodotti senza_guasti l1 C T)).
Proof.
  induction l1 as [|[cod leg] l1 IH]; intros l2 C T; simpl; [reflexivity|].
  apply IH.
Qed.

Lemma migra_senza_fallimenti g righe : forall C T,
  (forall x, In x righe ->
     g (fst x) RegistraColore = false /\ g (fst x) AssegnaColore = false) ->
  migra_prodotti g righe C T = migra_prodotti senza_guasti righe C T.
Proof.
  induction righe as [|[cod leg] righe IH]; intros C T H; simpl; [reflexivity|].
  destruct (H (cod, leg) (or_introl eq_refl)) as [E1 E2]. simpl in E1, E2.
  rewrite E1, E2. apply IH. intros x Hx. apply H. right. exact Hx.
Qed.

(** Either no statement fails, or there is a first product at which one
    does. *)
Lemma primo_guasto (g : guasti) (righe : list (string * string)) :
  (forall x, In x righe ->
     g (fst x) RegistraColore = false /\ g (fst x) AssegnaColore = false)
  \/ exists pre cod leg post,
       righe = pre ++ (cod, leg) :: post
       /\ (forall x, In x pre ->
             g (fst x) RegistraColore = false /\ g (fst x) AssegnaColore = false)
       /\ (g cod RegistraColore = true \/ g cod AssegnaColore = true).
Proof.
  induction righe as [|[cod leg] righe IH].
  - left. intros x [].
  - destruct (g cod RegistraColore) eqn:E1.
    { right. exists [], cod, leg, righe.
      split; [reflexivity|]. split; [intros x []|]. left. exact E1. }
    destruct (g cod AssegnaColore) eqn:E2.
    { right. exists [], cod, leg, righe.
      split; [reflexivity|]. split; [intros x []|]. right. exact E2. }
    destruct IH as [IH|[pre [cod' [leg' [post [E [Hpre Hg]]]]]]].
    + left. intros x [<-|Hx]; [simpl; auto|apply IH, Hx].
    + right. exists ((cod, leg) :: pre), cod', leg', post.
      split; [rewrite E; reflexivity|]. split; [|exact Hg].
      intros x [<-|Hx]; [simpl; auto|apply Hpre, Hx].
Qed.

Lemma colore_migrato_prefisso pre resto r :
  colore_migrato (pre ++ resto) (colore_migrato pre r)
  = colore_migrato (pre ++ resto) r.
Proof.
  destruct (colore_assente (t_colore r)) eqn:A.
  - destruct (find (fun x => fst x =?= t_codice_prodotto r) pre) as [x|] eqn:F.
    + assert (E1 : colore_migrato pre r
                   = con_colore (Some (norm_colore (snd x))) r)
        by (unfold colore_migrato; rewrite A, F; reflexivity).
      assert (E2 : colore_migrato (pre ++ resto) r
                   = con_colore (Some (norm_colore (snd x))) r)
        by (unfold colore_migrato;
            rewrite A, (find_app_Some _ _ _ _ F); reflexivity).
      rewrite E1, E2. apply colore_migrato_presente, norm_colore_presente.
    + assert (E1 : colore_migrato pre r = r)
        by (unfold colore_migrato; rewrite A, F; reflexivity).
      rewrite E1. reflexivity.
  - rewrite (colore_migrato_presente pre r A). reflexivity.
Qed.

Lemma insert_or_ignore_idem k C :
  insert_or_ignore k (insert_or_ignore k C) = insert_or_ignore k C.
Proof. apply insert_or_ignore_presente, insert_or_ignore_In. Qed.

Lemma migra_recupera g righe C T :
  migra_prodotti senza_guasti righe
    (fst (migra_prodotti g righe C T)) (snd (migra_prodotti g righe C T))
  = migra_prodotti senza_guasti righe C T.
Proof.
  apply injective_projections.
  - destruct (primo_guasto g righe)
      as [H|[pre [cod [leg [post [E [Hpre Hg]]]]]]].
    + rewrite (migra_senza_fallimenti g righe C T H).
      rewrite (migra_fst_indipendente righe _ _ T).
      apply migra_prodotti_colori_fisso.
      intros cod leg. apply migra_prodotti_registra.
    + subst righe.
      rewrite (migra_prodotti_interrotta g pre cod leg post C T Hpre Hg).
      cbn [fst snd].
      set (C1 := fst (migra_prodotti senza_guasti pre C T)).
      set (T1 := snd (migra_prodotti senza_guasti pre C T)).
      set (Cg := if g cod RegistraColore then C1
                 else insert_or_ignore (cod, norm_colore leg) C1).
      assert (Hsub : forall k, In k C1 -> In k Cg)
        by (intros k Hk; unfold Cg; destruct (g cod RegistraColore);
            [exact Hk|apply insert_or_ignore_conserva, Hk]).
      rewrite !migra_app. fold C1 T1.
      assert (Hpre_fisso : fst (migra_prodotti senza_guasti pre Cg T1) = Cg).
      { apply migra_prodotti_colori_fisso. intros cod' leg' Hin.
        apply Hsub. unfold C1. apply migra_prodotti_registra, Hin. }
      rewrite Hpre_fisso. simpl.
      assert (Hins : insert_or_ignore (cod, norm_colore leg) Cg
                     = insert_or_ignore (cod, norm_colore leg) C1)
        by (unfold Cg; destruct (g cod RegistraColore);
            [reflexivity|apply insert_or_ignore_idem]).
      rewrite Hins. apply migra_fst_indipendente.
  - rewrite !migra_prodotti_taglie.
    destruct (primo_guasto g righe)
      as [H|[pre [cod [leg [post [E [Hpre Hg]]]]]]].
    + rewrite (migra_senza_fallimenti g righe C T H), migra_prodotti_taglie.
      rewrite map_map. apply map_ext. intros r. apply colore_migrato_idem.
    + subst righe.
      rewrite (migra_prodotti_interrotta g pre cod leg post C T Hpre Hg).
      cbn [snd]. rewrite migra_prodotti_taglie, map_map.
      apply map_ext. intros r. apply colore_migrato_prefisso.
Qed.

(** X25.  A pass of [init_database] in which no statement fails, run after a pass
    in which one did, leaves the store that a pass without failure would
    have left in the first place: what a failure skips is made up by the
    next start. *)
Theorem init_database_recupera g db ora ora' :
  init_database senza_guasti (init_database g db ora) ora'
  = init_database senza_guasti db ora.
Proof.
  unfold init_database at 2. rewrite select_legacy_timestamp.
  pose proof (migra_recupera g (select_legacy (prodotti db))
                (colori_prodotti db) (taglie_prodotti db)) as R.
  destruct (migra_prodotti g (select_legacy (prodotti db))
              (colori_prodotti db) (taglie_prodotti db)) as [Cg Tg].
  cbn [fst snd] in R. unfold init_database.
  cbn [prodotti colori_prodotti taglie_prodotti].
  rewrite inizializza_timestamp_idem, !select_legacy_timestamp, R.
  reflexivity.
Qed.
